(** * Kiro bridge: event-stream codec, request translation, model listing,
      streaming handler and extension patcher.

    A shallow embedding of [src/services/proxyPackageService.ts] (second
    document of that file: the Kiro IDE integration service and the server
    script it spawns), with the properties of the specification stated and
    proved against it. *)

From Stdlib Require Import ZArith String Ascii List Lia Bool DecimalString.
From stdpp Require Import base gmap strings list.

Set Warnings "-register-all".
Local Open Scope Z_scope.

(** ** The 32-bit integer operators of the host language

    A number is a [Z].  The bit operators first convert their operands to
    32 bits: [^] and [&] give a signed 32-bit result, [>>>] an unsigned
    one. *)
Module JS.

Definition ToUint32 (x : Z) : Z := x mod 2 ^ 32.

Definition ToInt32 (x : Z) : Z := (x + 2 ^ 31) mod 2 ^ 32 - 2 ^ 31.

(** [a ^ b] *)
Definition xor (a b : Z) : Z := ToInt32 (Z.lxor (ToInt32 a) (ToInt32 b)).

(** [a & b] *)
Definition and (a b : Z) : Z := ToInt32 (Z.land (ToInt32 a) (ToInt32 b)).

(** [a >>> n] *)
Definition ushr (a n : Z) : Z := Z.shiftr (ToUint32 a) (n mod 32).

(** Truth value of a number in a condition. *)
Definition truthy (x : Z) : bool := negb (x =? 0).

End JS.

(** ** CRC32 calculator *)
Module Crc.

Definition POLY : Z := 0xEDB88320.

(** Body of the inner loop that fills the table:
    [crc = (crc & 1) ? (0xEDB88320 ^ (crc >>> 1)) : (crc >>> 1)]. *)
Definition table_step (crc : Z) : Z :=
  if JS.truthy (JS.and crc 1) then JS.xor POLY (JS.ushr crc 1)
  else JS.ushr crc 1.

(** [CRC32_TABLE[i] = crc >>> 0] after eight rounds; the store into the
    [Uint32Array] keeps the low 32 bits. *)
Definition table_entry (i : Z) : Z :=
  JS.ToUint32 (JS.ushr (Nat.iter 8 table_step i) 0).

Definition CRC32_TABLE : list Z :=
  List.map (fun i => table_entry (Z.of_nat i)) (seq 0 256).

(** A read of the typed array; an index outside it reads [undefined],
    which the bit operators take as 0. *)
Definition table_get (i : Z) : Z := nth (Z.to_nat i) CRC32_TABLE 0.

Definition byte_val (b : Byte.byte) : Z := Z.of_N (Byte.to_N b).

(** Body of the loop of [crc32]:
    [crc = CRC32_TABLE[(crc ^ data[i]) & 0xFF] ^ (crc >>> 8)]. *)
Definition crc_step (crc : Z) (b : Byte.byte) : Z :=
  JS.xor (table_get (JS.and (JS.xor crc (byte_val b)) 0xFF)) (JS.ushr crc 8).

Definition crc32 (data : list Byte.byte) : Z :=
  let crc := fold_left crc_step data 0xFFFFFFFF in
  JS.ushr (JS.xor crc 0xFFFFFFFF) 0.

(** *** The reference definition

    Bit-at-a-time CRC-32 on unsigned registers: reflected polynomial
    [0xEDB88320], initial register [0xFFFFFFFF], final xor [0xFFFFFFFF]. *)
Definition ref_bit (c : Z) : Z :=
  if Z.odd c then Z.lxor (Z.shiftr c 1) POLY else Z.shiftr c 1.

Definition ref_byte (c : Z) (b : Byte.byte) : Z :=
  Nat.iter 8 ref_bit (Z.lxor c (byte_val b)).

Definition crc32_ref (data : list Byte.byte) : Z :=
  Z.lxor (fold_left ref_byte data 0xFFFFFFFF) 0xFFFFFFFF.

End Crc.

(** ** Text

    Operations of the string type that the source uses. *)
Module Text.

Definition newline : ascii := "010"%char.

(** [s.startsWith(p)] *)
Definition startsWith (s p : string) : bool := String.prefix p s.

(** [s.includes(p)] *)
Fixpoint includes (s p : string) : bool :=
  String.prefix p s ||
  match s with
  | EmptyString => false
  | String _ s' => includes s' p
  end.

(** [s.slice(n)] *)
Fixpoint slice (n : nat) (s : string) : string :=
  match n, s with
  | S n', String _ s' => slice n' s'
  | _, _ => s
  end.

(** The text that follows the prefix [p] of [s], if [s] starts with it. *)
Fixpoint strip_prefix (p s : string) : option string :=
  match p, s with
  | EmptyString, _ => Some s
  | String a p', String b s' => if Ascii.eqb a b then strip_prefix p' s' else None
  | String _ _, EmptyString => None
  end.

(** [s.split("\n")]: the pieces between line feeds, never an empty list. *)
Fixpoint split_lines (s : string) : list string :=
  match s with
  | EmptyString => [EmptyString]
  | String c s' =>
      if Ascii.eqb c newline then EmptyString :: split_lines s'
      else match split_lines s' with
           | h :: t => String c h :: t
           | [] => [String c EmptyString]
           end
  end.

Definition lower_char (c : ascii) : ascii :=
  let n := N_of_ascii c in
  if (65 <=? n)%N && (n <=? 90)%N then ascii_of_N (n + 32) else c.

(** [s.toLowerCase()], on the ASCII letters. *)
Fixpoint toLowerCase (s : string) : string :=
  match s with
  | EmptyString => EmptyString
  | String c s' => String (lower_char c) (toLowerCase s')
  end.

End Text.

(** ** Operations that may throw

    [Throw e] is an exception with message [e]; [x ← r; k] runs [k] when
    [r] returned. *)
Inductive result (A : Type) : Type :=
| Ok (a : A)
| Throw (e : string).
Arguments Ok {A} a.
Arguments Throw {A} e.

#[global] Instance result_ret : MRet result := fun A a => Ok a.
#[global] Instance result_bind : MBind result := fun A B k r =>
  match r with Ok a => k a | Throw e => Throw e end.

Definition is_ok {A} (r : result A) : bool :=
  match r with Ok _ => true | Throw _ => false end.

(** ** JSON values, [JSON.parse] and [JSON.stringify]

    A string is modelled by its UTF-8 bytes, so [Buffer.from(s, "utf8")]
    is the list of those bytes.  (Text with unpaired surrogates, which has
    no UTF-8 encoding, is outside the model; an escape that denotes one is
    read as U+FFFD.)  A number is a finite decimal
    [± mantissa × 10 ^ exponent]; the model is exact for the literals whose
    shortest round-trip form they are, which covers every number the
    source writes. *)
Module Json.

Record number : Type := Number { negative : bool; mantissa : N; exponent : Z }.

Inductive json : Type :=
| JNull
| JBool (b : bool)
| JNum (n : number)
| JStr (s : string)
| JArr (items : list json)
| JObj (fields : list (string * json)).

Definition num (z : Z) : json := JNum (Number (z <? 0) (Z.abs_N z) 0).

(** *** Values in conditions and property reads *)

Definition truthy (v : json) : bool :=
  match v with
  | JNull => false
  | JBool b => b
  | JNum n => negb (mantissa n =? 0)%N
  | JStr s => negb (String.eqb s "")
  | JArr _ | JObj _ => true
  end.

(** [undefined] is [None]. *)
Definition truthy_opt (v : option json) : bool :=
  match v with Some v => truthy v | None => false end.

Fixpoint assoc (fs : list (string * json)) (k : string) : option json :=
  match fs with
  | [] => None
  | (k', v) :: fs' => if String.eqb k' k then Some v else assoc fs' k
  end.

(** [v.k] for a [v] that is neither [null] nor [undefined], and a key [k]
    that no prototype defines (all the property names the source reads
    from parsed data are such); on [null] this is a [TypeError], see
    [get]. *)
Definition prop (v : json) (k : string) : option json :=
  match v with
  | JObj fs => assoc fs k
  | _ => None
  end.

(** [v.k] *)
Definition get (v : option json) (k : string) : result (option json) :=
  match v with
  | None => Throw "TypeError: Cannot read properties of undefined"
  | Some JNull => Throw "TypeError: Cannot read properties of null"
  | Some v => Ok (prop v k)
  end.

(** [v?.k] *)
Definition get_opt (v : option json) (k : string) : option json :=
  match v with
  | None | Some JNull => None
  | Some v => prop v k
  end.

(** *** Numbers to text ([Number::toString]) *)

Definition digits (n : N) : string := NilZero.string_of_uint (N.to_uint n).

Fixpoint zeros (n : nat) : string :=
  match n with O => "" | S n' => String "0" (zeros n') end.

(** Removes the trailing zeros of a digit string and counts them. *)
Fixpoint strip_zeros (s : string) : string * nat :=
  match s with
  | EmptyString => (EmptyString, O)
  | String c s' =>
      let '(t, k) := strip_zeros s' in
      if String.eqb t "" && Ascii.eqb c "0" then (EmptyString, S k)
      else (String c t, k)
  end.

Definition number_to_string (x : number) : string :=
  if (mantissa x =? 0)%N then "0" else
  let '(ds, z) := strip_zeros (digits (mantissa x)) in
  let k := Z.of_nat (String.length ds) in
  let n := k + exponent x + Z.of_nat z in
  let body :=
    if (k <=? n) && (n <=? 21) then ds +:+ zeros (Z.to_nat (n - k))
    else if (0 <? n) && (n <=? 21) then
      substring 0 (Z.to_nat n) ds +:+ "." +:+
      substring (Z.to_nat n) (Z.to_nat (k - n)) ds
    else if (-6 <? n) && (n <=? 0) then "0." +:+ zeros (Z.to_nat (- n)) +:+ ds
    else
      let e := n - 1 in
      let tail := "e" +:+ (if e <? 0 then "-" else "+") +:+ digits (Z.abs_N e) in
      match ds with
      | EmptyString => EmptyString
      | String d EmptyString => String d tail
      | String d rest => String d ("." +:+ rest +:+ tail)
      end in
  (if negative x then "-" else "") +:+ body.

(** *** [JSON.stringify] *)

Definition hex_digit (n : N) : ascii :=
  ascii_of_N (if (n <? 10)%N then 48 + n else 87 + n).

Definition dquote : ascii := "034"%char.

Definition escape_char (c : ascii) : string :=
  let n := N_of_ascii c in
  if Ascii.eqb c dquote then String "\" (String dquote "")
  else if Ascii.eqb c "\" then "\\"
  else if (n =? 8)%N then "\b"
  else if (n =? 12)%N then "\f"
  else if (n =? 10)%N then "\n"
  else if (n =? 13)%N then "\r"
  else if (n =? 9)%N then "\t"
  else if (n <? 32)%N then
    "\u00" +:+ String (hex_digit (n / 16)) (String (hex_digit (n mod 16)) "")
  else String c "".

Fixpoint escape (s : string) : string :=
  match s with
  | EmptyString => EmptyString
  | String c s' => escape_char c +:+ escape s'
  end.

Definition quote (s : string) : string :=
  String dquote (escape s +:+ String dquote "").

Fixpoint join (sep : string) (l : list string) : string :=
  match l with
  | [] => ""
  | [x] => x
  | x :: l' => x +:+ sep +:+ join sep l'
  end.

Fixpoint stringify (v : json) : string :=
  match v with
  | JNull => "null"
  | JBool true => "true"
  | JBool false => "false"
  | JNum n => number_to_string n
  | JStr s => quote s
  | JArr items => "[" +:+ join "," (List.map stringify items) +:+ "]"
  | JObj fields =>
      "{" +:+
      join "," (List.map (fun kv => quote (fst kv) +:+ ":" +:+ stringify (snd kv))
                         fields) +:+
      "}"
  end.

(** *** [JSON.parse] *)

Definition is_ws (c : ascii) : bool :=
  let n := N_of_ascii c in ((n =? 32) || (n =? 9) || (n =? 10) || (n =? 13))%N.

Fixpoint skip_ws (s : string) : string :=
  match s with
  | String c s' => if is_ws c then skip_ws s' else s
  | EmptyString => EmptyString
  end.

Definition is_digit (c : ascii) : bool :=
  let n := N_of_ascii c in ((48 <=? n) && (n <=? 57))%N.

Fixpoint take_digits (s : string) : string * string :=
  match s with
  | String c s' =>
      if is_digit c then let '(d, r) := take_digits s' in (String c d, r)
      else (EmptyString, s)
  | EmptyString => (EmptyString, EmptyString)
  end.

Definition digits_value (ds : string) : N :=
  match NilEmpty.uint_of_string ds with
  | Some u => N.of_uint u
  | None => 0%N
  end.

(** [-? int frac? exp?], with no leading zero in [int]. *)
Definition parse_number (s : string) : option (number * string) :=
  let '(neg, s1) :=
    match s with
    | String c r => if Ascii.eqb c "-" then (true, r) else (false, s)
    | EmptyString => (false, s)
    end in
  let '(ip, s2) := take_digits s1 in
  if String.eqb ip "" then None
  else if String.prefix "0" ip && negb (String.eqb ip "0") then None
  else
    let frac :=
      match s2 with
      | String c r =>
          if Ascii.eqb c "." then
            let '(f, r') := take_digits r in
            if String.eqb f "" then None else Some (f, r')
          else Some (EmptyString, s2)
      | EmptyString => Some (EmptyString, s2)
      end in
    match frac with
    | None => None
    | Some (fp, s3) =>
        let expo :=
          match s3 with
          | String c r =>
              if Ascii.eqb c "e" || Ascii.eqb c "E" then
                let '(sgn, r1) :=
                  match r with
                  | String d r' =>
                      if Ascii.eqb d "-" then (-1, r')
                      else if Ascii.eqb d "+" then (1, r')
                      else (1, r)
                  | EmptyString => (1, r)
                  end in
                let '(ds, r2) := take_digits r1 in
                if String.eqb ds "" then None
                else Some (sgn * Z.of_N (digits_value ds), r2)
              else Some (0, s3)
          | EmptyString => Some (0, s3)
          end in
        match expo with
        | None => None
        | Some (e, s4) =>
            Some (Number neg (digits_value (ip +:+ fp))
                         (e - Z.of_nat (String.length fp)), s4)
        end
    end.

Definition hex_value (c : ascii) : option N :=
  let n := N_of_ascii c in
  if ((48 <=? n) && (n <=? 57))%N then Some (n - 48)%N
  else if ((97 <=? n) && (n <=? 102))%N then Some (n - 87)%N
  else if ((65 <=? n) && (n <=? 70))%N then Some (n - 55)%N
  else None.

Definition chr (n : N) : string := String (ascii_of_N n) EmptyString.

(** UTF-8 encoding of a code point. *)
Definition utf8 (cp : N) : string :=
  (if cp <? 0x80 then chr cp
   else if cp <? 0x800 then chr (0xC0 + cp / 64) +:+ chr (0x80 + cp mod 64)
   else if cp <? 0x10000 then
     chr (0xE0 + cp / 4096) +:+ chr (0x80 + (cp / 64) mod 64) +:+
     chr (0x80 + cp mod 64)
   else
     chr (0xF0 + cp / 262144) +:+ chr (0x80 + (cp / 4096) mod 64) +:+
     chr (0x80 + (cp / 64) mod 64) +:+ chr (0x80 + cp mod 64))%N.

Definition replacement : string := utf8 0xFFFD.

(** A [\uXXXX] escape denotes a UTF-16 code unit; [pend] is a high
    surrogate still waiting for its low half. *)
Definition emit_unit (pend : option N) (cu : N) : string * option N :=
  let is_hi := ((0xD800 <=? cu) && (cu <=? 0xDBFF))%N in
  let is_lo := ((0xDC00 <=? cu) && (cu <=? 0xDFFF))%N in
  match pend with
  | Some hi =>
      if is_lo then
        (utf8 (0x10000 + (hi - 0xD800) * 1024 + (cu - 0xDC00))%N, None)
      else if is_hi then (replacement, Some cu)
      else (replacement +:+ utf8 cu, None)
  | None =>
      if is_hi then (EmptyString, Some cu)
      else if is_lo then (replacement, None)
      else (utf8 cu, None)
  end.

Definition flush (pend : option N) : string :=
  match pend with Some _ => replacement | None => EmptyString end.

Definition simple_escape (c : ascii) : option ascii :=
  if Ascii.eqb c dquote then Some dquote
  else if Ascii.eqb c "\" then Some "\"%char
  else if Ascii.eqb c "/" then Some "/"%char
  else if Ascii.eqb c "b" then Some "008"%char
  else if Ascii.eqb c "f" then Some "012"%char
  else if Ascii.eqb c "n" then Some "010"%char
  else if Ascii.eqb c "r" then Some "013"%char
  else if Ascii.eqb c "t" then Some "009"%char
  else None.

Inductive smode : Type :=
| Plain
| Escaped
| Hex (k : nat) (acc : N).

Definition prepend (p : string) (r : option (string * string)) :
  option (string * string) :=
  match r with
  | Some (t, rest) => Some (p +:+ t, rest)
  | None => None
  end.

(** The characters of a string literal after its opening quote: the
    decoded text and what follows the closing quote. *)
Fixpoint string_body (m : smode) (pend : option N) (s : string) :
  option (string * string) :=
  match s with
  | EmptyString => None
  | String c r =>
      match m with
      | Plain =>
          if Ascii.eqb c dquote then Some (flush pend, r)
          else if Ascii.eqb c "\" then string_body Escaped pend r
          else if (N_of_ascii c <? 32)%N then None
          else prepend (flush pend +:+ String c EmptyString)
                       (string_body Plain None r)
      | Escaped =>
          if Ascii.eqb c "u" then string_body (Hex 0 0) pend r
          else match simple_escape c with
               | Some ch => prepend (flush pend +:+ String ch EmptyString)
                                    (string_body Plain None r)
               | None => None
               end
      | Hex k acc =>
          match hex_value c with
          | None => None
          | Some h =>
              let acc' := (acc * 16 + h)%N in
              if (k =? 3)%nat then
                let '(out, pend') := emit_unit pend acc' in
                prepend out (string_body Plain pend' r)
              else string_body (Hex (S k) acc') pend r
          end
      end
  end.

(** A repeated key keeps its first position and takes the last value. *)
Fixpoint obj_set (fs : list (string * json)) (k : string) (v : json) :
  list (string * json) :=
  match fs with
  | [] => [(k, v)]
  | (k', v') :: fs' =>
      if String.eqb k' k then (k', v) :: fs' else (k', v') :: obj_set fs' k v
  end.

Definition literal (rest : string) (v : json) (s : string) :
  option (json * string) :=
  match Text.strip_prefix rest s with
  | Some r => Some (v, r)
  | None => None
  end.

Fixpoint parse_value (fuel : nat) (s : string) {struct fuel} :
  option (json * string) :=
  match fuel with
  | O => None
  | S fuel =>
      match skip_ws s with
      | EmptyString => None
      | String c r =>
          if Ascii.eqb c "{" then
            match skip_ws r with
            | String c' r' =>
                if Ascii.eqb c' "}" then Some (JObj [], r')
                else parse_members fuel [] r
            | EmptyString => None
            end
          else if Ascii.eqb c "[" then
            match skip_ws r with
            | String c' r' =>
                if Ascii.eqb c' "]" then Some (JArr [], r')
                else match parse_elems fuel r with
                     | Some (vs, r'') => Some (JArr vs, r'')
                     | None => None
                     end
            | EmptyString => None
            end
          else if Ascii.eqb c dquote then
            match string_body Plain None r with
            | Some (t, r') => Some (JStr t, r')
            | None => None
            end
          else if Ascii.eqb c "t" then literal "rue" (JBool true) r
          else if Ascii.eqb c "f" then literal "alse" (JBool false) r
          else if Ascii.eqb c "n" then literal "ull" JNull r
          else match parse_number (String c r) with
               | Some (n, r') => Some (JNum n, r')
               | None => None
               end
      end
  end
with parse_elems (fuel : nat) (s : string) {struct fuel} :
  option (list json * string) :=
  match fuel with
  | O => None
  | S fuel =>
      match parse_value fuel s with
      | None => None
      | Some (v, r) =>
          match skip_ws r with
          | String c r' =>
              if Ascii.eqb c "," then
                match parse_elems fuel r' with
                | Some (vs, r'') => Some (v :: vs, r'')
                | None => None
                end
              else if Ascii.eqb c "]" then Some ([v], r')
              else None
          | EmptyString => None
          end
      end
  end
with parse_members (fuel : nat) (acc : list (string * json)) (s : string)
  {struct fuel} : option (json * string) :=
  match fuel with
  | O => None
  | S fuel =>
      match skip_ws s with
      | String c r =>
          if Ascii.eqb c dquote then
            match string_body Plain None r with
            | Some (k, r1) =>
                match skip_ws r1 with
                | String c1 r2 =>
                    if Ascii.eqb c1 ":" then
                      match parse_value fuel r2 with
                      | Some (v, r3) =>
                          let acc' := obj_set acc k v in
                          match skip_ws r3 with
                          | String c3 r4 =>
                              if Ascii.eqb c3 "," then parse_members fuel acc' r4
                              else if Ascii.eqb c3 "}" then Some (JObj acc', r4)
                              else None
                          | EmptyString => None
                          end
                      | None => None
                      end
                    else None
                | EmptyString => None
                end
            | None => None
            end
          else None
      | EmptyString => None
      end
  end.

(** [JSON.parse(s)]; [None] is a [SyntaxError].  Every second nested call
    consumes a character, so the fuel is never the reason for [None]. *)
Definition parse (s : string) : option json :=
  match parse_value (2 * String.length s + 2) s with
  | Some (v, r) => if String.eqb (skip_ws r) "" then Some v else None
  | None => None
  end.

(** Writes a text with ['] for the quotation mark, for readable literals. *)
Fixpoint sq (s : string) : string :=
  match s with
  | EmptyString => EmptyString
  | String c s' => String (if Ascii.eqb c "'" then dquote else c) (sq s')
  end.

End Json.

(** ** EventStream encoder *)
Module Codec.

Import Json.

Definition Buffer : Type := list Byte.byte.

(** [Buffer.from(s, "utf8")] *)
Definition Buffer_from (s : string) : Buffer := list_byte_of_string s.

(** [Buffer.alloc(n)]: [n] zero bytes. *)
Definition alloc (n : nat) : Buffer := repeat Byte.x00 n.

Definition byte_of_Z (z : Z) : Byte.byte :=
  match Byte.of_N (Z.to_N (z mod 256)) with
  | Some b => b
  | None => Byte.x00
  end.

(** Big-endian bytes of [v], most significant first. *)
Fixpoint be_bytes (n : nat) (v : Z) : list Byte.byte :=
  match n with
  | O => []
  | S n' => be_bytes n' (v / 256) ++ [byte_of_Z v]
  end.

(** Overwrites [buf] from [offset] on with [bs], which fits. *)
Definition store (buf : Buffer) (offset : nat) (bs : list Byte.byte) : Buffer :=
  firstn offset buf ++ bs ++ skipn (offset + length bs) buf.

(** [buf.writeUInt8 / writeUInt16BE / writeUInt32BE (value, offset)]: a
    value that needs more than [n] bytes, or a place outside the buffer,
    is a [RangeError]. *)
Definition writeUIntBE (n : nat) (buf : Buffer) (value : Z) (offset : nat) :
  result Buffer :=
  if (0 <=? value) && (value <? 256 ^ Z.of_nat n) then
    if (offset + n <=? length buf)%nat then Ok (store buf offset (be_bytes n value))
    else Throw "RangeError: offset is out of range"
  else Throw "RangeError: value is out of range".

Definition writeUInt8 := writeUIntBE 1.
Definition writeUInt16BE := writeUIntBE 2.
Definition writeUInt32BE := writeUIntBE 4.

(** [source.copy(target, targetStart)]: copies as many bytes as fit. *)
Definition copy (source target : Buffer) (targetStart : nat) : Buffer :=
  store target targetStart
        (firstn (Nat.min (length source) (length target - targetStart)) source).

(** [buf.subarray(0, n)] *)
Definition subarray (buf : Buffer) (n : nat) : Buffer := firstn n buf.

(** [buf.readUInt32BE(0)] and the like: the number a big-endian byte
    sequence denotes. *)
Definition readUIntBE (bs : list Byte.byte) : Z :=
  fold_left (fun acc b => acc * 256 + Crc.byte_val b) bs 0.

Definition encodeStringHeader (name value : string) : result Buffer :=
  let nameBuffer := Buffer_from name in
  let valueBuffer := Buffer_from value in
  let header := alloc (1 + length nameBuffer + 1 + 2 + length valueBuffer) in
  let offset := O in
  header ← writeUInt8 header (Z.of_nat (length nameBuffer)) offset;
  let offset := S offset in
  let header := copy nameBuffer header offset in
  let offset := (offset + length nameBuffer)%nat in
  header ← writeUInt8 header 7 offset;
  let offset := S offset in
  header ← writeUInt16BE header (Z.of_nat (length valueBuffer)) offset;
  let offset := (offset + 2)%nat in
  let header := copy valueBuffer header offset in
  Ok header.

Definition encodeEventStreamMessage (eventType : string) (payload : json) :
  result Buffer :=
  h1 ← encodeStringHeader ":event-type" eventType;
  h2 ← encodeStringHeader ":content-type" "application/json";
  h3 ← encodeStringHeader ":message-type" "event";
  let headersBuffer := h1 ++ h2 ++ h3 in
  let payloadBuffer := Buffer_from (stringify payload) in
  let totalLength := (12 + length headersBuffer + length payloadBuffer + 4)%nat in
  let message := alloc totalLength in
  let offset := O in
  message ← writeUInt32BE message (Z.of_nat totalLength) offset;
  let offset := (offset + 4)%nat in
  message ← writeUInt32BE message (Z.of_nat (length headersBuffer)) offset;
  let offset := (offset + 4)%nat in
  let preludeCrc := Crc.crc32 (subarray message 8) in
  message ← writeUInt32BE message preludeCrc offset;
  let offset := (offset + 4)%nat in
  let message := copy headersBuffer message offset in
  let offset := (offset + length headersBuffer)%nat in
  let message := copy payloadBuffer message offset in
  let offset := (offset + length payloadBuffer)%nat in
  let messageCrc := Crc.crc32 (subarray message offset) in
  writeUInt32BE message messageCrc offset.

(** The buffer an operation returned, empty if it threw. *)
Definition returned (r : result Buffer) : Buffer :=
  match r with
  | Ok b => b
  | Throw _ => []
  end.

Definition createAssistantResponseEvent (content : json) : result Buffer :=
  encodeEventStreamMessage "assistantResponseEvent" (JObj [("content", content)]).

Definition createMeteringEvent (usage : json) : result Buffer :=
  encodeEventStreamMessage "meteringEvent"
    (JObj [("unit", JStr "credit"); ("unitPlural", JStr "credits");
           ("usage", usage)]).

Definition createContextUsageEvent (percentage : json) : result Buffer :=
  encodeEventStreamMessage "contextUsageEvent"
    (JObj [("contextUsagePercentage", percentage)]).

End Codec.

(** ** Protocol translator *)
Module Translator.

Import Json.

(** [String(v)], the conversion a value undergoes when it is used as a
    property key. *)
Fixpoint to_string (v : json) : string :=
  match v with
  | JNull => "null"
  | JBool true => "true"
  | JBool false => "false"
  | JNum n => number_to_string n
  | JStr s => s
  | JArr items =>
      join "," (List.map (fun x => match x with
                                   | JNull => EmptyString
                                   | _ => to_string x
                                   end) items)
  | JObj _ => "[object Object]"
  end.

Definition property_key (id : option json) : string :=
  match id with
  | None => "undefined"
  | Some v => to_string v
  end.

(** The own properties of [MODEL_MAP]. *)
Definition MODEL_MAP : list (string * string) :=
  [("claude-haiku", "gemini-3-flash"); ("simple-task", "gemini-3-flash")].

(** [MODEL_MAP] is an object literal: a key that is not its own is looked
    up in [Object.prototype], whose members are all truthy (functions, and
    the prototype object itself for [__proto__]). *)
Definition Object_prototype : list string :=
  ["constructor"; "__defineGetter__"; "__defineSetter__"; "hasOwnProperty";
   "__lookupGetter__"; "__lookupSetter__"; "isPrototypeOf";
   "propertyIsEnumerable"; "toString"; "valueOf"; "__proto__";
   "toLocaleString"].

Fixpoint own (m : list (string * string)) (k : string) : option string :=
  match m with
  | [] => None
  | (k', v) :: m' => if String.eqb k' k then Some v else own m' k
  end.

Definition inherited (k : string) : bool :=
  existsb (String.eqb k) Object_prototype.

(** What ends up in the [model] field: a JSON value, or a member of
    [Object.prototype]. *)
Inductive model : Type :=
| Model (v : json)
| Builtin (name : string).

(** [MODEL_MAP[id] || id || "claude-sonnet-4-5-thinking"] *)
Definition mapModelId (id : option json) : model :=
  let k := property_key id in
  match own MODEL_MAP k with
  | Some v => Model (JStr v)
  | None =>
      if inherited k then Builtin k
      else match id with
           | Some v => if truthy v then Model v
                       else Model (JStr "claude-sonnet-4-5-thinking")
           | None => Model (JStr "claude-sonnet-4-5-thinking")
           end
  end.

Inductive role : Type := user | assistant.

(** The content of a message: a value copied from the request as it is
    (possibly [undefined]), or one text block [[{type: "text", text}]]. *)
Inductive content : Type :=
| Raw (v : option json)
| TextBlock (text : json).

Record message : Type := Message { msg_role : role; msg_content : content }.

Record ChatRequest : Type := {
  req_model : model;
  messages : list message;
  max_tokens : Z;
  stream : bool
}.

(** The values a [for ... of] loop visits: the items of an array, the
    characters of a string; other values are not iterable. *)
Fixpoint chars (s : string) : list json :=
  match s with
  | EmptyString => []
  | String c s' => JStr (String c EmptyString) :: chars s'
  end.

Definition iterate (v : json) : result (list json) :=
  match v with
  | JArr items => Ok items
  | JStr s => Ok (chars s)
  | _ => Throw "TypeError: value is not iterable"
  end.

(** The body of the loop over the history: the messages one entry adds. *)
Definition history_entry (msg : json) : result (list message) :=
  u ← get (Some msg) "userInputMessage";
  if truthy_opt u then
    c ← get u "content";
    Ok [Message user (Raw c)]
  else
    a ← get (Some msg) "assistantResponseMessage";
    match get_opt a "content" with
    | Some c => if truthy c then Ok [Message assistant (TextBlock c)] else Ok []
    | None => Ok []
    end.

Fixpoint history_loop (items : list json) (acc : list message) :
  result (list message) :=
  match items with
  | [] => Ok acc
  | msg :: rest =>
      m ← history_entry msg;
      history_loop rest (acc ++ m)
  end.

Definition kiroToAnthropic (req : json) : result ChatRequest :=
  let cs0 := get_opt (Some req) "conversationState" in
  let cs := if truthy_opt cs0 then cs0 else Some (JObj []) in
  cm ← get cs "currentMessage";
  h ← get cs "history";
  items ← (match h with
           | Some hv => if truthy hv then iterate hv else Ok []
           | None => Ok []
           end);
  msgs ← history_loop items [];
  let cur := get_opt (get_opt cm "userInputMessage") "content" in
  let msgs :=
    match cur with
    | Some c => if truthy c then msgs ++ [Message user (TextBlock c)] else msgs
    | None => msgs
    end in
  Ok {| req_model := mapModelId (get_opt (get_opt cm "userInputMessage") "modelId");
        messages := msgs;
        max_tokens := 8192;
        stream := true |}.

End Translator.

(** ** Model listing *)
Module Models.

Import Json.

Definition FALLBACK_MODELS : list json :=
  [JStr "claude-sonnet-4-5-thinking"; JStr "claude-sonnet-4-5";
   JStr "gemini-3-pro-high"; JStr "gemini-3-flash"].

(** How the request to [/account-limits] of the proxy went: [http.get]
    threw, the request emitted [error], or the response ended after the
    text [data]. *)
Inductive fetch : Type :=
| GetThrows
| ErrorEvent
| Ended (data : string).

(** The value the promise resolves to ([null] is [JNull]). *)
Definition resolved (f : fetch) : result json :=
  match f with
  | GetThrows => Throw "Error: get failed"
  | ErrorEvent => Ok JNull
  | Ended data =>
      match parse data with
      | Some v => Ok v
      | None => Ok JNull
      end
  end.

Definition is_string (v x : json) : bool :=
  match v, x with
  | JStr a, JStr b => String.eqb a b
  | _, _ => false
  end.

(** [m.includes("image")]: a substring test on a string, a membership
    test on an array, a [TypeError] on anything else. *)
Definition includes_image (m : json) : result bool :=
  match m with
  | JStr s => Ok (Text.includes s "image")
  | JArr items => Ok (existsb (is_string (JStr "image")) items)
  | _ => Throw "TypeError: m.includes is not a function"
  end.

(** [m.startsWith("gemini-2.5")] *)
Definition starts_with_deprecated (m : json) : result bool :=
  match m with
  | JStr s => Ok (Text.startsWith s "gemini-2.5")
  | _ => Throw "TypeError: m.startsWith is not a function"
  end.

(** [!m.includes("image") && !m.startsWith("gemini-2.5")] *)
Definition keep (m : json) : result bool :=
  inc ← includes_image m;
  if (inc : bool) then Ok false
  else sw ← starts_with_deprecated m; Ok (negb sw).

(** [models.filter(m => ...)] *)
Fixpoint filter_models (l : list json) : result (list json) :=
  match l with
  | [] => Ok []
  | m :: rest =>
      k ← keep m;
      r ← filter_models rest;
      Ok (if (k : bool) then m :: r else r)
  end.

Definition getFilteredModels (f : fetch) : list json :=
  match resolved f with
  | Throw _ => FALLBACK_MODELS
  | Ok res =>
      if negb (truthy res) || negb (truthy_opt (prop res "models"))
      then FALLBACK_MODELS
      else match prop res "models" with
           | Some (JArr l) =>
               match filter_models l with
               | Ok r => r
               | Throw _ => FALLBACK_MODELS
               end
           | _ => FALLBACK_MODELS
           end
  end.

Definition descriptor (id : json) : json :=
  JObj [("modelId", id); ("modelName", id); ("description", id);
        ("rateMultiplier", num 0); ("rateUnit", JStr "credit");
        ("supportedInputTypes", JArr [JStr "TEXT"]);
        ("tokenLimits", JObj [("maxInputTokens", num 200000);
                              ("maxOutputTokens", num 8192)])].

Definition buildModelResponse (modelIds : list json) : json :=
  let models := List.map descriptor modelIds in
  let first := get_opt (head models) "modelId" in
  JObj [("defaultModel",
         JObj [("modelId",
                match first with
                | Some v => if truthy v then v
                            else JStr "claude-sonnet-4-5-thinking"
                | None => JStr "claude-sonnet-4-5-thinking"
                end)]);
        ("models", JArr models);
        ("nextToken", JNull)].

End Models.

(** ** Bridge server *)
Module Server.

Import Json Codec.

(** What a request handler does, in order: the calls on the response
    object, the body it forwards to the proxy, and an exception that
    nothing catches. *)
Inductive action : Type :=
| SetHeader (name value : string)
| WriteHead (status : Z) (contentType : option string)
| Forward (request : Translator.ChatRequest)
| Write (chunk : Buffer)
| End (body : string)
| Uncaught (e : string).

(** State of the callback on the proxy response: the text of the line in
    progress and the count of text chunks. *)
Record stream_state : Type := { buf : string; tc : nat }.

(** [lines.pop() || ""] with the lines before it. *)
Definition pop (lines : list string) : list string * string :=
  (List.removelast lines, List.last lines EmptyString).

(** The body of the loop over the lines of a chunk: the count of text
    chunks afterwards and the frames written. *)
Definition on_line (n : nat) (ln : string) : nat * list Buffer :=
  if Text.startsWith ln "data: " then
    let d := Text.slice 6 ln in
    if String.eqb d "[DONE]" then (n, [])
    else
      match parse d with
      | None => (n, [])
      | Some JNull => (n, [])
      | Some ev =>
          match prop ev "type" with
          | Some (JStr t) =>
              if String.eqb t "content_block_delta" then
                match get_opt (prop ev "delta") "text" with
                | Some text =>
                    if truthy text then
                      match createAssistantResponseEvent text with
                      | Ok frame => (S n, [frame])
                      | Throw _ => (S n, [])
                      end
                    else (n, [])
                | None => (n, [])
                end
              else (n, [])
          | _ => (n, [])
          end
      end
  else (n, []).

Fixpoint on_lines (n : nat) (lines : list string) : nat * list Buffer :=
  match lines with
  | [] => (n, [])
  | ln :: rest =>
      let '(n1, f1) := on_line n ln in
      let '(n2, f2) := on_lines n1 rest in
      (n2, f1 ++ f2)
  end.

(** [proxyRes.on("data", ...)] *)
Definition on_data (st : stream_state) (c : string) :
  stream_state * list Buffer :=
  let b := buf st +:+ c in
  let '(lines, rest) := pop (Text.split_lines b) in
  let '(n, frames) := on_lines (tc st) lines in
  ({| buf := rest; tc := n |}, frames).

Fixpoint on_chunks (st : stream_state) (chunks : list string) :
  stream_state * list Buffer :=
  match chunks with
  | [] => (st, [])
  | c :: rest =>
      let '(st1, f1) := on_data st c in
      let '(st2, f2) := on_chunks st1 rest in
      (st2, f1 ++ f2)
  end.

(** [res.write(frame)] for a frame whose construction may throw, in a
    callback with no handler around it. *)
Definition write_frame (r : result Buffer) (k : list action) : list action :=
  match r with
  | Ok frame => Write frame :: k
  | Throw e => [Uncaught e]
  end.

(** [proxyRes.on("end", ...)] *)
Definition on_end : list action :=
  write_frame (createMeteringEvent (JNum (Number false 1 (-3))))
    (write_frame (createContextUsageEvent (JNum (Number false 5 (-1))))
       [End EmptyString]).

(** How the forwarded request went: the chunks of the response of the
    proxy, and whether it then ended or the request emitted [error]. *)
Inductive ending : Type := Finished | Failed.

Record proxy_run : Type := { chunks : list string; final : ending }.

Definition eventstream : string := "application/vnd.amazon.eventstream".

(** The handler of [POST /generateAssistantResponse], once the body has
    arrived. *)
Definition generateAssistantResponse (body : string) (run : proxy_run) :
  list action :=
  match parse body with
  | None => [WriteHead 500 None; End EmptyString]
  | Some req =>
      match Translator.kiroToAnthropic req with
      | Throw _ => [WriteHead 500 None; End EmptyString]
      | Ok anthropicReq =>
          WriteHead 200 (Some eventstream) ::
          Forward anthropicReq ::
          List.map Write (snd (on_chunks {| buf := EmptyString; tc := O |}
                                         (chunks run))) ++
          match final run with
          | Finished => on_end
          | Failed => [End EmptyString]
          end
      end
  end.

Definition json_type : option string := Some "application/json".

(** The request listener, for a request with the given method, path
    name and body; [models] is how the fetch of the model list goes and
    [run] how the forwarded request goes, should the handler make them. *)
Definition server (method pathname body : string)
    (models : Models.fetch) (run : proxy_run) : list action :=
  SetHeader "Access-Control-Allow-Origin" "*" ::
  if String.eqb method "OPTIONS" then [WriteHead 200 None; End EmptyString]
  else if String.eqb pathname "/health" then
    [WriteHead 200 json_type; End (stringify (JObj [("status", JStr "ok")]))]
  else if String.eqb pathname "/ListAvailableModels" then
    let modelIds := Models.getFilteredModels models in
    [WriteHead 200 json_type;
     End (stringify (Models.buildModelResponse modelIds))]
  else if String.eqb pathname "/getUsageLimits" then
    [WriteHead 200 json_type;
     End (stringify (JObj [("chatCreditsUsed", num 0);
                           ("chatCreditsTotal", num 999999)]))]
  else if String.eqb pathname "/generateAssistantResponse" &&
          String.eqb method "POST" then
    generateAssistantResponse body run
  else [WriteHead 404 None; End EmptyString].

(** *** Reading a frame back

    The event type and the payload of a frame, read off its header block
    and its length fields; used to state what a written frame carries. *)
Definition read_header (bs : Buffer) : option (string * string * Buffer) :=
  match bs with
  | [] => None
  | n :: r =>
      let nl := Z.to_nat (Crc.byte_val n) in
      let name := string_of_list_byte (firstn nl r) in
      match skipn nl r with
      | _ :: l1 :: l2 :: r' =>
          let vl := Z.to_nat (readUIntBE [l1; l2]) in
          Some (name, string_of_list_byte (firstn vl r'), skipn vl r')
      | _ => None
      end
  end.

Record frame : Type := { event_type : string; payload : string }.

Definition read_frame (bs : Buffer) : option frame :=
  let total := Z.to_nat (readUIntBE (firstn 4 bs)) in
  let hlen := Z.to_nat (readUIntBE (firstn 4 (skipn 4 bs))) in
  if negb (length bs =? total)%nat then None
  else
    match read_header (firstn hlen (skipn 12 bs)) with
    | Some (name, value, _) =>
        if String.eqb name ":event-type" then
          Some {| event_type := value;
                  payload := string_of_list_byte
                               (firstn (total - 16 - hlen)
                                       (skipn (12 + hlen) bs)) |}
        else None
    | None => None
    end.

End Server.

(** ** Regular expressions of the patcher *)
Module Pattern.

Definition is_class (c : ascii) : bool :=
  let n := N_of_ascii c in
  ((97 <=? n) && (n <=? 122) || (48 <=? n) && (n <=? 57) || (n =? 45))%N.

Definition HOST_PREFIX : string := "https://q.".
Definition HOST_SUFFIX : string := ".amazonaws.com".

(** [[a-z0-9-]*\.amazonaws\.com] at the start of [s]; the class has no
    dot, so the longest run of class characters is the only candidate. *)
Fixpoint region_tail (s : string) : option string :=
  match s with
  | String c s' =>
      if is_class c then region_tail s' else Text.strip_prefix HOST_SUFFIX s
  | EmptyString => None
  end.

(** [/https:\/\/q\.[a-z0-9-]+\.amazonaws\.com/] at the start of [s]: the
    text after the match. *)
Definition match_host (s : string) : option string :=
  match Text.strip_prefix HOST_PREFIX s with
  | Some (String c s') => if is_class c then region_tail s' else None
  | _ => None
  end.

Definition is_space1 (a : ascii) : bool :=
  let n := N_of_ascii a in
  ((n =? 9) || (n =? 10) || (n =? 11) || (n =? 12) || (n =? 13) || (n =? 32))%N.

(** U+00A0 *)
Definition is_space2 (a b : ascii) : bool :=
  ((N_of_ascii a =? 0xC2) && (N_of_ascii b =? 0xA0))%N.

(** U+1680, U+2000 to U+200A, U+2028, U+2029, U+202F, U+205F, U+3000,
    U+FEFF *)
Definition is_space3 (a b c : ascii) : bool :=
  let x := N_of_ascii a in
  let y := N_of_ascii b in
  let z := N_of_ascii c in
  ((x =? 0xE1) && (y =? 0x9A) && (z =? 0x80) ||
   (x =? 0xE2) && (y =? 0x80) &&
     ((0x80 <=? z) && (z <=? 0x8A) || (z =? 0xA8) || (z =? 0xA9) || (z =? 0xAF)) ||
   (x =? 0xE2) && (y =? 0x81) && (z =? 0x9F) ||
   (x =? 0xE3) && (y =? 0x80) && (z =? 0x80) ||
   (x =? 0xEF) && (y =? 0xBB) && (z =? 0xBF))%N.

(** [\s*] at the start of [s]: the text after the white space. *)
Fixpoint skip_space (s : string) : string :=
  match s with
  | String a r1 =>
      if is_space1 a then skip_space r1
      else
        match r1 with
        | String b r2 =>
            if is_space2 a b then skip_space r2
            else
              match r2 with
              | String c r3 => if is_space3 a b c then skip_space r3 else s
              | EmptyString => s
              end
        | EmptyString => s
        end
  | EmptyString => s
  end.

(** [/endpoint:\s*"https:\/\/q\.[a-z0-9-]+\.amazonaws\.com"/] at the start
    of [s]. *)
Definition match_endpoint (s : string) : option string :=
  match Text.strip_prefix "endpoint:" s with
  | Some r =>
      match skip_space r with
      | String q r1 =>
          if Ascii.eqb q Json.dquote then
            match match_host r1 with
            | Some (String q' r2) =>
                if Ascii.eqb q' Json.dquote then Some r2 else None
            | _ => None
            end
          else None
      | EmptyString => None
      end
  | None => None
  end.

(** [re.test(s)] for a pattern given by its matcher at a position. *)
Fixpoint test (m : string -> option string) (s : string) : bool :=
  match m s with
  | Some _ => true
  | None =>
      match s with
      | String _ s' => test m s'
      | EmptyString => false
      end
  end.

(** [s.replace(re, by)] for a global pattern: matches are taken from left
    to right and the search resumes after each of them.  [fuel] bounds the
    number of steps; the length of [s] is enough. *)
Fixpoint replace_fuel (fuel : nat) (m : string -> option string)
    (by_ : string) (s : string) : string :=
  match fuel with
  | O => s
  | S fuel' =>
      match m s with
      | Some rest => by_ +:+ replace_fuel fuel' m by_ rest
      | None =>
          match s with
          | String c s' => String c (replace_fuel fuel' m by_ s')
          | EmptyString => EmptyString
          end
      end
  end.

Definition replace (m : string -> option string) (by_ s : string) : string :=
  replace_fuel (String.length s) m by_ s.

End Pattern.

(** ** Extension patcher *)
Module Patcher.

Definition KIRO_PORT : string := "9980".

(** *** The file system

    A path holds a text file or a directory.  Reading a directory as text,
    writing over one and copying one are errors; a failed operation leaves
    the file system as it was. *)
Inductive node : Type :=
| File (content : string)
| Dir.

Abbreviation FS := (gmap string node).

(** An asynchronous operation on the file system. *)
Definition IO (A : Type) : Type := FS -> FS * result A.

Definition ret {A} (a : A) : IO A := fun fs => (fs, Ok a).

Definition bind {A B} (m : IO A) (k : A -> IO B) : IO B :=
  fun fs =>
    match m fs with
    | (fs', Ok a) => k a fs'
    | (fs', Throw e) => (fs', Throw e)
    end.

(** [try { m } catch (e) { h e }] *)
Definition catch {A} (m : IO A) (h : string -> IO A) : IO A :=
  fun fs =>
    match m fs with
    | (fs', Throw e) => h e fs'
    | r => r
    end.

Notation "x <~ m ;; k" := (bind m (fun x => k))
  (at level 100, m at next level, right associativity).

(** [exists(path)] *)
Definition exists_ (path : string) : IO bool :=
  fun fs => (fs, Ok (bool_decide (is_Some (fs !! path)))).

(** [readTextFile(path)] *)
Definition readTextFile (path : string) : IO string :=
  fun fs =>
    match fs !! path with
    | Some (File c) => (fs, Ok c)
    | Some Dir => (fs, Throw "Error: is a directory")
    | None => (fs, Throw "Error: no such file")
    end.

(** [writeTextFile(path, content)] *)
Definition writeTextFile (path content : string) : IO unit :=
  fun fs =>
    match fs !! path with
    | Some Dir => (fs, Throw "Error: is a directory")
    | _ => (<[path := File content]> fs, Ok tt)
    end.

(** [copyFile(from, to)] *)
Definition copyFile (from to : string) : IO unit :=
  fun fs =>
    match fs !! from with
    | Some (File c) =>
        match fs !! to with
        | Some Dir => (fs, Throw "Error: is a directory")
        | _ => (<[to := File c]> fs, Ok tt)
        end
    | Some Dir => (fs, Throw "Error: is a directory")
    | None => (fs, Throw "Error: no such file")
    end.

(** *** Locating the extension *)

(** What the patcher reads from its surroundings: [navigator.platform]
    and the home directory. *)
Record Env : Type := { platform : string; home : string }.

(** [join(...parts)], with [/] for the separator of the platform. *)
Fixpoint join (parts : list string) : string :=
  match parts with
  | [] => EmptyString
  | [p] => p
  | p :: rest => p +:+ "/" +:+ join rest
  end.

Definition isWindows (env : Env) : bool :=
  Text.includes (Text.toLowerCase (platform env)) "win".

Definition isMac (env : Env) : bool :=
  Text.includes (Text.toLowerCase (platform env)) "mac".

Definition possiblePaths (env : Env) : list string :=
  if isWindows env then
    [join [home env; "AppData"; "Local"; "Programs"; "Kiro"]]
  else if isMac env then
    ["/Applications/Kiro.app"; join [home env; "Applications"; "Kiro.app"]]
  else
    [join [home env; ".local"; "share"; "Kiro"]; "/opt/Kiro";
     join [home env; "snap"; "kiro"; "current"]].

Fixpoint first_existing (paths : list string) : IO (option string) :=
  match paths with
  | [] => ret None
  | p :: rest =>
      e <~ exists_ p ;;
      if (e : bool) then ret (Some p) else first_existing rest
  end.

Definition getKiroPath (env : Env) : IO (option string) :=
  catch (first_existing (possiblePaths env)) (fun _ => ret None).

Definition getExtensionPath (env : Env) : IO (option string) :=
  kiroPath <~ getKiroPath env ;;
  match kiroPath with
  | None => ret None
  | Some kiroPath =>
      if isWindows env then
        ret (Some (join [kiroPath; "resources"; "app"; "extensions";
                         "kiro.kiro-agent"; "dist"; "extension.js"]))
      else if isMac env then
        ret (Some (join [kiroPath; "Contents"; "Resources"; "app"; "extensions";
                         "kiro.kiro-agent"; "dist"; "extension.js"]))
      else
        ret (Some (join [kiroPath; "resources"; "app"; "extensions";
                         "kiro.kiro-agent"; "dist"; "extension.js"]))
  end.

Definition getValidExtensionPath (env : Env) : IO (option string) :=
  path <~ getExtensionPath env ;;
  match path with
  | None => ret None
  | Some path =>
      e <~ exists_ path ;;
      ret (if (e : bool) then Some path else None)
  end.

Definition isKiroInstalled (env : Env) : IO bool :=
  p <~ getKiroPath env ;;
  ret (match p with Some _ => true | None => false end).

(** *** Patch state, patch and restore *)

Definition LOCAL_ENDPOINT : string := "localhost:" +:+ KIRO_PORT.
Definition UPSTREAM_ENDPOINT : string := "https://q.us-east-1.amazonaws.com".

Definition isKiroPatched (env : Env) : IO bool :=
  catch
    (extensionPath <~ getValidExtensionPath env ;;
     match extensionPath with
     | None => ret false
     | Some extensionPath =>
         content <~ readTextFile extensionPath ;;
         ret (Text.includes content LOCAL_ENDPOINT &&
              negb (Text.includes content UPSTREAM_ENDPOINT))
     end)
    (fun _ => ret false).

Record PatchResult : Type := { success : bool; error : option string }.

Definition succeeded : PatchResult := {| success := true; error := None |}.
Definition failed (e : string) : PatchResult :=
  {| success := false; error := Some e |}.

(** The two patterns with their replacements. *)
Definition ENDPOINT_REPLACEMENT : string :=
  "endpoint: " +:+ String Json.dquote ("http://localhost:" +:+ KIRO_PORT +:+
                                       String Json.dquote EmptyString).
Definition HOST_REPLACEMENT : string := "http://localhost:" +:+ KIRO_PORT.

Definition patterns : list ((string -> option string) * string) :=
  [(Pattern.match_endpoint, ENDPOINT_REPLACEMENT);
   (Pattern.match_host, HOST_REPLACEMENT)].

(** The loop over the patterns: the content and the flag afterwards. *)
Fixpoint apply_patterns (ps : list ((string -> option string) * string))
    (content : string) (patched : bool) : string * bool :=
  match ps with
  | [] => (content, patched)
  | (find, by_) :: rest =>
      if Pattern.test find content then
        apply_patterns rest (Pattern.replace find by_ content) true
      else apply_patterns rest content patched
  end.

Definition patchKiro (env : Env) : IO PatchResult :=
  catch
    (extensionPath <~ getValidExtensionPath env ;;
     match extensionPath with
     | None => ret (failed "Kiro extension not found")
     | Some extensionPath =>
         let backupPath := extensionPath +:+ ".backup" in
         hasBackup <~ exists_ backupPath ;;
         _ <~ (if (hasBackup : bool) then ret tt
               else copyFile extensionPath backupPath) ;;
         content <~ readTextFile extensionPath ;;
         let '(content, patched) := apply_patterns patterns content false in
         if (patched : bool) then
           _ <~ writeTextFile extensionPath content ;;
           ret succeeded
         else
           already <~ isKiroPatched env ;;
           if (already : bool) then ret succeeded
           else ret (failed "No patchable patterns found")
     end)
    (fun e => ret (failed e)).

Definition restoreKiro (env : Env) : IO PatchResult :=
  catch
    (extensionPath <~ getExtensionPath env ;;
     match extensionPath with
     | None => ret (failed "Kiro extension not found")
     | Some extensionPath =>
         let backupPath := extensionPath +:+ ".backup" in
         hasBackup <~ exists_ backupPath ;;
         if (hasBackup : bool) then
           backupContent <~ readTextFile backupPath ;;
           _ <~ writeTextFile extensionPath backupContent ;;
           ret succeeded
         else ret (failed "No backup found")
     end)
    (fun e => ret (failed e)).

End Patcher.

(** ** Starting and stopping the bridge server *)
Module Lifecycle.

(** A spawned process, by its number. *)
Definition Child : Type := nat.

(** What the surroundings answer: whether the [k]-th health check finds
    the server ([response.ok]; a fetch that throws counts as not found),
    whether killing a process throws, and what [command.spawn()] gives
    when it is called after [k] health checks (the process, or the text
    of the error it rejects with). *)
Record World : Type := {
  health : nat -> bool;
  kill_throws : Child -> bool;
  spawn : nat -> result Child
}.

Inductive effect : Type :=
| Checked (ok : bool)
| Killed (c : Child)
| KillFailed (c : Child)
| Spawned (c : Child)
| Slept (ms : Z).

(** The module-level handle [kiroProcess], the number of health checks
    made so far, and the effects so far, latest first. *)
Record State : Type := {
  kiroProcess : option Child;
  checks : nat;
  log : list effect
}.

Record StartResult : Type := { started : bool; start_error : option string }.

(** [getKiroServerStatus()] *)
Definition getKiroServerStatus (w : World) (st : State) : bool * State :=
  let ok := health w (checks st) in
  (ok, {| kiroProcess := kiroProcess st;
          checks := S (checks st);
          log := Checked ok :: log st |}).

(** [try { await kiroProcess.kill(); } catch (e) { logError(...) }
    kiroProcess = null;] when there is a handle. *)
Definition kill_handle (w : World) (st : State) : State :=
  match kiroProcess st with
  | Some c =>
      {| kiroProcess := None;
         checks := checks st;
         log := (if kill_throws w c then KillFailed c else Killed c) :: log st |}
  | None => st
  end.

(** The polling loop of [startKiroServer], with [n] rounds to go. *)
Fixpoint poll (w : World) (n : nat) (st : State) : StartResult * State :=
  match n with
  | O => ({| started := false;
             start_error := Some "Server failed to start after 2.5s" |}, st)
  | S n' =>
      let st1 := {| kiroProcess := kiroProcess st;
                    checks := checks st;
                    log := Slept 500 :: log st |} in
      let '(ok, st2) := getKiroServerStatus w st1 in
      if ok then ({| started := true; start_error := None |}, st2)
      else poll w n' st2
  end.

Definition startKiroServer (w : World) (st : State) : StartResult * State :=
  let '(running, st1) := getKiroServerStatus w st in
  if running then ({| started := true; start_error := None |}, st1)
  else
    let st2 := kill_handle w st1 in
    match spawn w (checks st2) with
    | Throw e => ({| started := false; start_error := Some e |}, st2)
    | Ok c =>
        poll w 5 {| kiroProcess := Some c;
                    checks := checks st2;
                    log := Spawned c :: log st2 |}
    end.

Definition stopKiroServer (w : World) (st : State) : State := kill_handle w st.

End Lifecycle.

(** ** Package versions *)
Module Package.

(** A number as [Number(str)] gives it: not a number, an infinity, or a
    finite value, kept exactly as [mant * 10 ^ exp].  The source holds
    finite values as binary64 floats, which is the same thing for
    integers below [2 ^ 53]; the sign of zero is not kept. *)
Inductive numeric : Type :=
| NaN
| Inf (negative : bool)
| Fin (mant : Z) (exp : Z).

(** [a < b] on numbers. *)
Definition lt (a b : numeric) : bool :=
  match a, b with
  | NaN, _ | _, NaN => false
  | Inf true, Inf true => false
  | Inf true, _ => true
  | _, Inf true => false
  | Inf false, _ => false
  | _, Inf false => true
  | Fin m1 e1, Fin m2 e2 =>
      let low := Z.min e1 e2 in
      m1 * 10 ^ (e1 - low) <? m2 * 10 ^ (e2 - low)
  end.

(** [a > b] *)
Definition gt (a b : numeric) : bool := lt b a.

(** [x || 0], where [x] may be [undefined]. *)
Definition or_zero (x : option numeric) : numeric :=
  match x with
  | Some (Fin m e) => if m =? 0 then Fin 0 0 else Fin m e
  | Some (Inf n) => Inf n
  | Some NaN | None => Fin 0 0
  end.

(** [s.split('.')]: the pieces between dots, never an empty list. *)
Fixpoint split_dot (s : string) : list string :=
  match s with
  | EmptyString => [EmptyString]
  | String c s' =>
      if Ascii.eqb c "." then EmptyString :: split_dot s'
      else match split_dot s' with
           | h :: t => String c h :: t
           | [] => [String c EmptyString]
           end
  end.

(** Only white space and line terminators are left. *)
Definition all_space (s : string) : bool :=
  String.eqb (Pattern.skip_space s) "".

(** The value of a digit in a radix, where it is one. *)
Definition digit_of (radix : N) (c : ascii) : option N :=
  let n := N_of_ascii c in
  let d := if ((48 <=? n) && (n <=? 57))%N then Some (n - 48)%N
           else if ((97 <=? n) && (n <=? 102))%N then Some (n - 87)%N
           else if ((65 <=? n) && (n <=? 70))%N then Some (n - 55)%N
           else None in
  match d with
  | Some v => if (v <? radix)%N then Some v else None
  | None => None
  end.

(** The longest run of digits of the radix at the start of [s], with its
    value [acc] so far, and the text after it. *)
Fixpoint radix_digits (radix : N) (acc : N) (s : string) : N * string :=
  match s with
  | String c s' =>
      match digit_of radix c with
      | Some v => radix_digits radix (acc * radix + v)%N s'
      | None => (acc, s)
      end
  | EmptyString => (acc, s)
  end.

(** [0x], [0o] or [0b] in either case at the start of [s]: the radix and
    the text after the prefix. *)
Definition radix_prefix (s : string) : option (N * string) :=
  match s with
  | String z (String k r) =>
      if Ascii.eqb z "0" then
        if Ascii.eqb k "x" || Ascii.eqb k "X" then Some (16%N, r)
        else if Ascii.eqb k "o" || Ascii.eqb k "O" then Some (8%N, r)
        else if Ascii.eqb k "b" || Ascii.eqb k "B" then Some (2%N, r)
        else None
      else None
  | _ => None
  end.

(** An optional sign: whether it is a minus, and the text after it. *)
Definition sign (s : string) : bool * string :=
  match s with
  | String c r =>
      if Ascii.eqb c "-" then (true, r)
      else if Ascii.eqb c "+" then (false, r)
      else (false, s)
  | EmptyString => (false, s)
  end.

(** An optional [.] with the digits after it. *)
Definition fraction (s : string) : string * string :=
  match s with
  | String c r =>
      if Ascii.eqb c "." then Json.take_digits r else (EmptyString, s)
  | EmptyString => (EmptyString, s)
  end.

(** An optional exponent part; [None] when an [e] is not followed by a
    signed integer. *)
Definition exponent_part (s : string) : option (Z * string) :=
  match s with
  | String c r =>
      if Ascii.eqb c "e" || Ascii.eqb c "E" then
        let '(neg, r1) := sign r in
        let '(ds, r2) := Json.take_digits r1 in
        if String.eqb ds "" then None
        else Some ((if neg then -1 else 1) * Z.of_N (Json.digits_value ds), r2)
      else Some (0, s)
  | EmptyString => Some (0, s)
  end.

(** [Number(s)] for a string: white space around the literal is dropped;
    nothing or only white space is [0]; a literal is a binary, octal or
    hexadecimal integer without sign, or an optional sign followed by
    [Infinity] or by decimal digits with an optional fraction and an
    optional exponent; anything else is not a number. *)
Definition Number (s : string) : numeric :=
  let t := Pattern.skip_space s in
  if String.eqb t "" then Fin 0 0
  else
    match radix_prefix t with
    | Some (radix, r) =>
        let '(v, r') := radix_digits radix 0 r in
        if (Nat.eqb (String.length r') (String.length r)) then NaN
        else if all_space r' then Fin (Z.of_N v) 0 else NaN
    | None =>
        let '(neg, t1) := sign t in
        match Text.strip_prefix "Infinity" t1 with
        | Some r => if all_space r then Inf neg else NaN
        | None =>
            let '(ip, t2) := Json.take_digits t1 in
            let '(fp, t3) := fraction t2 in
            if String.eqb ip "" && String.eqb fp "" then NaN
            else
              match exponent_part t3 with
              | None => NaN
              | Some (e, t4) =>
                  if all_space t4 then
                    Fin ((if neg then -1 else 1) *
                         Z.of_N (Json.digits_value (ip +:+ fp)))
                        (e - Z.of_nat (String.length fp))
                  else NaN
              end
        end
    end.

(** The loop of [compareVersions] from index [i], with [n] rounds to go. *)
Fixpoint compare_from (n i : nat) (partsA partsB : list numeric) : Z :=
  match n with
  | O => 0
  | S n' =>
      let a := or_zero (nth_error partsA i) in
      let b := or_zero (nth_error partsB i) in
      if gt a b then 1
      else if lt a b then -1
      else compare_from n' (S i) partsA partsB
  end.

Definition compareVersions (a b : string) : Z :=
  let partsA := map Number (split_dot a) in
  let partsB := map Number (split_dot b) in
  compare_from 3 0 partsA partsB.

End Package.

(** * Definitions used to state the properties *)

(** The layout of an encoded header. *)
Definition header_bytes (name value : string)   : Codec.Buffer :=
  Codec.be_bytes 1 (Z.of_nat (String.length name)) ++ Codec.Buffer_from name ++
  Codec.be_bytes 1 7 ++ Codec.be_bytes 2 (Z.of_nat (String.length value)) ++
  Codec.Buffer_from value.

(** The layout of an encoded message with header block [hb] and payload
    [pb]. *)
Definition message_body (hb pb   : Codec.Buffer)   : Codec.Buffer :=
  let total := (12 + length hb + length pb + 4)%nat in
  let prelude := Codec.be_bytes 4 (Z.of_nat total) ++ Codec.be_bytes 4 (Z.of_nat (length hb)) in
  prelude ++ Codec.be_bytes 4 (Crc.crc32 prelude) ++ hb ++ pb.

Definition message_bytes (hb pb   : Codec.Buffer)   : Codec.Buffer :=
  message_body hb pb ++ Codec.be_bytes 4 (Crc.crc32 (message_body hb pb)).

Definition sample_frame : Codec.Buffer :=
  Eval vm_compute in Codec.returned (Codec.createAssistantResponseEvent (Json.JStr "Hi")).

(** ** Request translation *)

(** A host request as the specification describes it: prior turns, each
    of a user or of the assistant, and the current turn. *)
Inductive turn : Type :=
| UserTurn (text : string)
| AssistantTurn (text : string).

Definition turn_json (t : turn) : Json.json :=
  match t with
  | UserTurn c =>
      Json.JObj [("userInputMessage", Json.JObj [("content", Json.JStr c)])]
  | AssistantTurn c =>
      Json.JObj [("assistantResponseMessage", Json.JObj [("content", Json.JStr c)])]
  end.

Definition host_request (history : list turn) (current modelId : string) :
  Json.json :=
  Json.JObj
    [("conversationState",
      Json.JObj
        [("history", Json.JArr (List.map turn_json history));
         ("currentMessage",
          Json.JObj [("userInputMessage",
                      Json.JObj [("content", Json.JStr current);
                                 ("modelId", Json.JStr modelId)])])])].

(** The messages the history implies, in the words of the specification:
    a user message for each user entry, an assistant message for each
    assistant entry with non-empty content. *)
Definition implied_message (t : turn) : list Translator.message :=
  match t with
  | UserTurn c =>
      [Translator.Message Translator.user (Translator.Raw (Some (Json.JStr c)))]
  | AssistantTurn c =>
      if String.eqb c "" then []
      else [Translator.Message Translator.assistant
              (Translator.TextBlock (Json.JStr c))]
  end.

Definition implied_messages (history : list turn) : list Translator.message :=
  List.concat (List.map implied_message history).

Definition is_object (v : Json.json) : bool :=
  match v with Json.JObj _ => true | _ => false end.

(** ** Model listing *)

(** The fetch of the model list failed: [http.get] threw, the request
    emitted [error], or the response was no JSON text or had no [models]
    to offer. *)
Definition fetch_failed (f : Models.fetch) : Prop :=
  match f with
  | Models.GetThrows | Models.ErrorEvent => True
  | Models.Ended data =>
      match Json.parse data with
      | None => True
      | Some res => Json.truthy_opt (Json.prop res "models") = false
      end
  end.

(** ** Streaming translation *)

(** The text of a whole response, whatever the chunks it arrives in. *)
Definition concat_chunks (chunks : list string) : string :=
  fold_right String.append EmptyString chunks.

Definition sse_line (text : string) : string :=
  Json.sq "data: {'type':'content_block_delta','delta':{'text':'" +:+ text +:+
  Json.sq "'}}" +:+ String Text.newline (String Text.newline EmptyString).

Definition frame_hi : Codec.Buffer :=
  Eval vm_compute in Codec.returned (Codec.createAssistantResponseEvent (Json.JStr "Hi")).

Definition frame_there : Codec.Buffer :=
  Eval vm_compute in Codec.returned (Codec.createAssistantResponseEvent (Json.JStr " there")).

Definition frame_metering : Codec.Buffer :=
  Eval vm_compute in Codec.returned (Codec.createMeteringEvent (Json.JNum (Json.Number false 1 (-3)))).

Definition frame_context : Codec.Buffer :=
  Eval vm_compute in Codec.returned (Codec.createContextUsageEvent (Json.JNum (Json.Number false 5 (-1)))).

Definition sample_body : string :=
  Json.sq "{'conversationState':{'currentMessage':{'userInputMessage':{'content':'hello','modelId':'simple-task'}}}}".

Definition sample_request : Translator.ChatRequest :=
  {| Translator.req_model := Translator.Model (Json.JStr "gemini-3-flash");
     Translator.messages :=
       [Translator.Message Translator.user
          (Translator.TextBlock (Json.JStr "hello"))];
     Translator.max_tokens := 8192;
     Translator.stream := true |}.

(** The two lines cut into three chunks at arbitrary places. *)
Definition sample_chunks : list string :=
  [Json.sq "data: {'type':'content_bl";
   Json.sq "ock_delta','delta':{'text':'Hi'}}" +:+
   String Text.newline (String Text.newline EmptyString) +:+
   Json.sq "data: {'type':'content_block_delta','del";
   Json.sq "ta':{'text':' there'}}" +:+
   String Text.newline (String Text.newline EmptyString)].

(** ** The patterns of the patcher *)

(** A matcher consumes text: what follows a match is shorter than what
    the match started on. *)
Definition consumes (m : string -> option string) : Prop :=
  forall s r, m s = Some r -> (String.length r < String.length s)%nat.

(** No letter h in the text. *)
Fixpoint no_h (p : string) : bool :=
  match p with
  | EmptyString => true
  | String c p' => negb (Ascii.eqb c "h") && no_h p'
  end.

(** ** The extension patcher *)

(** The last two characters of a text. *)
Fixpoint last2 (s : string) : string :=
  match s with
  | String _ (String a (String b r) as s') => last2 s'
  | _ => s
  end.

(** Whether a path exists, as [exists] reports it. *)
Definition has (fs : gmap string Patcher.node) (p : string) : bool :=
  bool_decide (is_Some (fs !! p)).

(** The first of the given paths that exists. *)
Fixpoint first_of (fs : gmap string Patcher.node) (paths : list string) :
  option string :=
  match paths with
  | [] => None
  | p :: rest => if has fs p then Some p else first_of fs rest
  end.

(** The path of the extension under the installation directory. *)
Definition extension_of (env : Patcher.Env) (kiroPath : string) : string :=
  if Patcher.isWindows env then
    Patcher.join [kiroPath; "resources"; "app"; "extensions";
                  "kiro.kiro-agent"; "dist"; "extension.js"]
  else if Patcher.isMac env then
    Patcher.join [kiroPath; "Contents"; "Resources"; "app"; "extensions";
                  "kiro.kiro-agent"; "dist"; "extension.js"]
  else
    Patcher.join [kiroPath; "resources"; "app"; "extensions";
                  "kiro.kiro-agent"; "dist"; "extension.js"].

(** The located extension path, and the one that also exists. *)
Definition located (env : Patcher.Env) (fs : gmap string Patcher.node) :
  option string :=
  option_map (extension_of env) (first_of fs (Patcher.possiblePaths env)).

Definition located_file (env : Patcher.Env) (fs : gmap string Patcher.node) :
  option string :=
  match located env fs with
  | Some p => if has fs p then Some p else None
  | None => None
  end.

(** The content after the loop over the patterns, and whether a pattern
    was found. *)
Definition patched_content (c : string) : string :=
  fst (Patcher.apply_patterns Patcher.patterns c false).

Definition patchable (c : string) : bool :=
  snd (Patcher.apply_patterns Patcher.patterns c false).

Definition reads_patched (c : string) : bool :=
  Text.includes c Patcher.LOCAL_ENDPOINT &&
  negb (Text.includes c Patcher.UPSTREAM_ENDPOINT).

(** The file system after the backup step of [patchKiro]. *)
Definition with_backup (fs : gmap string Patcher.node) (p c : string) :
  gmap string Patcher.node :=
  if has fs (p +:+ ".backup") then fs else <[p +:+ ".backup" := Patcher.File c]> fs.

(** *** A sample installation *)

Definition linux : Patcher.Env :=
  {| Patcher.platform := "Linux x86_64"; Patcher.home := "/home/dev" |}.

Definition sample_extension : string :=
  "/opt/Kiro/resources/app/extensions/kiro.kiro-agent/dist/extension.js".

Definition sample_content : string :=
  Json.sq "var client={endpoint:  'https://q.us-east-1.amazonaws.com'};get('https://q.eu-west-1.amazonaws.com/x')".

Definition sample_fs : gmap string Patcher.node :=
  <[sample_extension := Patcher.File sample_content]>
    (<["/opt/Kiro"%string := Patcher.Dir]> ∅).

(** A file that points at the bridge in one place and at the upstream
    host of another region in a second place. *)
Definition half_patched : string :=
  Json.sq "var client={endpoint: 'http://localhost:9980'};get('https://q.eu-west-1.amazonaws.com/x')".

Definition half_patched_fs : gmap string Patcher.node :=
  <[sample_extension := Patcher.File half_patched]>
    (<["/opt/Kiro"%string := Patcher.Dir]> ∅).

(** ** Further properties of the encoder *)

(** ** Further properties of the translator *)

Definition is_null (v : Json.json) : bool :=
  match v with Json.JNull => true | _ => false end.

(** The state the translation works on: [req?.conversationState || {}]. *)
Definition state_of (req : Json.json) : option Json.json :=
  let cs0 := Json.get_opt (Some req) "conversationState" in
  if Json.truthy_opt cs0 then cs0 else Some (Json.JObj []).

(** The requests the translation accepts: the history is absent or
    falsy, or a string, or an array without a [null] entry. *)
Definition translatable (req : Json.json) : bool :=
  match Json.get_opt (state_of req) "history" with
  | None => true
  | Some (Json.JArr items) => forallb (fun m => negb (is_null m)) items
  | Some (Json.JStr _) => true
  | Some h => negb (Json.truthy h)
  end.

(** ** Further properties of the server *)

(** The frames written for a response text: those of its complete
    lines. *)
Definition frames_of (text : string) : list Codec.Buffer :=
  snd (Server.on_lines 0 (List.removelast (Text.split_lines text))).


Definition cors : Server.action :=
  Server.SetHeader "Access-Control-Allow-Origin" "*".

(** ** Further properties of the model listing *)

(** The ids the listing keeps, in the words of the specification: those
    without [image] in them that do not start with [gemini-2.5]. *)
Definition keep_id (id : string) : bool :=
  negb (Text.includes id "image") && negb (Text.startsWith id "gemini-2.5").

(** A string, or an array: the values on which [includes] is defined. *)
Definition has_includes (m : Json.json) : bool :=
  match m with
  | Json.JStr _ | Json.JArr _ => true
  | _ => false
  end.

(** ** Further properties of the patcher *)

(** A file without any host to rewrite, which does not read as patched
    either. *)
Definition plain_content : string := "module.exports = {};".

Definition plain_fs : gmap string Patcher.node :=
  <[sample_extension := Patcher.File plain_content]>
    (<["/opt/Kiro"%string := Patcher.Dir]> ∅).

(** An installation whose extension file is gone while its backup is
    there. *)
Definition orphan_fs : gmap string Patcher.node :=
  <[sample_extension +:+ ".backup" := Patcher.File sample_content]>
    (<["/opt/Kiro"%string := Patcher.Dir]> ∅).

Import ListNotations.
Local Open Scope Z_scope.

(** Total time slept, in milliseconds, in a list of effects. *)
Fixpoint slept (l : list Lifecycle.effect) : Z :=
  match l with
  | [] => 0
  | Lifecycle.Slept ms :: l' => ms + slept l'
  | _ :: l' => slept l'
  end.

(** Number of processes spawned in a list of effects. *)
Fixpoint spawns (l : list Lifecycle.effect) : nat :=
  match l with
  | [] => O
  | Lifecycle.Spawned _ :: l' => S (spawns l')
  | _ :: l' => spawns l'
  end.

(** Whether the effects contain an attempt to kill process [c]. *)
Fixpoint kill_attempted (c : Lifecycle.Child) (l : list Lifecycle.effect) : bool :=
  match l with
  | [] => false
  | Lifecycle.Killed c' :: l' | Lifecycle.KillFailed c' :: l' =>
      Nat.eqb c c' || kill_attempted c l'
  | _ :: l' => kill_attempted c l'
  end.

(** Number of attempts to kill a process in a list of effects. *)
Fixpoint kills (l : list Lifecycle.effect) : nat :=
  match l with
  | [] => O
  | Lifecycle.Killed _ :: l' | Lifecycle.KillFailed _ :: l' => S (kills l')
  | _ :: l' => kills l'
  end.

(** The calls the application makes, and a run of them in order. *)
Inductive call : Type := Start | Stop | Status.

Definition do_call (w : Lifecycle.World) (c : call) (st : Lifecycle.State)
    : Lifecycle.State :=
  match c with
  | Start => snd (Lifecycle.startKiroServer w st)
  | Stop => Lifecycle.stopKiroServer w st
  | Status => snd (Lifecycle.getKiroServerStatus w st)
  end.

Definition run (w : Lifecycle.World) (cs : list call) (st : Lifecycle.State)
    : Lifecycle.State :=
  fold_left (fun s c => do_call w c s) cs st.

Definition tracked (st : Lifecycle.State) : nat :=
  match Lifecycle.kiroProcess st with Some _ => 1%nat | None => O end.

Definition idle : Lifecycle.State :=
  {| Lifecycle.kiroProcess := None; Lifecycle.checks := O; Lifecycle.log := [] |}.

(** A world where the server never answers and spawning gives process 7. *)
Definition dead_world : Lifecycle.World :=
  {| Lifecycle.health := fun _ => false;
     Lifecycle.kill_throws := fun _ => true;
     Lifecycle.spawn := fun _ => Ok 7%nat |}.

Import ListNotations.
Local Open Scope Z_scope.

(** A non-empty run of decimal digits. *)
Fixpoint all_digits (s : string) : bool :=
  match s with
  | EmptyString => true
  | String c s' => Json.is_digit c && all_digits s'
  end.

Definition numeral (s : string) : bool :=
  negb (String.eqb s "") && all_digits s.

(** [major.minor.patch] *)
Definition version3 (a b c : string) : string :=
  a +:+ "." +:+ b +:+ "." +:+ c.

(** Comparison of triples, the first component counting most. *)
Definition lex3 (x y : N * N * N) : comparison :=
  let '(x1, x2, x3) := x in
  let '(y1, y2, y3) := y in
  match N.compare x1 y1 with
  | Eq => match N.compare x2 y2 with
          | Eq => N.compare x3 y3
          | c => c
          end
  | c => c
  end.

Definition sign_of (c : comparison) : Z :=
  match c with Lt => -1 | Eq => 0 | Gt => 1 end.

(** * Properties *)

Section CrcFacts.
Import Crc.

Lemma ToUint32_land x : JS.ToUint32 x = Z.land x (Z.ones 32).
Proof. unfold JS.ToUint32. rewrite Z.land_ones by lia. reflexivity. Qed.

Lemma ToUint32_range x : 0 <= JS.ToUint32 x < 2 ^ 32.
Proof. unfold JS.ToUint32. apply Z.mod_pos_bound. lia. Qed.

Lemma ToUint32_small x : 0 <= x < 2 ^ 32 -> JS.ToUint32 x = x.
Proof. intros. unfold JS.ToUint32. apply Z.mod_small. lia. Qed.

Lemma ToUint32_ToInt32 x : JS.ToUint32 (JS.ToInt32 x) = JS.ToUint32 x.
Proof.
  unfold JS.ToUint32, JS.ToInt32.
  rewrite Zminus_mod_idemp_l. f_equal. lia.
Qed.

Lemma ToInt32_small x : - 2 ^ 31 <= x < 2 ^ 31 -> JS.ToInt32 x = x.
Proof. intros. unfold JS.ToInt32. rewrite Z.mod_small by lia. lia. Qed.

Lemma ToUint32_lxor a b :
  JS.ToUint32 (Z.lxor a b) = Z.lxor (JS.ToUint32 a) (JS.ToUint32 b).
Proof.
  rewrite !ToUint32_land. apply Z.bits_inj'. intros n Hn.
  rewrite !Z.land_spec, !Z.lxor_spec, !Z.land_spec.
  destruct (Z.testbit a n), (Z.testbit b n), (Z.testbit (Z.ones 32) n); reflexivity.
Qed.

Lemma ToUint32_land2 a b :
  JS.ToUint32 (Z.land a b) = Z.land (JS.ToUint32 a) (JS.ToUint32 b).
Proof.
  rewrite !ToUint32_land. apply Z.bits_inj'. intros n Hn.
  rewrite !Z.land_spec.
  destruct (Z.testbit a n), (Z.testbit b n), (Z.testbit (Z.ones 32) n); reflexivity.
Qed.

Lemma ToUint32_xor a b :
  JS.ToUint32 (JS.xor a b) = Z.lxor (JS.ToUint32 a) (JS.ToUint32 b).
Proof.
  unfold JS.xor. rewrite ToUint32_ToInt32, ToUint32_lxor, !ToUint32_ToInt32.
  reflexivity.
Qed.

Lemma ToUint32_and a b :
  JS.ToUint32 (JS.and a b) = Z.land (JS.ToUint32 a) (JS.ToUint32 b).
Proof.
  unfold JS.and. rewrite ToUint32_ToInt32, ToUint32_land2, !ToUint32_ToInt32.
  reflexivity.
Qed.

Lemma ushr_ToUint32 a n : JS.ushr a n = Z.shiftr (JS.ToUint32 a) (n mod 32).
Proof. reflexivity. Qed.

Lemma shiftr_range x n : 0 <= n -> 0 <= x < 2 ^ 32 -> 0 <= Z.shiftr x n < 2 ^ 32.
Proof.
  intros Hn Hx. rewrite Z.shiftr_div_pow2 by lia. split.
  - apply Z.div_pos; lia.
  - apply Z.le_lt_trans with x; [|lia].
    apply Z.div_le_upper_bound; [lia|]. 
    assert (1 <= 2 ^ n) by (apply Z.pow_le_mono_r with (b := 0) (c:=n) (a:=2); lia).
    nia.
Qed.

Lemma lxor_range a b : 0 <= a < 2 ^ 32 -> 0 <= b < 2 ^ 32 -> 0 <= Z.lxor a b < 2 ^ 32.
Proof.
  intros Ha Hb.
  rewrite <- (ToUint32_small a), <- (ToUint32_small b) by lia.
  rewrite <- ToUint32_lxor. apply ToUint32_range.
Qed.

Lemma land_255_range x : 0 <= Z.land x 255 < 256.
Proof.
  change 255 with (Z.ones 8). rewrite Z.land_ones by lia.
  apply Z.mod_pos_bound. lia.
Qed.

(** The signed result of [& 0xFF] is the low byte of the unsigned value. *)
Lemma and_255 x : JS.and x 0xFF = Z.land (JS.ToUint32 x) 255.
Proof.
  assert (H : JS.ToUint32 (JS.and x 255) = Z.land (JS.ToUint32 x) 255).
  { rewrite ToUint32_and. rewrite (ToUint32_small 255) by lia. reflexivity. }
  unfold JS.and in *. rewrite (ToInt32_small 255) in * by lia.
  pose proof (land_255_range (JS.ToInt32 x)).
  rewrite ToInt32_small in * by lia.
  rewrite ToUint32_small in H by lia. exact H.
Qed.

Lemma and_1 x : JS.and x 1 = Z.land (JS.ToUint32 x) 1.
Proof.
  assert (H : JS.ToUint32 (JS.and x 1) = Z.land (JS.ToUint32 x) 1).
  { rewrite ToUint32_and. rewrite (ToUint32_small 1) by lia. reflexivity. }
  unfold JS.and in *. rewrite (ToInt32_small 1) in * by lia.
  assert (0 <= Z.land (JS.ToInt32 x) 1 < 2).
  { change 1 with (Z.ones 1) at 1 2. rewrite Z.land_ones by lia.
    apply Z.mod_pos_bound. lia. }
  rewrite ToInt32_small in * by lia.
  rewrite ToUint32_small in H by lia. exact H.
Qed.

Lemma POLY_range : 0 <= POLY < 2 ^ 32.
Proof. unfold POLY. lia. Qed.

Lemma ref_bit_range c : 0 <= c < 2 ^ 32 -> 0 <= ref_bit c < 2 ^ 32.
Proof.
  intros Hc. unfold ref_bit. pose proof POLY_range.
  pose proof (shiftr_range c 1 ltac:(lia) Hc).
  destruct (Z.odd c); [apply lxor_range|]; lia.
Qed.

Lemma iter_ref_bit_range n c :
  0 <= c < 2 ^ 32 -> 0 <= Nat.iter n ref_bit c < 2 ^ 32.
Proof. intros Hc. induction n; simpl; [lia|]. apply ref_bit_range, IHn. Qed.

(** One round of the table loop agrees with the reference bit step on the
    unsigned value of the register. *)
Lemma table_step_ref c : JS.ToUint32 (table_step c) = ref_bit (JS.ToUint32 c).
Proof.
  unfold table_step, ref_bit. rewrite and_1.
  pose proof (ToUint32_range c) as Hr.
  pose proof (shiftr_range _ 1 ltac:(lia) Hr) as Hs.
  assert (Hodd : JS.truthy (Z.land (JS.ToUint32 c) 1) = Z.odd (JS.ToUint32 c)).
  { unfold JS.truthy. change 1 with (Z.ones 1). rewrite Z.land_ones by lia.
    change (2 ^ 1) with 2. rewrite Zmod_odd. destruct (Z.odd _); reflexivity. }
  rewrite Hodd. destruct (Z.odd _).
  - rewrite ToUint32_xor, ushr_ToUint32. change (1 mod 32) with 1.
    rewrite (ToUint32_small POLY) by apply POLY_range.
    rewrite (ToUint32_small (Z.shiftr _ _)) by lia. apply Z.lxor_comm.
  - rewrite ushr_ToUint32. change (1 mod 32) with 1. apply ToUint32_small. lia.
Qed.

Lemma iter_table_step_ref n c :
  JS.ToUint32 (Nat.iter n table_step c) = Nat.iter n ref_bit (JS.ToUint32 c).
Proof. induction n; simpl; [reflexivity|]. rewrite table_step_ref, IHn. reflexivity. Qed.

Lemma table_entry_ref i : 0 <= i < 2 ^ 32 -> table_entry i = Nat.iter 8 ref_bit i.
Proof.
  intros Hi. unfold table_entry. rewrite ushr_ToUint32. change (0 mod 32) with 0.
  rewrite Z.shiftr_0_r, ToUint32_small by apply ToUint32_range.
  rewrite iter_table_step_ref, ToUint32_small by lia. reflexivity.
Qed.

Lemma table_get_ref i : 0 <= i < 256 -> table_get i = Nat.iter 8 ref_bit i.
Proof.
  intros Hi. unfold table_get, CRC32_TABLE.
  set (f := fun i => table_entry (Z.of_nat i)).
  rewrite (nth_indep _ 0 (f 0%nat)) by (rewrite length_map, length_seq; lia).
  rewrite map_nth, seq_nth by lia. subst f. cbv beta.
  rewrite Nat.add_0_l, Z2Nat.id by lia. apply table_entry_ref. lia.
Qed.

(** The bit step is linear over xor. *)
Lemma ref_bit_lxor a b : ref_bit (Z.lxor a b) = Z.lxor (ref_bit a) (ref_bit b).
Proof.
  unfold ref_bit. rewrite <- !Z.bit0_odd, Z.lxor_spec, Z.shiftr_lxor.
  destruct (Z.testbit a 0), (Z.testbit b 0); simpl.
  - rewrite (Z.lxor_comm (Z.shiftr b 1) POLY), Z.lxor_assoc.
    rewrite <- (Z.lxor_assoc POLY POLY), Z.lxor_nilpotent, Z.lxor_0_l. reflexivity.
  - rewrite !Z.lxor_assoc. f_equal. apply Z.lxor_comm.
  - rewrite Z.lxor_assoc. reflexivity.
  - reflexivity.
Qed.

Lemma iter_ref_bit_lxor n a b :
  Nat.iter n ref_bit (Z.lxor a b) =
  Z.lxor (Nat.iter n ref_bit a) (Nat.iter n ref_bit b).
Proof.
  revert a b. induction n; intros a b; [reflexivity|].
  rewrite !Nat.iter_succ_r, ref_bit_lxor. apply IHn.
Qed.

Lemma iter_ref_bit_shiftl n y :
  Nat.iter n ref_bit (Z.shiftl y (Z.of_nat n)) = y.
Proof.
  induction n.
  - simpl. apply Z.shiftl_0_r.
  - rewrite Nat.iter_succ_r. unfold ref_bit at 2.
    rewrite <- Z.bit0_odd, Z.shiftl_spec_low by lia.
    rewrite Z.shiftr_shiftl_l by lia.
    replace (Z.of_nat (S n) - 1) with (Z.of_nat n) by lia. exact IHn.
Qed.

Lemma split_low_byte x : x = Z.lxor (Z.land x 255) (Z.shiftl (Z.shiftr x 8) 8).
Proof.
  apply Z.bits_inj'. intros n Hn.
  rewrite Z.lxor_spec, Z.land_spec. change 255 with (Z.ones 8).
  destruct (Z.ltb_spec n 8).
  - rewrite Z.ones_spec_low, Z.shiftl_spec_low by lia.
    rewrite andb_true_r, xorb_false_r. reflexivity.
  - rewrite Z.ones_spec_high, Z.shiftl_spec, Z.shiftr_spec by lia.
    rewrite andb_false_r, xorb_false_l. f_equal. lia.
Qed.

(** The table look-up performs eight bit steps at once. *)
Lemma byte_at_once x :
  Nat.iter 8 ref_bit x =
  Z.lxor (Nat.iter 8 ref_bit (Z.land x 255)) (Z.shiftr x 8).
Proof.
  rewrite (split_low_byte x) at 1.
  rewrite iter_ref_bit_lxor. f_equal.
  apply (iter_ref_bit_shiftl 8).
Qed.

Lemma byte_val_range b : 0 <= byte_val b < 256.
Proof.
  unfold byte_val. pose proof (Byte.to_N_bounded b). lia.
Qed.

Lemma crc_step_ref c b :
  JS.ToUint32 (crc_step c b) = ref_byte (JS.ToUint32 c) b.
Proof.
  unfold crc_step, ref_byte.
  pose proof (byte_val_range b) as Hb.
  rewrite ToUint32_xor, and_255, ToUint32_xor, (ToUint32_small (byte_val b)) by lia.
  pose proof (land_255_range (Z.lxor (JS.ToUint32 c) (byte_val b))) as Hl.
  rewrite table_get_ref by lia.
  rewrite ushr_ToUint32. change (8 mod 32) with 8.
  pose proof (ToUint32_range c) as Hc.
  pose proof (shiftr_range _ 8 ltac:(lia) Hc) as Hs.
  rewrite (ToUint32_small (Z.shiftr _ _)) by lia.
  rewrite ToUint32_small by (apply iter_ref_bit_range; lia).
  rewrite (byte_at_once (Z.lxor _ _)).
  f_equal. rewrite Z.shiftr_lxor.
  rewrite (Z.shiftr_div_pow2 (byte_val b)) by lia.
  rewrite (Z.div_small (byte_val b)) by lia.
  rewrite Z.lxor_0_r. reflexivity.
Qed.

Lemma fold_left_cons {A B} (f : A -> B -> A) x l a :
  fold_left f (x :: l) a = fold_left f l (f a x).
Proof. reflexivity. Qed.

Lemma fold_crc_step_ref data c :
  JS.ToUint32 (fold_left crc_step data c) =
  fold_left ref_byte data (JS.ToUint32 c).
Proof.
  revert c. induction data as [|b data IH]; intros c.
  - reflexivity.
  - rewrite !fold_left_cons, IH, crc_step_ref. reflexivity.
Qed.

Lemma crc32_range data : 0 <= crc32 data < 2 ^ 32.
Proof.
  unfold crc32. rewrite ushr_ToUint32. change (0 mod 32) with 0.
  rewrite Z.shiftr_0_r. apply ToUint32_range.
Qed.

End CrcFacts.

(** C3.  The table-driven [crc32] of the codec computes, on every byte
    sequence, the standard bitwise CRC-32 (reflected polynomial 0xEDB88320,
    initial register 0xFFFFFFFF, final xor 0xFFFFFFFF). *)
Theorem crc32_refines_reference (data : list Byte.byte) :
  Crc.crc32 data = Crc.crc32_ref data.
Proof.
  unfold Crc.crc32, Crc.crc32_ref.
  rewrite ushr_ToUint32. change (0 mod 32) with 0. rewrite Z.shiftr_0_r.
  rewrite ToUint32_xor, fold_crc_step_ref. reflexivity.
Qed.

Lemma crc32_fits data : 0 <= Crc.crc32 data < 256 ^ Z.of_nat 4.
Proof.
  unfold Crc.crc32, JS.ushr, JS.ToUint32. change (0 mod 32) with 0.
  rewrite Z.shiftr_0_r. change (256 ^ Z.of_nat 4) with (2 ^ 32).
  apply Z.mod_pos_bound. lia.
Qed.

Section CodecFacts.
Import Json Codec.

Lemma byte_val_of_Z z : Crc.byte_val (byte_of_Z z) = z mod 256.
Proof.
  unfold byte_of_Z, Crc.byte_val.
  pose proof (Z.mod_pos_bound z 256 ltac:(lia)) as Hr.
  destruct (Byte.of_N (Z.to_N (z mod 256))) as [b|] eqn:E.
  - apply Byte.to_of_N in E. rewrite E. lia.
  - exfalso. pose proof (Byte.to_of_N_option_map (Z.to_N (z mod 256))) as H.
    rewrite E in H. simpl in H.
    destruct (N.leb_spec (Z.to_N (z mod 256)) 255); [discriminate|lia].
Qed.

Lemma length_be_bytes n v : length (be_bytes n v) = n.
Proof.
  revert v. induction n; intros v; simpl; [reflexivity|].
  rewrite length_app, IHn. simpl. lia.
Qed.

Lemma readUIntBE_app bs b :
  readUIntBE (bs ++ [b]) = readUIntBE bs * 256 + Crc.byte_val b.
Proof. unfold readUIntBE. rewrite fold_left_app. reflexivity. Qed.

Lemma readUIntBE_be_bytes n v :
  0 <= v < 256 ^ Z.of_nat n -> readUIntBE (be_bytes n v) = v.
Proof.
  revert v. induction n; intros v Hv.
  - simpl in *. unfold readUIntBE. simpl. lia.
  - simpl be_bytes. rewrite readUIntBE_app, byte_val_of_Z.
    rewrite IHn.
    + pose proof (Z.div_mod v 256 ltac:(lia)). lia.
    + rewrite Nat2Z.inj_succ, Z.pow_succ_r in Hv by lia.
      split; [apply Z.div_pos; lia|].
      apply Z.div_lt_upper_bound; lia.
Qed.

Lemma store_app (a x b bs : list Byte.byte) (off : nat) :
  length a = off -> length x = length bs ->
  store (a ++ x ++ b) off bs = a ++ bs ++ b.
Proof.
  intros Ha Hx. unfold store. subst off.
  rewrite firstn_app, Nat.sub_diag, firstn_all. simpl. rewrite app_nil_r.
  f_equal. f_equal.
  rewrite skipn_app, skipn_all2 by lia. simpl.
  replace (length a + length bs - length a)%nat with (length x) by lia.
  rewrite skipn_app, skipn_all, Nat.sub_diag. reflexivity.
Qed.

Lemma copy_app (a x b src : list Byte.byte) (off : nat) :
  length a = off -> length x = length src ->
  copy src (a ++ x ++ b) off = a ++ src ++ b.
Proof.
  intros Ha Hx. unfold copy.
  rewrite !length_app.
  replace (Nat.min _ _) with (length src) by lia.
  rewrite firstn_all. apply store_app; assumption.
Qed.

Lemma alloc_add n m : alloc (n + m) = alloc n ++ alloc m.
Proof. unfold alloc. apply repeat_app. Qed.

Lemma length_alloc n : length (alloc n) = n.
Proof. apply repeat_length. Qed.

Lemma writeUIntBE_app n (a x b : list Byte.byte) v off r :
  length a = off -> length x = n ->
  writeUIntBE n (a ++ x ++ b) v off = Ok r ->
  r = a ++ be_bytes n v ++ b /\ 0 <= v < 256 ^ Z.of_nat n.
Proof.
  intros Ha Hx. unfold writeUIntBE.
  destruct (Z.leb_spec 0 v); [|discriminate].
  destruct (Z.ltb_spec v (256 ^ Z.of_nat n)); [|discriminate]. simpl.
  destruct (_ <=? _)%nat; [|discriminate].
  intros [= <-]. split; [|lia].
  apply store_app; [assumption|]. rewrite length_be_bytes. assumption.
Qed.

Lemma writeUIntBE_app_ok n (a x b : list Byte.byte) v off :
  length a = off -> length x = n -> 0 <= v < 256 ^ Z.of_nat n ->
  writeUIntBE n (a ++ x ++ b) v off = Ok (a ++ be_bytes n v ++ b).
Proof.
  intros Ha Hx Hv. unfold writeUIntBE.
  destruct (Z.leb_spec 0 v); [|lia].
  destruct (Z.ltb_spec v (256 ^ Z.of_nat n)); [|lia]. simpl.
  destruct (Nat.leb_spec (off + n) (length (a ++ x ++ b))) as [_|Hlt].
  - f_equal. apply store_app; [assumption|]. rewrite length_be_bytes. assumption.
  - rewrite !length_app in Hlt. lia.
Qed.

Lemma length_Buffer_from s : length (Buffer_from s) = String.length s.
Proof.
  unfold Buffer_from, list_byte_of_string.
  rewrite length_map. induction s; simpl; congruence.
Qed.

Lemma header_alloc name value :
  alloc (1 + length (Buffer_from name) + 1 + 2 + length (Buffer_from value)) =
  [] ++ alloc 1 ++ alloc (length (Buffer_from name)) ++ alloc 1 ++ alloc 2 ++
  alloc (length (Buffer_from value)) ++ [].
Proof. rewrite app_nil_r, <- !alloc_add. simpl app. f_equal. lia. Qed.

Lemma encodeStringHeader_inv name value h :
  encodeStringHeader name value = Ok h ->
  h = header_bytes name value /\
  Z.of_nat (String.length name) <= 255 /\ Z.of_nat (String.length value) <= 65535.
Proof.
  unfold encodeStringHeader, writeUInt8, writeUInt16BE.
  rewrite header_alloc.
  pose proof (length_Buffer_from name) as Hnb.
  pose proof (length_Buffer_from value) as Hvb.
  remember (Buffer_from name) as nb eqn:Enb.
  remember (Buffer_from value) as vb eqn:Evb.
  destruct (writeUIntBE 1 _ _ 0) as [b1|] eqn:E1; [|discriminate].
  apply writeUIntBE_app in E1 as [-> R1]; [|reflexivity|apply length_alloc].
  cbn [mbind result_bind app].
  rewrite copy_app by (rewrite ?length_alloc, ?length_be_bytes; reflexivity).
  set (p1 := be_bytes 1 (Z.of_nat (length nb))).
  rewrite (app_assoc p1 nb).
  destruct (writeUIntBE 1 _ 7 _) as [b2|] eqn:E2; [|discriminate].
  apply writeUIntBE_app in E2 as [-> _];
    [|subst p1; rewrite length_app, length_be_bytes; simpl; lia|apply length_alloc].
  cbn [mbind result_bind].
  rewrite (app_assoc (p1 ++ nb) (be_bytes 1 7)).
  destruct (writeUIntBE 2 _ _ _) as [b3|] eqn:E3; [|discriminate].
  apply writeUIntBE_app in E3 as [-> R3];
    [|subst p1; rewrite !length_app, !length_be_bytes; simpl; lia|apply length_alloc].
  cbn [mbind result_bind].
  rewrite (app_assoc ((p1 ++ nb) ++ be_bytes 1 7) (be_bytes 2 (Z.of_nat (length vb)))).
  rewrite copy_app
    by (subst p1; rewrite ?length_alloc, ?length_app, ?length_be_bytes; simpl; lia).
  intros [= <-]. subst p1. rewrite Hnb, Hvb in *.
  split; [|split].
  - unfold header_bytes. subst nb vb. rewrite app_nil_r, <- !app_assoc.
    reflexivity.
  - change (256 ^ Z.of_nat 1) with 256 in R1. lia.
  - change (256 ^ Z.of_nat 2) with 65536 in R3. lia.
Qed.

Lemma encodeStringHeader_ok name value :
  Z.of_nat (String.length name) <= 255 ->
  Z.of_nat (String.length value) <= 65535 ->
  encodeStringHeader name value = Ok (header_bytes name value).
Proof.
  intros Hn Hv. unfold encodeStringHeader, writeUInt8, writeUInt16BE.
  rewrite header_alloc.
  pose proof (length_Buffer_from name) as Hnb.
  pose proof (length_Buffer_from value) as Hvb.
  remember (Buffer_from name) as nb eqn:Enb.
  remember (Buffer_from value) as vb eqn:Evb.
  rewrite writeUIntBE_app_ok;
    [|reflexivity|apply length_alloc|change (256 ^ Z.of_nat 1) with 256; lia].
  cbn [mbind result_bind app].
  rewrite copy_app by (rewrite ?length_alloc, ?length_be_bytes; reflexivity).
  set (p1 := be_bytes 1 (Z.of_nat (length nb))).
  rewrite (app_assoc p1 nb).
  rewrite writeUIntBE_app_ok;
    [|subst p1; rewrite length_app, length_be_bytes; simpl; lia|apply length_alloc
     |change (256 ^ Z.of_nat 1) with 256; lia].
  cbn [mbind result_bind].
  rewrite (app_assoc (p1 ++ nb) (be_bytes 1 7)).
  rewrite writeUIntBE_app_ok;
    [|subst p1; rewrite !length_app, !length_be_bytes; simpl; lia|apply length_alloc
     |change (256 ^ Z.of_nat 2) with 65536; lia].
  cbn [mbind result_bind].
  rewrite (app_assoc ((p1 ++ nb) ++ be_bytes 1 7) (be_bytes 2 (Z.of_nat (length vb)))).
  rewrite copy_app
    by (subst p1; rewrite ?length_alloc, ?length_app, ?length_be_bytes; simpl; lia).
  f_equal. unfold header_bytes. subst p1. rewrite Hnb, Hvb. subst nb vb.
  rewrite app_nil_r, <- !app_assoc. reflexivity.
Qed.

Lemma length_header_bytes name value :
  length (header_bytes name value) =
  (1 + String.length name + 1 + 2 + String.length value)%nat.
Proof.
  unfold header_bytes.
  rewrite !length_app, !length_be_bytes, !length_Buffer_from. lia.
Qed.

Lemma message_alloc (H P : nat) :
  alloc (12 + H + P + 4) =
  [] ++ alloc 4 ++ alloc 4 ++ alloc 4 ++ alloc H ++ alloc P ++ alloc 4 ++ [].
Proof. rewrite app_nil_r, <- !alloc_add. simpl app. f_equal. lia. Qed.

Lemma length_message_body hb pb :
  length (message_body hb pb) = (12 + length hb + length pb)%nat.
Proof.
  unfold message_body. rewrite !length_app, !length_be_bytes. lia.
Qed.

(** The writes that follow the encoding of the headers. *)
Lemma message_writes (hb pb : Buffer) (msg : Buffer) :
  let totalLength := (12 + length hb + length pb + 4)%nat in
  (message ← writeUInt32BE (alloc totalLength) (Z.of_nat totalLength) 0;
   message ← writeUInt32BE message (Z.of_nat (length hb)) (0 + 4);
   message ← writeUInt32BE message (Crc.crc32 (subarray message 8)) (0 + 4 + 4);
   let message := copy hb message (0 + 4 + 4 + 4) in
   let message := copy pb message (0 + 4 + 4 + 4 + length hb) in
   writeUInt32BE message
     (Crc.crc32 (subarray message (0 + 4 + 4 + 4 + length hb + length pb)))
     (0 + 4 + 4 + 4 + length hb + length pb)) = Ok msg ->
  msg = message_bytes hb pb /\ Z.of_nat totalLength < 2 ^ 32.
Proof.
  intros totalLength. unfold writeUInt32BE. subst totalLength.
  unfold message_bytes, message_body.
  pose proof crc32_fits as crc32_fits. revert crc32_fits.
  generalize Crc.crc32. intros crc32 crc32_fits.
  rewrite message_alloc.
  set (t := Z.of_nat (12 + length hb + length pb + 4)).
  destruct (writeUIntBE 4 _ t 0) as [m1|] eqn:E1; [|discriminate].
  apply writeUIntBE_app in E1 as [-> R1]; [|reflexivity|apply length_alloc].
  cbn [mbind result_bind app].
  set (p1 := be_bytes 4 t).
  assert (L1 : length p1 = 4%nat) by apply length_be_bytes.
  destruct (writeUIntBE 4 _ _ _) as [m2|] eqn:E2; [|discriminate].
  apply writeUIntBE_app in E2 as [-> R2]; [|exact L1|apply length_alloc].
  cbn [mbind result_bind].
  set (p2 := be_bytes 4 (Z.of_nat (length hb))).
  assert (L2 : length p2 = 4%nat) by apply length_be_bytes.
  rewrite (app_assoc p1 p2).
  assert (L12 : length (p1 ++ p2) = 8%nat) by (rewrite length_app; lia).
  assert (S1 : forall r, subarray ((p1 ++ p2) ++ r) 8 = p1 ++ p2).
  { intros r. unfold subarray. rewrite <- L12 at 1.
    rewrite firstn_app, Nat.sub_diag, firstn_O, app_nil_r. apply firstn_all. }
  rewrite S1.
  destruct (writeUIntBE 4 _ _ _) as [m3|] eqn:E3; [|discriminate].
  apply writeUIntBE_app in E3 as [-> R3]; [|exact L12|apply length_alloc].
  cbn [mbind result_bind].
  set (p3 := be_bytes 4 (crc32 (p1 ++ p2))).
  assert (L3 : length p3 = 4%nat) by apply length_be_bytes.
  rewrite (app_assoc (p1 ++ p2) p3).
  rewrite copy_app by (rewrite ?length_alloc, ?length_app; lia).
  rewrite (app_assoc ((p1 ++ p2) ++ p3) hb).
  rewrite copy_app by (rewrite ?length_alloc, ?length_app; lia).
  rewrite (app_assoc (((p1 ++ p2) ++ p3) ++ hb) pb).
  set (body := (((p1 ++ p2) ++ p3) ++ hb) ++ pb).
  assert (Lb : length body = (0 + 4 + 4 + 4 + length hb + length pb)%nat).
  { subst body. rewrite !length_app. lia. }
  assert (S2 : forall r, subarray (body ++ r) (0 + 4 + 4 + 4 + length hb + length pb) = body).
  { intros r. unfold subarray.
    rewrite <- Lb, firstn_app, Nat.sub_diag, firstn_O, app_nil_r.
    apply firstn_all. }
  rewrite S2.
  intros E4. apply writeUIntBE_app in E4 as [-> R4]; [|exact Lb|apply length_alloc].
  split.
  - fold t p1 p2 p3.
    rewrite app_nil_r.
    replace (p1 ++ p2 ++ p3 ++ hb ++ pb) with body; [reflexivity|].
    subst body. rewrite <- !app_assoc. reflexivity.
  - change (256 ^ Z.of_nat 4) with (2 ^ 32) in R1. subst t. lia.
Qed.

Lemma encodeEventStreamMessage_inv eventType payload msg :
  encodeEventStreamMessage eventType payload = Ok msg ->
  exists h1 h2 h3,
    encodeStringHeader ":event-type" eventType = Ok h1 /\
    encodeStringHeader ":content-type" "application/json" = Ok h2 /\
    encodeStringHeader ":message-type" "event" = Ok h3 /\
    msg = message_bytes (h1 ++ h2 ++ h3) (Buffer_from (stringify payload)) /\
    Z.of_nat (length msg) < 2 ^ 32.
Proof.
  unfold encodeEventStreamMessage.
  destruct (encodeStringHeader ":event-type" eventType) as [h1|]; [|discriminate].
  destruct (encodeStringHeader ":content-type" _) as [h2|]; [|discriminate].
  destruct (encodeStringHeader ":message-type" _) as [h3|]; [|discriminate].
  cbn [mbind result_bind]. intros H.
  apply message_writes in H as [-> Hlt].
  exists h1, h2, h3. repeat split; try reflexivity.
  unfold message_bytes.
  rewrite length_app, length_message_body, length_be_bytes. exact Hlt.
Qed.

Lemma message_bytes_consistent hb pb :
  Z.of_nat (12 + length hb + length pb + 4) < 2 ^ 32 ->
  let msg := message_bytes hb pb in
  let total := length msg in
  total = (12 + length hb + length pb + 4)%nat /\
  readUIntBE (firstn 4 msg) = Z.of_nat total /\
  readUIntBE (firstn 4 (skipn 8 msg)) = Crc.crc32 (firstn 8 msg) /\
  readUIntBE (skipn (total - 4) msg) = Crc.crc32 (firstn (total - 4) msg).
Proof.
  intros Hlt. cbv zeta.
  assert (Ht : length (message_bytes hb pb) = (12 + length hb + length pb + 4)%nat).
  { unfold message_bytes.
    rewrite length_app, length_message_body, length_be_bytes. reflexivity. }
  rewrite Ht. split; [reflexivity|].
  pose proof (length_message_body hb pb) as Lb.
  unfold message_bytes, message_body in *.
  pose proof crc32_fits as crc32_fits. revert crc32_fits Lb.
  generalize Crc.crc32. intros crc32 crc32_fits Lb.
  remember (Z.of_nat (12 + length hb + length pb + 4)) as t eqn:Et.
  remember (be_bytes 4 t) as p1 eqn:E1.
  remember (be_bytes 4 (Z.of_nat (length hb))) as p2 eqn:E2.
  remember (be_bytes 4 (crc32 (p1 ++ p2))) as p3 eqn:E3.
  assert (L1 : length p1 = 4%nat) by (subst p1; apply length_be_bytes).
  assert (L2 : length p2 = 4%nat) by (subst p2; apply length_be_bytes).
  assert (L3 : length p3 = 4%nat) by (subst p3; apply length_be_bytes).
  assert (L12 : length (p1 ++ p2) = 8%nat) by (rewrite length_app; lia).
  remember ((p1 ++ p2) ++ p3 ++ hb ++ pb) as body eqn:Eb.
  split; [|split].
  - rewrite Eb, <- !app_assoc, take_app_length' by (symmetry; exact L1).
    subst p1. apply readUIntBE_be_bytes.
    change (256 ^ Z.of_nat 4) with (2 ^ 32). subst t. lia.
  - rewrite Eb, <- (app_assoc (p1 ++ p2)).
    rewrite (drop_app_length' (p1 ++ p2) _ 8) by (symmetry; exact L12).
    rewrite (take_app_length' (p1 ++ p2) _ 8) by (symmetry; exact L12).
    rewrite <- (app_assoc p3).
    rewrite (take_app_length' p3 _ 4) by (symmetry; exact L3).
    subst p3. apply readUIntBE_be_bytes, crc32_fits.
  - replace (12 + length hb + length pb + 4 - 4)%nat with (length body) by lia.
    rewrite drop_app_length, take_app_length.
    apply readUIntBE_be_bytes, crc32_fits.
Qed.

(** The encoder returns whenever the event type fits a header value and
    the message length fits 32 bits. *)
Lemma encodeEventStreamMessage_defined eventType payload :
  Z.of_nat (String.length eventType) <= 65535 ->
  Z.of_nat (String.length (stringify payload)) < 2 ^ 31 ->
  is_ok (encodeEventStreamMessage eventType payload) = true.
Proof.
  intros He Hp. unfold encodeEventStreamMessage.
  pose proof crc32_fits as crc32_fits. revert crc32_fits.
  generalize Crc.crc32. intros crc32 crc32_fits.
  rewrite !encodeStringHeader_ok by (cbn [String.length]; lia).
  cbn [mbind result_bind]. unfold writeUInt32BE.
  set (hb := header_bytes _ eventType ++ _).
  set (pb := Buffer_from (stringify payload)).
  assert (Lh : Z.of_nat (length hb) <= 65700).
  { subst hb. rewrite !length_app, !length_header_bytes.
    cbn [String.length]. lia. }
  assert (Lp : Z.of_nat (length pb) < 2 ^ 31).
  { subst pb. rewrite length_Buffer_from. exact Hp. }
  rewrite message_alloc.
  rewrite writeUIntBE_app_ok;
    [|reflexivity|apply length_alloc|change (256 ^ Z.of_nat 4) with (2 ^ 32); lia].
  cbn [mbind result_bind app].
  set (p1 := be_bytes 4 _).
  assert (L1 : length p1 = 4%nat) by apply length_be_bytes.
  rewrite writeUIntBE_app_ok;
    [|exact L1|apply length_alloc|change (256 ^ Z.of_nat 4) with (2 ^ 32); lia].
  cbn [mbind result_bind].
  set (p2 := be_bytes 4 (Z.of_nat (length hb))).
  assert (L2 : length p2 = 4%nat) by apply length_be_bytes.
  rewrite (app_assoc p1 p2).
  assert (L12 : length (p1 ++ p2) = 8%nat) by (rewrite length_app; lia).
  rewrite writeUIntBE_app_ok;
    [|exact L12|apply length_alloc|apply crc32_fits].
  cbn [mbind result_bind].
  set (p3 := be_bytes 4 _).
  assert (L3 : length p3 = 4%nat) by apply length_be_bytes.
  rewrite (app_assoc (p1 ++ p2) p3).
  rewrite copy_app by (rewrite ?length_alloc, ?length_app; lia).
  rewrite (app_assoc ((p1 ++ p2) ++ p3) hb).
  rewrite copy_app by (rewrite ?length_alloc, ?length_app; lia).
  rewrite (app_assoc (((p1 ++ p2) ++ p3) ++ hb) pb).
  rewrite writeUIntBE_app_ok;
    [reflexivity|rewrite !length_app; lia|apply length_alloc|apply crc32_fits].
Qed.

End CodecFacts.

(** C1.  Every message that [encodeEventStreamMessage] produces is
    self-consistent: its first four bytes are the big-endian total length
    of the message, that length is 12 + the length of the three encoded
    headers + the length of the UTF-8 JSON payload + 4, bytes 9 to 12 are
    the CRC32 of the first eight bytes, and the last four bytes are the
    CRC32 of all the bytes before them. *)
Theorem encode_message_self_consistent
    (eventType : string) (payload : Json.json) (msg : Codec.Buffer) :
  Codec.encodeEventStreamMessage eventType payload = Ok msg ->
  exists h1 h2 h3 : Codec.Buffer,
    Codec.encodeStringHeader ":event-type" eventType = Ok h1 /\
    Codec.encodeStringHeader ":content-type" "application/json" = Ok h2 /\
    Codec.encodeStringHeader ":message-type" "event" = Ok h3 /\
    length msg =
      (12 + (length h1 + length h2 + length h3) +
       length (Codec.Buffer_from (Json.stringify payload)) + 4)%nat /\
    Codec.readUIntBE (firstn 4 msg) = Z.of_nat (length msg) /\
    Codec.readUIntBE (firstn 4 (skipn 8 msg)) = Crc.crc32 (firstn 8 msg) /\
    Codec.readUIntBE (skipn (length msg - 4) msg) =
      Crc.crc32 (firstn (length msg - 4) msg).
Proof.
  intros H.
  apply encodeEventStreamMessage_inv in H
    as (h1 & h2 & h3 & E1 & E2 & E3 & -> & Hlt).
  exists h1, h2, h3. repeat (split; [assumption|]).
  set (hb := h1 ++ h2 ++ h3) in *.
  set (pb := Codec.Buffer_from (Json.stringify payload)) in *.
  assert (Hl : length (message_bytes hb pb) = (12 + length hb + length pb + 4)%nat).
  { unfold message_bytes.
    rewrite length_app, length_message_body, length_be_bytes. reflexivity. }
  destruct (message_bytes_consistent hb pb) as (T & A & B & C).
  { rewrite <- Hl. exact Hlt. }
  cbv zeta in *. repeat split; try assumption.
  rewrite T. subst hb. rewrite !length_app. lia.
Qed.

Lemma encode_message_self_consistent_witness :
  Codec.encodeEventStreamMessage "assistantResponseEvent"
    (Json.JObj [("content"%string, Json.JStr "Hi")]) = Ok sample_frame /\
  exists h1 h2 h3 : Codec.Buffer,
    Codec.encodeStringHeader ":event-type" "assistantResponseEvent" = Ok h1 /\
    Codec.encodeStringHeader ":content-type" "application/json" = Ok h2 /\
    Codec.encodeStringHeader ":message-type" "event" = Ok h3 /\
    length sample_frame =
      (12 + (length h1 + length h2 + length h3) +
       length (Codec.Buffer_from
                 (Json.stringify (Json.JObj [("content"%string, Json.JStr "Hi")]))) + 4)%nat /\
    Codec.readUIntBE (firstn 4 sample_frame) = Z.of_nat (length sample_frame) /\
    Codec.readUIntBE (firstn 4 (skipn 8 sample_frame)) =
      Crc.crc32 (firstn 8 sample_frame) /\
    Codec.readUIntBE (skipn (length sample_frame - 4) sample_frame) =
      Crc.crc32 (firstn (length sample_frame - 4) sample_frame).
Proof.
  split; [vm_compute; reflexivity|].
  apply (encode_message_self_consistent "assistantResponseEvent"
           (Json.JObj [("content"%string, Json.JStr "Hi")]) sample_frame).
  vm_compute. reflexivity.
Defined.

Section TranslatorFacts.
Import Json Translator.

Lemma history_entry_turn t : history_entry (turn_json t) = Ok (implied_message t).
Proof.
  destruct t as [c|c]; cbn.
  - reflexivity.
  - destruct (String.eqb c ""); reflexivity.
Qed.

Lemma history_loop_turns history acc :
  history_loop (List.map turn_json history) acc =
  Ok (acc ++ implied_messages history).
Proof.
  revert acc. induction history as [|t h IH]; intros acc.
  - cbn. rewrite app_nil_r. reflexivity.
  - cbn [List.map history_loop]. rewrite history_entry_turn.
    cbn [mbind result_bind]. rewrite IH.
    unfold implied_messages. cbn [List.map List.concat].
    rewrite app_assoc. reflexivity.
Qed.

Lemma kiroToAnthropic_host_request history current modelId :
  current <> EmptyString ->
  kiroToAnthropic (host_request history current modelId) =
  Ok {| req_model := mapModelId (Some (JStr modelId));
        messages := implied_messages history ++
                    [Message user (TextBlock (JStr current))];
        max_tokens := 8192;
        stream := true |}.
Proof.
  intros Hc. unfold kiroToAnthropic, host_request.
  cbn [get_opt prop assoc String.eqb Ascii.eqb Bool.eqb truthy_opt truthy get
       mbind result_bind iterate].
  rewrite history_loop_turns. cbn [mbind result_bind app truthy].
  destruct (String.eqb_spec current ""); [contradiction|]. reflexivity.
Qed.

Lemma kiroToAnthropic_fixed req r :
  kiroToAnthropic req = Ok r -> max_tokens r = 8192 /\ stream r = true.
Proof.
  unfold kiroToAnthropic.
  destruct (get _ "currentMessage") as [cm|]; [|discriminate].
  destruct (get _ "history") as [h|]; [|discriminate].
  cbn [mbind result_bind].
  match goal with |- context [mbind _ ?x] => destruct x as [items|] end;
    [|discriminate].
  cbn [mbind result_bind].
  destruct (history_loop items []) as [msgs|]; [|discriminate].
  cbn [mbind result_bind]. intros [= <-]. split; reflexivity.
Qed.

Lemma kiroToAnthropic_no_state req :
  match get_opt (Some req) "conversationState" with
  | None => True
  | Some cs => is_object cs = false
  end ->
  exists r, kiroToAnthropic req = Ok r /\ messages r = [].
Proof.
  unfold kiroToAnthropic.
  destruct (get_opt (Some req) "conversationState") as [cs|].
  - intros Hcs. destruct cs; try discriminate; cbn;
      try (destruct b); try (destruct (negb _)); try (destruct (mantissa _ =? 0)%N);
      cbn; eexists; split; reflexivity.
  - intros _. cbn. eexists; split; reflexivity.
Qed.

End TranslatorFacts.

(** C5.  The code at the failing input: an id that names a member of
    [Object.prototype] is not returned unchanged; the result is that
    member, which is no string. *)
Theorem mapModelId_inherited_member :
  Translator.mapModelId (Some (Json.JStr "constructor")) =
  Translator.Builtin "constructor".
Proof. reflexivity. Qed.

(** What [mapModelId] does on the ids that [Object.prototype] does not
    define: the two aliases give the fast model, any other non-empty id is
    returned unchanged, the empty and the absent id give the default. *)
Lemma mapModelId_strings (id : string) :
  Translator.inherited id = false ->
  Translator.mapModelId (Some (Json.JStr id)) =
  Translator.Model (Json.JStr
    (if String.eqb id "claude-haiku" || String.eqb id "simple-task"
     then "gemini-3-flash"
     else if String.eqb id "" then "claude-sonnet-4-5-thinking" else id)).
Proof.
  intros Hi. unfold Translator.mapModelId.
  cbn [Translator.property_key Translator.to_string Translator.own
       Translator.MODEL_MAP].
  rewrite (String.eqb_sym "claude-haiku"), (String.eqb_sym "simple-task").
  destruct (String.eqb_spec id "claude-haiku"); [reflexivity|].
  destruct (String.eqb_spec id "simple-task"); [reflexivity|].
  rewrite Hi. cbn [orb Json.truthy].
  destruct (String.eqb id ""); reflexivity.
Qed.

(** C4, the claim as stated fails: a conversation state whose history is
    a number makes the translation throw. *)
Lemma kiroToAnthropic_malformed_history_throws :
  Json.parse (Json.sq "{'conversationState':{'history':5}}") =
    Some (Json.JObj [("conversationState"%string,
                      Json.JObj [("history"%string, Json.num 5)])]) /\
  ~ (exists r,
       Translator.kiroToAnthropic
         (Json.JObj [("conversationState"%string,
                      Json.JObj [("history"%string, Json.num 5)])]) = Ok r /\
       Translator.messages r = []).
Proof.
  split; [vm_compute; reflexivity|].
  intros [r [H _]]. vm_compute in H. discriminate.
Qed.

(** C4, amended.  For a host request with a history and a non-empty
    current turn, [kiroToAnthropic] returns the messages the history
    implies, in the order of the history, followed by the user message of
    the current turn; every request it returns has [max_tokens = 8192] and
    [stream = true]; and a request whose conversation state is absent or
    is not an object gives an empty message list. *)
Theorem kiroToAnthropic_preserves_order :
  (forall (history : list turn) (current modelId : string),
     current <> EmptyString ->
     Translator.kiroToAnthropic (host_request history current modelId) =
     Ok {| Translator.req_model := Translator.mapModelId (Some (Json.JStr modelId));
           Translator.messages :=
             implied_messages history ++
             [Translator.Message Translator.user
                (Translator.TextBlock (Json.JStr current))];
           Translator.max_tokens := 8192;
           Translator.stream := true |}) /\
  (forall req r,
     Translator.kiroToAnthropic req = Ok r ->
     Translator.max_tokens r = 8192 /\ Translator.stream r = true) /\
  (forall req,
     match Json.get_opt (Some req) "conversationState" with
     | None => True
     | Some cs => is_object cs = false
     end ->
     exists r, Translator.kiroToAnthropic req = Ok r /\
               Translator.messages r = []).
Proof.
  split; [|split].
  - apply kiroToAnthropic_host_request.
  - apply kiroToAnthropic_fixed.
  - apply kiroToAnthropic_no_state.
Qed.

Lemma kiroToAnthropic_preserves_order_witness :
  Translator.kiroToAnthropic
    (host_request [UserTurn "a"; AssistantTurn ""; AssistantTurn "b"] "q"
                  "claude-haiku") =
  Ok {| Translator.req_model := Translator.Model (Json.JStr "gemini-3-flash");
        Translator.messages :=
          [Translator.Message Translator.user
             (Translator.Raw (Some (Json.JStr "a")));
           Translator.Message Translator.assistant
             (Translator.TextBlock (Json.JStr "b"));
           Translator.Message Translator.user
             (Translator.TextBlock (Json.JStr "q"))];
        Translator.max_tokens := 8192;
        Translator.stream := true |} /\
  (exists r, Translator.kiroToAnthropic (Json.JObj []) = Ok r /\
             Translator.messages r = []).
Proof.
  destruct kiroToAnthropic_preserves_order as (H1 & _ & H3).
  split.
  - apply (H1 [UserTurn "a"; AssistantTurn ""; AssistantTurn "b"]
              "q"%string "claude-haiku"%string).
    discriminate.
  - apply (H3 (Json.JObj [])). exact I.
Defined.

Section ModelsFacts.
Import Json Models.

Lemma filter_fallback : filter_models FALLBACK_MODELS = Ok FALLBACK_MODELS.
Proof. vm_compute. reflexivity. Qed.

Lemma getFilteredModels_failed f :
  fetch_failed f -> getFilteredModels f = FALLBACK_MODELS.
Proof.
  unfold getFilteredModels. destruct f as [| |data]; cbn [resolved fetch_failed].
  - reflexivity.
  - reflexivity.
  - destruct (parse data) as [res|]; [|reflexivity].
    intros ->. rewrite orb_true_r. reflexivity.
Qed.

End ModelsFacts.

(** C9.  When the fetch of the model list from the proxy fails,
    [GET /ListAvailableModels] answers with status 200 and the static
    list of four models, which the filter leaves as it is. *)
Theorem list_models_fallback
    (f : Models.fetch) (body : string) (run : Server.proxy_run) :
  fetch_failed f ->
  Server.server "GET" "/ListAvailableModels" body f run =
    [Server.SetHeader "Access-Control-Allow-Origin" "*";
     Server.WriteHead 200 (Some "application/json"%string);
     Server.End (Json.stringify
                   (Models.buildModelResponse Models.FALLBACK_MODELS))] /\
  Models.filter_models Models.FALLBACK_MODELS = Ok Models.FALLBACK_MODELS /\
  length Models.FALLBACK_MODELS = 4%nat.
Proof.
  intros Hf. split; [|split; [apply filter_fallback|reflexivity]].
  unfold Server.server. cbn [String.eqb Ascii.eqb Bool.eqb].
  rewrite (getFilteredModels_failed f Hf). reflexivity.
Qed.

Lemma list_models_fallback_witness :
  Server.server "GET" "/ListAvailableModels" "" (Models.Ended "<html>")
    {| Server.chunks := []; Server.final := Server.Finished |} =
    [Server.SetHeader "Access-Control-Allow-Origin" "*";
     Server.WriteHead 200 (Some "application/json"%string);
     Server.End (Json.stringify
                   (Models.buildModelResponse Models.FALLBACK_MODELS))] /\
  Models.filter_models Models.FALLBACK_MODELS = Ok Models.FALLBACK_MODELS /\
  length Models.FALLBACK_MODELS = 4%nat.
Proof.
  apply (list_models_fallback (Models.Ended "<html>") ""
           {| Server.chunks := []; Server.final := Server.Finished |}).
  vm_compute. exact I.
Defined.

Section StreamFacts.
Import Json Server.

Lemma append_cons c a b : String c a +:+ b = String c (a +:+ b).
Proof. reflexivity. Qed.

Lemma append_nil_r s : s +:+ "" = s.
Proof. induction s as [|c s IH]; [reflexivity|]. rewrite append_cons, IH. reflexivity. Qed.

Lemma append_assoc a b c : a +:+ b +:+ c = (a +:+ b) +:+ c.
Proof.
  induction a as [|x a IH]; [reflexivity|].
  rewrite !append_cons, IH. reflexivity.
Qed.

Lemma split_lines_nonempty s : Text.split_lines s <> [].
Proof.
  destruct s as [|c s]; cbn; [discriminate|].
  destruct (Ascii.eqb c Text.newline); [discriminate|].
  destruct (Text.split_lines s); discriminate.
Qed.

Lemma removelast_cons {A} (x : A) l :
  l <> [] -> List.removelast (x :: l) = x :: List.removelast l.
Proof. destruct l; [contradiction|reflexivity]. Qed.

Lemma last_cons {A} (x : A) l d :
  l <> [] -> List.last (x :: l) d = List.last l d.
Proof. destruct l; [contradiction|reflexivity]. Qed.

(** Splitting a text that arrives in two parts: the lines of the first
    part but its last, then the lines of that last piece continued by the
    second part. *)
Lemma split_lines_app a b :
  Text.split_lines (a +:+ b) =
  List.removelast (Text.split_lines a) ++
  Text.split_lines (List.last (Text.split_lines a) EmptyString +:+ b).
Proof.
  induction a as [|c a IH].
  - reflexivity.
  - rewrite append_cons. cbn [Text.split_lines].
    pose proof (split_lines_nonempty a) as Hne.
    destruct (Ascii.eqb c Text.newline) eqn:Ec.
    + rewrite removelast_cons, last_cons by assumption.
      rewrite IH. reflexivity.
    + rewrite IH.
      destruct (Text.split_lines a) as [|h t] eqn:Es; [contradiction|].
      destruct t as [|h' t'].
      * cbn [List.removelast List.last app]. rewrite append_cons.
        cbn [Text.split_lines]. rewrite Ec. reflexivity.
      * change (List.removelast (h :: h' :: t')) with (h :: List.removelast (h' :: t')).
        change (List.last (h :: h' :: t') EmptyString) with (List.last (h' :: t') EmptyString).
        change (List.removelast (String c h :: h' :: t'))
          with (String c h :: List.removelast (h' :: t')).
        change (List.last (String c h :: h' :: t') EmptyString)
          with (List.last (h' :: t') EmptyString).
        reflexivity.
Qed.

(** The last piece of a split holds no line feed. *)
Lemma split_lines_last s :
  Text.split_lines (List.last (Text.split_lines s) EmptyString) =
  [List.last (Text.split_lines s) EmptyString].
Proof.
  induction s as [|c s IH]; [reflexivity|].
  cbn [Text.split_lines].
  pose proof (split_lines_nonempty s) as Hne.
  destruct (Ascii.eqb c Text.newline) eqn:Ec.
  - rewrite last_cons by assumption. exact IH.
  - destruct (Text.split_lines s) as [|h t] eqn:Es; [contradiction|].
    destruct t as [|h' t'].
    + cbn [List.last] in *. cbn [Text.split_lines]. rewrite Ec, IH. reflexivity.
    + change (List.last (String c h :: h' :: t') EmptyString)
        with (List.last (h :: h' :: t') EmptyString).
      exact IH.
Qed.

Lemma removelast_app_ne {A} (l1 l2 : list A) :
  l2 <> [] -> List.removelast (l1 ++ l2) = l1 ++ List.removelast l2.
Proof. intros H. apply List.removelast_app. exact H. Qed.

Lemma last_app_ne {A} (l1 l2 : list A) d :
  l2 <> [] -> List.last (l1 ++ l2) d = List.last l2 d.
Proof.
  intros H. induction l1 as [|x l1 IH]; [reflexivity|].
  cbn [app]. rewrite last_cons; [exact IH|].
  destruct l1; [exact H|discriminate].
Qed.

Lemma on_lines_app n l1 l2 :
  on_lines n (l1 ++ l2) =
  (fst (on_lines (fst (on_lines n l1)) l2),
   snd (on_lines n l1) ++ snd (on_lines (fst (on_lines n l1)) l2)).
Proof.
  revert n. induction l1 as [|ln l1 IH]; intros n.
  - cbn [app on_lines fst snd]. destruct (on_lines n l2); reflexivity.
  - cbn [app on_lines]. destruct (on_line n ln) as [n1 f1].
    rewrite IH. destruct (on_lines n1 l1) as [n2 f2]. cbn [fst snd].
    destruct (on_lines n2 l2) as [n3 f3]. cbn [fst snd].
    rewrite app_assoc. reflexivity.
Qed.

Lemma on_data_eq st c :
  on_data st c =
  ({| buf := List.last (Text.split_lines (buf st +:+ c)) EmptyString;
      tc := fst (on_lines (tc st)
                   (List.removelast (Text.split_lines (buf st +:+ c)))) |},
   snd (on_lines (tc st) (List.removelast (Text.split_lines (buf st +:+ c))))).
Proof.
  unfold on_data, pop.
  destruct (on_lines (tc st) _) as [n f]. reflexivity.
Qed.

Lemma on_chunks_cons st c chunks :
  on_chunks st (c :: chunks) =
  (fst (on_chunks (fst (on_data st c)) chunks),
   snd (on_data st c) ++ snd (on_chunks (fst (on_data st c)) chunks)).
Proof.
  cbn [on_chunks]. destruct (on_data st c) as [st1 f1]. cbn [fst snd].
  destruct (on_chunks st1 chunks) as [st2 f2]. reflexivity.
Qed.

(** Feeding the response chunk by chunk handles the complete lines of the
    whole text, in order, and keeps the unfinished last line. *)
Lemma on_chunks_whole chunks st :
  Text.split_lines (buf st) = [buf st] ->
  let whole := Text.split_lines (buf st +:+ concat_chunks chunks) in
  on_chunks st chunks =
  ({| buf := List.last whole EmptyString;
      tc := fst (on_lines (tc st) (List.removelast whole)) |},
   snd (on_lines (tc st) (List.removelast whole))).
Proof.
  revert st. induction chunks as [|c chunks IH]; intros st Hst; cbv zeta.
  - cbn [concat_chunks fold_right on_chunks].
    rewrite append_nil_r, Hst. cbn [List.last List.removelast on_lines fst snd].
    destruct st; reflexivity.
  - rewrite on_chunks_cons, on_data_eq. cbn [fst snd].
    rewrite IH by (cbn [buf]; apply split_lines_last).
    cbn [buf tc fst snd]. cbv zeta.
    cbn [concat_chunks fold_right]. fold (concat_chunks chunks).
    rewrite (append_assoc (buf st) c), (split_lines_app (buf st +:+ c)).
    set (b := buf st +:+ c).
    pose proof (split_lines_nonempty
                  (List.last (Text.split_lines b) EmptyString +:+
                   concat_chunks chunks)) as Hne.
    rewrite removelast_app_ne, last_app_ne by exact Hne.
    rewrite on_lines_app. cbn [fst snd]. reflexivity.
Qed.

End StreamFacts.

Lemma two_lines_frames :
  snd (Server.on_lines 0
         (List.removelast
            (Text.split_lines (sse_line "Hi" +:+ sse_line " there")))) =
  [frame_hi; frame_there].
Proof. vm_compute. reflexivity. Qed.

Lemma on_end_frames :
  Server.on_end =
  [Server.Write frame_metering; Server.Write frame_context;
   Server.End EmptyString].
Proof. vm_compute. reflexivity. Qed.

Lemma generate_finished body req areq chunks :
  Json.parse body = Some req ->
  Translator.kiroToAnthropic req = Ok areq ->
  Server.generateAssistantResponse body
    {| Server.chunks := chunks; Server.final := Server.Finished |} =
  Server.WriteHead 200 (Some Server.eventstream) ::
  Server.Forward areq ::
  List.map Server.Write
    (snd (Server.on_lines 0
            (List.removelast (Text.split_lines (concat_chunks chunks))))) ++
  Server.on_end.
Proof.
  intros Hp Ht. unfold Server.generateAssistantResponse.
  rewrite Hp, Ht. cbn [Server.chunks Server.final].
  rewrite on_chunks_whole by reflexivity.
  cbn [Server.buf Server.tc snd]. reflexivity.
Qed.

(** C2.  For a [POST /generateAssistantResponse] whose body translates,
    and an upstream response that delivers, in any chunks, the two lines
    with the texts "Hi" and " there" and then ends, the server writes the
    two [assistantResponseEvent] frames with these contents in that order,
    then one [meteringEvent] frame with usage 0.001 and one
    [contextUsageEvent] frame with percentage 0.5, then ends the response;
    it writes no other frame. *)
Theorem streaming_translation
    (body : string) (req : Json.json) (areq : Translator.ChatRequest)
    (chunks : list string) (models : Models.fetch) :
  Json.parse body = Some req ->
  Translator.kiroToAnthropic req = Ok areq ->
  concat_chunks chunks = sse_line "Hi" +:+ sse_line " there" ->
  Server.server "POST" "/generateAssistantResponse" body models
    {| Server.chunks := chunks; Server.final := Server.Finished |} =
    [Server.SetHeader "Access-Control-Allow-Origin" "*";
     Server.WriteHead 200 (Some "application/vnd.amazon.eventstream"%string);
     Server.Forward areq;
     Server.Write frame_hi; Server.Write frame_there;
     Server.Write frame_metering; Server.Write frame_context;
     Server.End EmptyString] /\
  Server.read_frame frame_hi =
    Some {| Server.event_type := "assistantResponseEvent";
            Server.payload := Json.sq "{'content':'Hi'}" |} /\
  Server.read_frame frame_there =
    Some {| Server.event_type := "assistantResponseEvent";
            Server.payload := Json.sq "{'content':' there'}" |} /\
  Server.read_frame frame_metering =
    Some {| Server.event_type := "meteringEvent";
            Server.payload :=
              Json.sq "{'unit':'credit','unitPlural':'credits','usage':0.001}" |} /\
  Server.read_frame frame_context =
    Some {| Server.event_type := "contextUsageEvent";
            Server.payload := Json.sq "{'contextUsagePercentage':0.5}" |}.
Proof.
  intros Hp Ht Hc.
  split; [|repeat split; vm_compute; reflexivity].
  unfold Server.server.
  change (String.eqb "POST" "OPTIONS") with false.
  change (String.eqb "/generateAssistantResponse" "/health") with false.
  change (String.eqb "/generateAssistantResponse" "/ListAvailableModels") with false.
  change (String.eqb "/generateAssistantResponse" "/getUsageLimits") with false.
  change (String.eqb "/generateAssistantResponse" "/generateAssistantResponse"
          && String.eqb "POST" "POST") with true.
  cbv iota.
  rewrite (generate_finished body req areq chunks Hp Ht).
  rewrite Hc, two_lines_frames, on_end_frames. reflexivity.
Qed.

Lemma streaming_translation_witness :
  Server.server "POST" "/generateAssistantResponse" sample_body Models.ErrorEvent
    {| Server.chunks := sample_chunks; Server.final := Server.Finished |} =
    [Server.SetHeader "Access-Control-Allow-Origin" "*";
     Server.WriteHead 200 (Some "application/vnd.amazon.eventstream"%string);
     Server.Forward sample_request;
     Server.Write frame_hi; Server.Write frame_there;
     Server.Write frame_metering; Server.Write frame_context;
     Server.End EmptyString].
Proof.
  apply (streaming_translation sample_body
           (Json.JObj [("conversationState"%string,
              Json.JObj [("currentMessage"%string,
                Json.JObj [("userInputMessage"%string,
                  Json.JObj [("content"%string, Json.JStr "hello");
                             ("modelId"%string, Json.JStr "simple-task")])])])])
           sample_request sample_chunks Models.ErrorEvent).
  - vm_compute. reflexivity.
  - vm_compute. reflexivity.
  - vm_compute. reflexivity.
Defined.

Section TextFacts.

Lemma length_append a b :
  String.length (a +:+ b) = (String.length a + String.length b)%nat.
Proof.
  induction a as [|c a IH]; [reflexivity|].
  rewrite append_cons. cbn [String.length]. rewrite IH. reflexivity.
Qed.

Lemma strip_prefix_append p s r :
  Text.strip_prefix p s = Some r -> s = p +:+ r.
Proof.
  revert s. induction p as [|a p IH]; intros s H.
  - cbn in H. injection H as ->. reflexivity.
  - destruct s as [|b s]; [discriminate|]. cbn [Text.strip_prefix] in H.
    destruct (Ascii.eqb_spec a b) as [->|]; [|discriminate].
    rewrite append_cons. f_equal. apply IH, H.
Qed.

Lemma strip_prefix_of_append p r : Text.strip_prefix p (p +:+ r) = Some r.
Proof.
  induction p as [|a p IH]; [reflexivity|].
  rewrite append_cons. cbn [Text.strip_prefix]. rewrite Ascii.eqb_refl. exact IH.
Qed.

Lemma prefix_append p s : String.prefix p s = true -> exists r, s = p +:+ r.
Proof.
  revert s. induction p as [|a p IH]; intros s H.
  - exists s. reflexivity.
  - destruct s as [|b s]; [discriminate|]. cbn [String.prefix] in H.
    destruct (ascii_dec a b) as [->|]; [|discriminate].
    destruct (IH s H) as [r ->]. exists r. reflexivity.
Qed.

Lemma prefix_of_append p r : String.prefix p (p +:+ r) = true.
Proof.
  induction p as [|a p IH]; [destruct r; reflexivity|].
  rewrite append_cons. cbn [String.prefix].
  destruct (ascii_dec a a); [exact IH|contradiction].
Qed.

Lemma includes_cons s p c :
  Text.includes s p = true -> Text.includes (String c s) p = true.
Proof. intros H. cbn [Text.includes]. rewrite H. apply orb_true_r. Qed.

Lemma includes_append_l pre s p :
  Text.includes s p = true -> Text.includes (pre +:+ s) p = true.
Proof.
  intros H. induction pre as [|c pre IH]; [exact H|].
  rewrite append_cons. apply includes_cons, IH.
Qed.

Lemma includes_inv s p :
  Text.includes s p = true -> exists pre r, s = pre +:+ p +:+ r.
Proof.
  induction s as [|c s IH]; cbn [Text.includes]; intros H.
  - rewrite orb_false_r in H. apply prefix_append in H as [r ->].
    exists EmptyString, r. reflexivity.
  - apply orb_true_iff in H as [H|H].
    + apply prefix_append in H as [r ->]. exists EmptyString, r. reflexivity.
    + destruct (IH H) as (pre & r & ->). exists (String c pre), r. reflexivity.
Qed.

Lemma includes_of_append pre p r : Text.includes (pre +:+ p +:+ r) p = true.
Proof.
  apply includes_append_l.
  destruct (p +:+ r) eqn:E; cbn [Text.includes]; rewrite <- E, prefix_of_append;
    reflexivity.
Qed.

End TextFacts.

Section TestFacts.
Import Pattern.
Variable m : string -> option string.

Lemma test_here s r : m s = Some r -> test m s = true.
Proof. intros H. destruct s; cbn [test]; rewrite H; reflexivity. Qed.

Lemma test_cons c s : test m s = true -> test m (String c s) = true.
Proof. intros H. cbn [test]. destruct (m (String c s)); [reflexivity|exact H]. Qed.

Lemma test_append pre s : test m s = true -> test m (pre +:+ s) = true.
Proof.
  intros H. induction pre as [|c pre IH]; [exact H|].
  rewrite append_cons. apply test_cons, IH.
Qed.

(** [test] finds a match exactly when one starts somewhere in the text. *)
Lemma test_inv s :
  test m s = true -> exists pre u r, s = pre +:+ u /\ m u = Some r.
Proof.
  induction s as [|c s IH]; cbn [test]; intros H.
  - destruct (m EmptyString) as [r|] eqn:E; [|discriminate].
    exists EmptyString, EmptyString, r. split; [reflexivity|exact E].
  - destruct (m (String c s)) as [r|] eqn:E.
    + exists EmptyString, (String c s), r. split; [reflexivity|exact E].
    + destruct (IH H) as (pre & u & r & -> & Hu).
      exists (String c pre), u, r. split; [reflexivity|exact Hu].
Qed.

End TestFacts.

Section ReplaceFacts.
Import Pattern.
Variable m : string -> option string.
Variable by_ : string.
Hypothesis m_consumes : consumes m.

Lemma m_empty : m EmptyString = None.
Proof.
  destruct (m EmptyString) as [r|] eqn:E; [|reflexivity].
  apply m_consumes in E. cbn in E. lia.
Qed.

(** Fuel beyond the length of the text changes nothing. *)
Lemma replace_fuel_enough n s :
  (String.length s <= n)%nat -> replace_fuel n m by_ s = replace m by_ s.
Proof.
  unfold replace. revert s.
  induction n as [n IH] using lt_wf_ind. intros s Hn.
  destruct s as [|c s].
  - destruct n; cbn [replace_fuel String.length]; [reflexivity|].
    rewrite m_empty. reflexivity.
  - destruct n as [|n]; [cbn in Hn; lia|].
    cbn [String.length replace_fuel].
    destruct (m (String c s)) as [r|] eqn:E.
    + pose proof (m_consumes _ _ E) as Hr. cbn [String.length] in Hr, Hn.
      rewrite (IH n) by lia.
      rewrite (IH (String.length s)) by lia. reflexivity.
    + cbn [String.length] in Hn. rewrite (IH n) by lia. reflexivity.
Qed.

Lemma replace_empty : replace m by_ EmptyString = EmptyString.
Proof. reflexivity. Qed.

Lemma replace_match s r : m s = Some r -> replace m by_ s = by_ +:+ replace m by_ r.
Proof.
  intros E. pose proof (m_consumes _ _ E) as Hr.
  unfold replace at 1. destruct s as [|c s]; [cbn in Hr; lia|].
  cbn [String.length replace_fuel]. rewrite E.
  cbn [String.length] in Hr. rewrite replace_fuel_enough by lia. reflexivity.
Qed.

Lemma replace_skip c s :
  m (String c s) = None -> replace m by_ (String c s) = String c (replace m by_ s).
Proof.
  intros E. unfold replace at 1. cbn [String.length replace_fuel]. rewrite E.
  reflexivity.
Qed.

(** The three ways the replacement of a text starts. *)
Lemma replace_cases s :
  s = EmptyString /\ replace m by_ s = EmptyString \/
  (exists r, m s = Some r /\ replace m by_ s = by_ +:+ replace m by_ r /\
             (String.length r < String.length s)%nat) \/
  (exists c s', s = String c s' /\ m s = None /\
                replace m by_ s = String c (replace m by_ s')).
Proof.
  destruct s as [|c s]; [left; split; reflexivity|]. right.
  destruct (m (String c s)) as [r|] eqn:E.
  - left. exists r. split; [reflexivity|]. split.
    + apply replace_match, E.
    + apply m_consumes, E.
  - right. exists c, s. split; [reflexivity|]. split; [reflexivity|].
    apply replace_skip, E.
Qed.

(** Without a match the text is left as it is. *)
Lemma replace_no_match s : test m s = false -> replace m by_ s = s.
Proof.
  induction s as [|c s IH]; [reflexivity|].
  cbn [test]. destruct (m (String c s)) eqn:E; [discriminate|].
  intros H. rewrite replace_skip by exact E. rewrite IH by exact H. reflexivity.
Qed.

(** With a match, the replacement text is in the result. *)
Lemma replace_includes lit :
  Text.includes by_ lit = true ->
  forall s, test m s = true -> Text.includes (replace m by_ s) lit = true.
Proof.
  intros Hl s. induction s as [|c s IH]; cbn [test].
  - rewrite m_empty. discriminate.
  - destruct (m (String c s)) as [r|] eqn:E.
    + intros _. rewrite (replace_match _ _ E).
      destruct (includes_inv _ _ Hl) as (pre & r' & ->).
      rewrite <- !append_assoc. apply includes_of_append.
    + intros H. rewrite replace_skip by exact E. apply includes_cons, IH, H.
Qed.

End ReplaceFacts.

Section HostPattern.
Import Pattern Patcher.

Lemma strip_prefix_length p s r :
  Text.strip_prefix p s = Some r ->
  String.length s = (String.length p + String.length r)%nat.
Proof. intros H. apply strip_prefix_append in H as ->. apply length_append. Qed.

Lemma region_tail_length s r :
  region_tail s = Some r -> (String.length r < String.length s)%nat.
Proof.
  induction s as [|c s IH]; [discriminate|]. cbn [region_tail].
  destruct (is_class c).
  - intros H. apply IH in H. cbn [String.length]. lia.
  - intros H. apply strip_prefix_length in H.
    change (String.length HOST_SUFFIX) with 14%nat in H. rewrite H. lia.
Qed.

Lemma match_host_consumes : consumes match_host.
Proof.
  intros s r. unfold match_host.
  destruct (Text.strip_prefix HOST_PREFIX s) as [[|c s']|] eqn:E; try discriminate.
  apply strip_prefix_length in E.
  change (String.length HOST_PREFIX) with 10%nat in E.
  destruct (is_class c); [|discriminate].
  intros H. apply region_tail_length in H.
  change (String.length (String c s')) with (S (String.length s')) in E. lia.
Qed.

Lemma skip_space_eq s :
  skip_space s =
  match s with
  | String a r1 =>
      if is_space1 a then skip_space r1
      else
        match r1 with
        | String b r2 =>
            if is_space2 a b then skip_space r2
            else
              match r2 with
              | String c r3 => if is_space3 a b c then skip_space r3 else s
              | EmptyString => s
              end
        | EmptyString => s
        end
  | EmptyString => s
  end.
Proof. destruct s; reflexivity. Qed.

(** What [skip_space] leaves is the end of its argument. *)
Lemma skip_space_suffix s : exists w, s = w +:+ skip_space s.
Proof.
  remember (String.length s) as n eqn:En.
  assert (Hn : (String.length s <= n)%nat) by lia. clear En.
  revert s Hn. induction n as [n IH] using lt_wf_ind. intros s Hn.
  rewrite skip_space_eq.
  destruct s as [|a r1]; [exists EmptyString; reflexivity|].
  change (String.length (String a r1)) with (S (String.length r1)) in Hn.
  destruct (is_space1 a).
  { destruct (IH (n - 1)%nat ltac:(lia) r1 ltac:(lia)) as [w Hw].
    exists (String a w). rewrite append_cons, <- Hw. reflexivity. }
  destruct r1 as [|b r2]; [exists EmptyString; reflexivity|].
  change (String.length (String b r2)) with (S (String.length r2)) in Hn.
  destruct (is_space2 a b).
  { destruct (IH (n - 2)%nat ltac:(lia) r2 ltac:(lia)) as [w Hw].
    exists (String a (String b w)). rewrite !append_cons, <- Hw. reflexivity. }
  destruct r2 as [|c r3]; [exists EmptyString; reflexivity|].
  change (String.length (String c r3)) with (S (String.length r3)) in Hn.
  destruct (is_space3 a b c).
  { destruct (IH (n - 3)%nat ltac:(lia) r3 ltac:(lia)) as [w Hw].
    exists (String a (String b (String c w))).
    rewrite !append_cons, <- Hw. reflexivity. }
  exists EmptyString. reflexivity.
Qed.

Lemma skip_space_length s : (String.length (skip_space s) <= String.length s)%nat.
Proof.
  destruct (skip_space_suffix s) as [w Hw].
  rewrite Hw at 2. rewrite length_append. lia.
Qed.

Lemma match_endpoint_consumes : consumes match_endpoint.
Proof.
  intros s r. unfold match_endpoint.
  destruct (Text.strip_prefix "endpoint:" s) as [r0|] eqn:E0; [|discriminate].
  apply strip_prefix_length in E0.
  pose proof (skip_space_length r0) as Hs.
  destruct (skip_space r0) as [|q r1]; [discriminate|].
  destruct (Ascii.eqb q Json.dquote); [|discriminate].
  destruct (match_host r1) as [[|q' r2]|] eqn:E1; try discriminate.
  apply match_host_consumes in E1.
  destruct (Ascii.eqb q' Json.dquote); [|discriminate].
  intros [= <-]. cbn [String.length] in *. lia.
Qed.

(** An endpoint assignment holds a host. *)
Lemma match_endpoint_host s r :
  match_endpoint s = Some r -> test match_host s = true.
Proof.
  unfold match_endpoint.
  destruct (Text.strip_prefix "endpoint:" s) as [r0|] eqn:E0; [|discriminate].
  apply strip_prefix_append in E0 as ->.
  destruct (skip_space_suffix r0) as [w Hw].
  destruct (skip_space r0) as [|q r1]; [discriminate|].
  destruct (Ascii.eqb q Json.dquote); [|discriminate].
  destruct (match_host r1) as [r2|] eqn:E1; [|discriminate].
  intros _. rewrite Hw.
  apply test_append, test_append, test_cons. apply (test_here _ _ _ E1).
Qed.

Lemma test_endpoint_host s :
  test match_endpoint s = true -> test match_host s = true.
Proof.
  intros H. apply test_inv in H as (pre & u & r & -> & Hu).
  apply test_append. apply (match_endpoint_host _ _ Hu).
Qed.

(** The fixed upstream endpoint is a host. *)
Lemma includes_upstream_host s :
  Text.includes s UPSTREAM_ENDPOINT = true -> test match_host s = true.
Proof.
  intros H. apply includes_inv in H as (pre & r & ->).
  apply test_append. apply (test_here _ _ r). reflexivity.
Qed.

End HostPattern.

(** *** No host is left after the replacement *)
Section NoHostLeft.
Import Pattern Patcher.

Local Abbreviation rep := (replace match_host HOST_REPLACEMENT).

Lemma rep_cases s :
  s = EmptyString /\ rep s = EmptyString \/
  (exists r, match_host s = Some r /\ rep s = HOST_REPLACEMENT +:+ rep r /\
             (String.length r < String.length s)%nat) \/
  (exists c s', s = String c s' /\ match_host s = None /\
                rep s = String c (rep s')).
Proof. apply replace_cases, match_host_consumes. Qed.

Lemma strip_prefix_cons a p b s :
  Text.strip_prefix (String a p) (String b s) =
  if Ascii.eqb a b then Text.strip_prefix p s else None.
Proof. reflexivity. Qed.

(** A literal without the letter h that is read off the replaced text is
    read off the original text in the same way. *)
Lemma strip_prefix_rep p :
  no_h p = true ->
  forall t u, Text.strip_prefix p (rep t) = Some u ->
  exists t', Text.strip_prefix p t = Some t' /\ u = rep t'.
Proof.
  induction p as [|a p IH]; intros Hp t u H.
  - cbn in H. injection H as <-. exists t. split; reflexivity.
  - cbn [no_h] in Hp. apply andb_true_iff in Hp as [Ha Hp].
    destruct (rep_cases t) as [[-> E]|[(r & Hm & E & _)|(c & s' & -> & Hm & E)]];
      rewrite E in H.
    + discriminate.
    + exfalso. revert H. generalize (rep r). intros x.
      change (HOST_REPLACEMENT +:+ x)
        with (String "h" ("ttp://localhost:9980" +:+ x)).
      cbn [Text.strip_prefix]. destruct (Ascii.eqb a "h"); discriminate.
    + cbn [Text.strip_prefix] in *. destruct (Ascii.eqb a c); [|discriminate].
      apply (IH Hp), H.
Qed.

Lemma region_tail_replacement x :
  region_tail (HOST_REPLACEMENT +:+ x) = None /\
  region_tail ("ttp://localhost:9980" +:+ x) = None /\
  match_host (HOST_REPLACEMENT +:+ x) = None.
Proof. repeat split. Qed.

Lemma region_tail_rep t :
  region_tail (rep t) <> None -> region_tail t <> None.
Proof.
  induction t as [|c t IH]; [intros H; exact H|].
  destruct (rep_cases (String c t))
    as [[E _]|[(r & Hm & E & _)|(c' & s' & E0 & Hm & E)]].
  - discriminate.
  - rewrite E. intros H. exfalso. apply H, region_tail_replacement.
  - injection E0 as <- <-. rewrite E. cbn [region_tail].
    destruct (is_class c); [exact IH|].
    rewrite <- E. intros H.
    destruct (Text.strip_prefix HOST_SUFFIX (rep (String c t))) as [u|] eqn:Eu;
      [|contradiction].
    apply strip_prefix_rep in Eu as (t' & -> & _); [discriminate|reflexivity].
Qed.

Lemma match_host_cons c s :
  match_host (String c s) =
  if Ascii.eqb "h" c then
    match Text.strip_prefix "ttps://q." s with
    | Some (String c' s') => if is_class c' then region_tail s' else None
    | _ => None
    end
  else None.
Proof.
  unfold match_host. change HOST_PREFIX with (String "h" "ttps://q.").
  rewrite strip_prefix_cons. destruct (Ascii.eqb "h" c); reflexivity.
Qed.

(** Nowhere in the replaced text does a host start. *)
Lemma match_host_rep t : match_host (rep t) = None.
Proof.
  destruct (rep_cases t) as [[-> E]|[(r & Hm & E & _)|(c & s' & -> & Hm & E)]];
    rewrite E.
  - reflexivity.
  - apply region_tail_replacement.
  - rewrite match_host_cons in *.
    destruct (Ascii.eqb "h" c); [|reflexivity].
    destruct (Text.strip_prefix "ttps://q." (rep s')) as [v|] eqn:Ev;
      [|reflexivity].
    apply strip_prefix_rep in Ev as (t' & Et & ->); [|reflexivity].
    rewrite Et in Hm.
    destruct (rep_cases t')
      as [[-> E']|[(r & Hm' & E' & _)|(c1 & s1 & -> & Hm' & E')]]; rewrite E'.
    + reflexivity.
    + change (HOST_REPLACEMENT +:+ rep r)
        with (String "h" ("ttp://localhost:9980" +:+ rep r)).
      change (is_class "h") with true. cbv iota.
      apply region_tail_replacement.
    + destruct (is_class c1); [|reflexivity].
      destruct (region_tail (rep s1)) as [w|] eqn:Ew; [|reflexivity].
      exfalso. apply (region_tail_rep s1); [|exact Hm].
      rewrite Ew. discriminate.
Qed.

Lemma test_replacement x :
  test match_host (HOST_REPLACEMENT +:+ x) = test match_host x.
Proof. reflexivity. Qed.

Lemma test_host_rep s : test match_host (rep s) = false.
Proof.
  remember (String.length s) as n eqn:En.
  assert (Hn : (String.length s <= n)%nat) by lia. clear En.
  revert s Hn. induction n as [n IH] using lt_wf_ind. intros s Hn.
  destruct (rep_cases s) as [[-> E]|[(r & Hm & E & Hr)|(c & s' & -> & Hm & E)]].
  - rewrite E. reflexivity.
  - rewrite E, test_replacement. apply (IH (String.length r)); lia.
  - pose proof (match_host_rep (String c s')) as Hk. rewrite E in *.
    cbn [test]. rewrite Hk.
    change (String.length (String c s')) with (S (String.length s')) in Hn.
    apply (IH (String.length s')); lia.
Qed.

End NoHostLeft.

Section PathFacts.
Import Patcher.

Lemma last2_append a x y :
  last2 (a +:+ String x (String y EmptyString)) = String x (String y EmptyString).
Proof.
  induction a as [|c a IH]; [reflexivity|].
  rewrite append_cons.
  destruct a as [|c' a]; [reflexivity|].
  rewrite append_cons in *.
  destruct a as [|c'' a]; [reflexivity|].
  rewrite append_cons in *. exact IH.
Qed.

Lemma join_cons p q rest : join (p :: q :: rest) = p +:+ "/" +:+ join (q :: rest).
Proof. reflexivity. Qed.

Lemma last2_backup p : last2 (p +:+ ".backup") = "up"%string.
Proof.
  change ".backup"%string with (".back" +:+ "up")%string.
  rewrite append_assoc. apply last2_append.
Qed.

Lemma last2_possible env d :
  In d (possiblePaths env) ->
  last2 d = "ro"%string \/ last2 d = "pp"%string \/ last2 d = "nt"%string.
Proof.
  unfold possiblePaths.
  destruct (isWindows env); [|destruct (isMac env)]; cbn [In]; intros H.
  - destruct H as [<-|[]]. left.
    change (join [home env; "AppData"; "Local"; "Programs"; "Kiro"])
      with (home env +:+ "/AppData/Local/Programs/Ki" +:+ "ro")%string.
    rewrite append_assoc. apply last2_append.
  - destruct H as [<-|[<-|[]]]; right; left; [reflexivity|].
    change (join [home env; "Applications"; "Kiro.app"])
      with (home env +:+ "/Applications/Kiro.a" +:+ "pp")%string.
    rewrite append_assoc. apply last2_append.
  - destruct H as [<-|[<-|[<-|[]]]].
    + left.
      change (join [home env; ".local"; "share"; "Kiro"])
        with (home env +:+ "/.local/share/Ki" +:+ "ro")%string.
      rewrite append_assoc. apply last2_append.
    + left. reflexivity.
    + right; right.
      change (join [home env; "snap"; "kiro"; "current"])
        with (home env +:+ "/snap/kiro/curre" +:+ "nt")%string.
      rewrite append_assoc. apply last2_append.
Qed.

(** A backup path is none of the directories the patcher looks for. *)
Lemma backup_not_possible env p :
  ~ In (p +:+ ".backup") (possiblePaths env).
Proof.
  intros H. apply last2_possible in H. rewrite last2_backup in H.
  destruct H as [H|[H|H]]; discriminate.
Qed.

Lemma append_neq p : p +:+ ".backup" <> p.
Proof.
  intros H. apply (f_equal String.length) in H.
  rewrite length_append in H. cbn in H. lia.
Qed.

Lemma has_insert (fs : gmap string node) k v q :
  has (<[k := v]> fs) q = if decide (k = q) then true else has fs q.
Proof.
  unfold has. destruct (decide (k = q)) as [->|Hne].
  - rewrite lookup_insert_eq. apply bool_decide_eq_true. eauto.
  - rewrite lookup_insert_ne by exact Hne. reflexivity.
Qed.

Lemma has_true (fs : gmap string node) p n : fs !! p = Some n -> has fs p = true.
Proof. intros H. unfold has. apply bool_decide_eq_true. eauto. Qed.

Lemma has_false (fs : gmap string node) p : fs !! p = None -> has fs p = false.
Proof.
  intros H. unfold has. apply bool_decide_eq_false. rewrite H.
  intros [x Hx]. discriminate.
Qed.

(** Writing a path that is none of the candidates, or one that exists
    already, does not change which candidate is found. *)
Lemma first_of_insert (fs : gmap string node) k v paths :
  ~ In k paths \/ has fs k = true ->
  first_of (<[k := v]> fs) paths = first_of fs paths.
Proof.
  intros Hk. induction paths as [|p paths IH]; [reflexivity|].
  cbn [first_of]. rewrite has_insert.
  destruct (decide (k = p)) as [->|Hne].
  - destruct Hk as [Hk|Hk]; [exfalso; apply Hk; left; reflexivity|].
    rewrite Hk. reflexivity.
  - rewrite IH; [reflexivity|].
    destruct Hk as [Hk|Hk]; [left; intros Hin; apply Hk; right; exact Hin|right; exact Hk].
Qed.

Lemma located_insert env (fs : gmap string node) k v :
  ~ In k (possiblePaths env) \/ has fs k = true ->
  located env (<[k := v]> fs) = located env fs.
Proof. intros H. unfold located. rewrite first_of_insert by exact H. reflexivity. Qed.

End PathFacts.

Section IOFacts.
Import Patcher.

Lemma first_existing_eq paths (fs : gmap string node) :
  first_existing paths fs = (fs, Ok (first_of fs paths)).
Proof.
  induction paths as [|p paths IH]; [reflexivity|].
  cbn [first_existing first_of]. unfold bind, exists_. fold (has fs p).
  destruct (has fs p); [reflexivity|exact IH].
Qed.

Lemma getKiroPath_eq env (fs : gmap string node) :
  getKiroPath env fs = (fs, Ok (first_of fs (possiblePaths env))).
Proof. unfold getKiroPath, catch. rewrite first_existing_eq. reflexivity. Qed.

Lemma getExtensionPath_eq env (fs : gmap string node) :
  getExtensionPath env fs = (fs, Ok (located env fs)).
Proof.
  unfold getExtensionPath, bind, located, extension_of.
  rewrite getKiroPath_eq.
  destruct (first_of fs (possiblePaths env)) as [k|]; [|reflexivity].
  cbn [option_map]. destruct (isWindows env); [reflexivity|].
  destruct (isMac env); reflexivity.
Qed.

Lemma getValidExtensionPath_eq env (fs : gmap string node) :
  getValidExtensionPath env fs = (fs, Ok (located_file env fs)).
Proof.
  unfold getValidExtensionPath, bind, located_file.
  rewrite getExtensionPath_eq.
  destruct (located env fs) as [p|]; [|reflexivity].
  unfold exists_, ret. fold (has fs p). reflexivity.
Qed.

Lemma isKiroInstalled_eq env (fs : gmap string node) :
  isKiroInstalled env fs =
  (fs, Ok (match first_of fs (possiblePaths env) with
           | Some _ => true
           | None => false
           end)).
Proof. unfold isKiroInstalled, bind. rewrite getKiroPath_eq. reflexivity. Qed.

Lemma isKiroPatched_eq env (fs : gmap string node) :
  isKiroPatched env fs =
  (fs, Ok (match located_file env fs with
           | Some p =>
               match fs !! p with
               | Some (File c) => reads_patched c
               | _ => false
               end
           | None => false
           end)).
Proof.
  unfold isKiroPatched, catch, bind. rewrite getValidExtensionPath_eq.
  destruct (located_file env fs) as [p|]; [|reflexivity].
  unfold readTextFile. destruct (fs !! p) as [[c|]|]; reflexivity.
Qed.

(** What [restoreKiro] does, case by case. *)
Lemma restoreKiro_eq env (fs : gmap string node) :
  restoreKiro env fs =
  match located env fs with
  | None => (fs, Ok (failed "Kiro extension not found"))
  | Some p =>
      match fs !! (p +:+ ".backup") with
      | None => (fs, Ok (failed "No backup found"))
      | Some Dir => (fs, Ok (failed "Error: is a directory"))
      | Some (File b) =>
          match fs !! p with
          | Some Dir => (fs, Ok (failed "Error: is a directory"))
          | _ => (<[p := File b]> fs, Ok succeeded)
          end
      end
  end.
Proof.
  unfold restoreKiro, catch, bind. rewrite getExtensionPath_eq.
  destruct (located env fs) as [p|]; [|reflexivity].
  unfold exists_. fold (has fs (p +:+ ".backup")).
  destruct (fs !! (p +:+ ".backup")) as [[b|]|] eqn:Eb.
  - rewrite (has_true _ _ _ Eb). unfold readTextFile. rewrite Eb.
    unfold writeTextFile. destruct (fs !! p) as [[c|]|]; reflexivity.
  - rewrite (has_true _ _ _ Eb). unfold readTextFile. rewrite Eb. reflexivity.
  - rewrite (has_false _ _ Eb). reflexivity.
Qed.

Lemma with_backup_lookup fs p c : with_backup fs p c !! p = fs !! p.
Proof.
  unfold with_backup. destruct (has fs _); [reflexivity|].
  apply lookup_insert_ne, append_neq.
Qed.

Lemma with_backup_located env fs p c :
  located env (with_backup fs p c) = located env fs.
Proof.
  unfold with_backup. destruct (has fs _); [reflexivity|].
  apply located_insert. left. apply backup_not_possible.
Qed.

Lemma with_backup_located_file env fs p c n :
  located_file env fs = Some p -> fs !! p = Some n ->
  located_file env (with_backup fs p c) = Some p.
Proof.
  unfold located_file. rewrite with_backup_located.
  destruct (located env fs) as [q|]; [|discriminate].
  destruct (has fs q) eqn:Eq; [|discriminate]. intros [= ->] Hn.
  rewrite (has_true _ p n); [reflexivity|].
  rewrite with_backup_lookup. exact Hn.
Qed.

Lemma located_file_has env fs p :
  located_file env fs = Some p -> is_Some (fs !! p).
Proof.
  unfold located_file. destruct (located env fs) as [q|]; [|discriminate].
  destruct (has fs q) eqn:Eq; [|discriminate]. intros [= <-].
  unfold has in Eq. apply bool_decide_eq_true in Eq. exact Eq.
Qed.

(** What [patchKiro] does, case by case. *)
Lemma patchKiro_eq env (fs : gmap string node) :
  patchKiro env fs =
  match located_file env fs with
  | None => (fs, Ok (failed "Kiro extension not found"))
  | Some p =>
      match fs !! p with
      | Some (File c) =>
          if patchable c then
            (<[p := File (patched_content c)]> (with_backup fs p c), Ok succeeded)
          else
            (with_backup fs p c,
             Ok (if reads_patched c then succeeded
                 else failed "No patchable patterns found"))
      | _ => (fs, Ok (failed "Error: is a directory"))
      end
  end.
Proof.
  unfold patchKiro, catch, bind. rewrite getValidExtensionPath_eq.
  destruct (located_file env fs) as [p|] eqn:El; [|reflexivity].
  destruct (located_file_has _ _ _ El) as [n Hn]. rewrite Hn.
  unfold exists_. fold (has fs (p +:+ ".backup")).
  destruct n as [c|].
  - assert (Hcopy :
      (if has fs (p +:+ ".backup") then ret tt
       else copyFile p (p +:+ ".backup")) fs = (with_backup fs p c, Ok tt)).
    { unfold with_backup. destruct (has fs (p +:+ ".backup")) eqn:Eh; [reflexivity|].
      unfold copyFile. rewrite Hn.
      unfold has in Eh. apply bool_decide_eq_false in Eh.
      destruct (fs !! (p +:+ ".backup")) as [x|] eqn:Ex; [|reflexivity].
      exfalso. apply Eh. eauto. }
    rewrite Hcopy. unfold readTextFile. rewrite with_backup_lookup, Hn.
    unfold patchable, patched_content.
    destruct (apply_patterns patterns c false) as [F flag]. cbn [fst snd].
    destruct flag.
    + unfold writeTextFile. rewrite with_backup_lookup, Hn. reflexivity.
    + rewrite isKiroPatched_eq.
      rewrite (with_backup_located_file env fs p c _ El Hn).
      rewrite with_backup_lookup, Hn.
      destruct (reads_patched c); reflexivity.
  - destruct (has fs (p +:+ ".backup")) eqn:Eh.
    + unfold ret, readTextFile. rewrite Hn. reflexivity.
    + unfold copyFile. rewrite Hn. reflexivity.
Qed.

End IOFacts.

Section ContentFacts.
Import Pattern Patcher.

Lemma apply_patterns_eq c :
  apply_patterns patterns c false =
  let c1 := if test match_endpoint c
            then replace match_endpoint ENDPOINT_REPLACEMENT c else c in
  (if test match_host c1 then replace match_host HOST_REPLACEMENT c1 else c1,
   test match_endpoint c || test match_host c1).
Proof.
  unfold patterns. cbn [apply_patterns].
  destruct (test match_endpoint c); cbv zeta;
    destruct (test match_host _); reflexivity.
Qed.

(** After the loop no host is left, hence no endpoint assignment. *)
Lemma patched_content_no_host c : test match_host (patched_content c) = false.
Proof.
  unfold patched_content. rewrite apply_patterns_eq. cbv zeta. cbn [fst].
  set (c1 := if test match_endpoint c then _ else c).
  destruct (test match_host c1) eqn:E; [apply test_host_rep|exact E].
Qed.

Lemma patched_content_no_endpoint c :
  test match_endpoint (patched_content c) = false.
Proof.
  destruct (test match_endpoint (patched_content c)) eqn:E; [|reflexivity].
  apply test_endpoint_host in E. rewrite patched_content_no_host in E.
  discriminate.
Qed.

Lemma patched_content_fixed c :
  apply_patterns patterns (patched_content c) false = (patched_content c, false).
Proof.
  rewrite apply_patterns_eq.
  rewrite patched_content_no_endpoint. cbv zeta.
  rewrite patched_content_no_host. reflexivity.
Qed.

Lemma not_patchable_content c : patchable c = false -> patched_content c = c.
Proof.
  unfold patchable, patched_content. rewrite apply_patterns_eq. cbv zeta.
  cbn [fst snd]. intros H. apply orb_false_iff in H as [H1 H2].
  rewrite H1 in *. rewrite H2. reflexivity.
Qed.

(** A patched content reads as patched. *)
Lemma patched_content_reads c :
  patchable c = true -> reads_patched (patched_content c) = true.
Proof.
  intros Hp. unfold reads_patched. apply andb_true_iff. split.
  - revert Hp. unfold patchable, patched_content.
    rewrite apply_patterns_eq. cbv zeta. cbn [fst snd].
    set (c1 := if test match_endpoint c then _ else c).
    destruct (test match_host c1) eqn:E2.
    + intros _. apply (replace_includes _ _ match_host_consumes);
        [reflexivity|exact E2].
    + rewrite orb_false_r. intros E1. subst c1. rewrite E1.
      apply (replace_includes _ _ match_endpoint_consumes);
        [reflexivity|exact E1].
  - apply negb_true_iff.
    destruct (Text.includes (patched_content c) UPSTREAM_ENDPOINT) eqn:E;
      [|reflexivity].
    apply includes_upstream_host in E. rewrite patched_content_no_host in E.
    discriminate.
Qed.

End ContentFacts.

Section PatcherFacts.
Import Pattern Patcher.

Lemma getValidExtensionPath_inv env (fs : gmap string node) p :
  snd (getValidExtensionPath env fs) = Ok (Some p) -> located_file env fs = Some p.
Proof. rewrite getValidExtensionPath_eq. cbn [snd]. intros [= H]. exact H. Qed.

Lemma located_of_file env (fs : gmap string node) p :
  located_file env fs = Some p -> located env fs = Some p.
Proof.
  unfold located_file. destruct (located env fs) as [q|]; [|discriminate].
  destruct (has fs q); [|discriminate]. intros [= <-]. reflexivity.
Qed.

Lemma host_patchable c : test match_host c = true -> patchable c = true.
Proof.
  intros H. unfold patchable. rewrite apply_patterns_eq. cbv zeta. cbn [snd].
  destruct (test match_endpoint c); [reflexivity|]. rewrite H. reflexivity.
Qed.

(** The state after a patch that found a pattern. *)
Lemma patchKiro_patched env (fs : gmap string node) p c :
  located_file env fs = Some p -> fs !! p = Some (File c) -> patchable c = true ->
  patchKiro env fs =
  (<[p := File (patched_content c)]> (with_backup fs p c), Ok succeeded).
Proof. intros Hl Hp Hc. rewrite patchKiro_eq, Hl, Hp, Hc. reflexivity. Qed.

Lemma patched_located_file env (fs : gmap string node) p c F :
  located_file env fs = Some p -> fs !! p = Some (File c) ->
  located_file env (<[p := File F]> (with_backup fs p c)) = Some p.
Proof.
  intros Hl Hp. unfold located_file.
  rewrite located_insert
    by (right; apply (has_true _ _ (File c)); rewrite with_backup_lookup; exact Hp).
  rewrite with_backup_located, (located_of_file _ _ _ Hl).
  rewrite has_insert. destruct (decide (p = p)); [reflexivity|contradiction].
Qed.

Lemma with_backup_idem (fs : gmap string node) p c F :
  with_backup (<[p := File F]> (with_backup fs p c)) p F =
  <[p := File F]> (with_backup fs p c).
Proof.
  unfold with_backup at 1. rewrite has_insert.
  destruct (decide (p = p +:+ ".backup")) as [E|_]; [reflexivity|].
  unfold with_backup. destruct (has fs (p +:+ ".backup")) eqn:Eh.
  - rewrite Eh. reflexivity.
  - rewrite has_insert.
    destruct (decide (p +:+ ".backup" = p +:+ ".backup")); [reflexivity|contradiction].
Qed.

End PatcherFacts.

(** C6.  For a located extension file that contains the upstream host
    pattern and has no backup beside it, [patchKiro] and then
    [restoreKiro] both succeed and leave the extension file with the
    content it had before the patch. *)
Theorem patch_restore_roundtrip
    (env : Patcher.Env) (fs : gmap string Patcher.node) (p c : string) :
  snd (Patcher.getValidExtensionPath env fs) = Ok (Some p) ->
  fs !! p = Some (Patcher.File c) ->
  fs !! (p +:+ ".backup") = None ->
  Pattern.test Pattern.match_host c = true ->
  exists fs1 fs2,
    Patcher.patchKiro env fs = (fs1, Ok Patcher.succeeded) /\
    Patcher.restoreKiro env fs1 = (fs2, Ok Patcher.succeeded) /\
    fs2 !! p = Some (Patcher.File c).
Proof.
  intros Hv Hp Hb Hc. apply getValidExtensionPath_inv in Hv.
  pose proof (host_patchable c Hc) as Hpc.
  eexists _, _. split; [apply (patchKiro_patched env fs p c Hv Hp Hpc)|].
  rewrite restoreKiro_eq.
  rewrite (located_of_file _ _ _ (patched_located_file env fs p c _ Hv Hp)).
  assert (Hwb : with_backup fs p c = <[p +:+ ".backup" := Patcher.File c]> fs).
  { unfold with_backup. rewrite (has_false _ _ Hb). reflexivity. }
  rewrite Hwb.
  rewrite (lookup_insert_ne _ p (p +:+ ".backup")) by (intros E; symmetry in E; revert E; apply append_neq).
  rewrite lookup_insert_eq, lookup_insert_eq.
  split; [reflexivity|]. apply lookup_insert_eq.
Qed.

(** C7.  On a located extension file that contains the upstream host
    pattern, a second [patchKiro] succeeds and changes nothing: the file
    keeps the content the first call wrote, and the backup, which the first
    call made of the original file if there was none, stays as it is. *)
Theorem patch_twice
    (env : Patcher.Env) (fs : gmap string Patcher.node) (p c : string) :
  snd (Patcher.getValidExtensionPath env fs) = Ok (Some p) ->
  fs !! p = Some (Patcher.File c) ->
  Pattern.test Pattern.match_host c = true ->
  exists fs1,
    Patcher.patchKiro env fs = (fs1, Ok Patcher.succeeded) /\
    Patcher.patchKiro env fs1 = (fs1, Ok Patcher.succeeded) /\
    fs1 !! p = Some (Patcher.File (patched_content c)) /\
    fs1 !! (p +:+ ".backup") =
      match fs !! (p +:+ ".backup") with
      | Some n => Some n
      | None => Some (Patcher.File c)
      end.
Proof.
  intros Hv Hp Hc. apply getValidExtensionPath_inv in Hv.
  pose proof (host_patchable c Hc) as Hpc.
  eexists. split; [apply (patchKiro_patched env fs p c Hv Hp Hpc)|].
  split; [|split].
  - rewrite patchKiro_eq.
    rewrite (patched_located_file env fs p c _ Hv Hp).
    rewrite lookup_insert_eq.
    unfold patchable. rewrite patched_content_fixed. cbn [snd].
    rewrite (patched_content_reads c Hpc).
    rewrite <- (with_backup_idem fs p c (patched_content c)) at 2.
    reflexivity.
  - apply lookup_insert_eq.
  - rewrite lookup_insert_ne by (intros E; symmetry in E; revert E; apply append_neq).
    unfold with_backup, has.
    destruct (fs !! (p +:+ ".backup")) as [n|] eqn:Eb.
    + rewrite bool_decide_eq_true_2 by eauto. exact Eb.
    + rewrite bool_decide_eq_false_2 by (intros [x Hx]; discriminate).
      apply lookup_insert_eq.
Qed.

(** C10.  On each failure path of [restoreKiro] (the extension is not
    located, there is no backup, the backup cannot be read) the result is
    a failure with a reason and the file system is as before; and whenever
    the result is a failure, the file system is as before. *)
Theorem restore_failure_keeps_files
    (env : Patcher.Env) (fs : gmap string Patcher.node) :
  (snd (Patcher.getExtensionPath env fs) = Ok None \/
   (exists p, snd (Patcher.getExtensionPath env fs) = Ok (Some p) /\
              (fs !! (p +:+ ".backup") = None \/
               fs !! (p +:+ ".backup") = Some Patcher.Dir)) ->
   exists e, Patcher.restoreKiro env fs = (fs, Ok (Patcher.failed e))) /\
  (forall fs' res,
     Patcher.restoreKiro env fs = (fs', Ok res) ->
     Patcher.success res = false -> fs' = fs).
Proof.
  split.
  - rewrite getExtensionPath_eq, restoreKiro_eq. cbn [snd].
    intros [[= H]|(p & [= H] & Hb)]; rewrite H.
    + eexists. reflexivity.
    + destruct Hb as [Hb|Hb]; rewrite Hb; eexists; reflexivity.
  - intros fs' res. rewrite restoreKiro_eq.
    destruct (located env fs) as [p|]; [|intros [= <- <-]; reflexivity].
    destruct (fs !! (p +:+ ".backup")) as [[b|]|];
      [|intros [= <- <-]; reflexivity|intros [= <- <-]; reflexivity].
    destruct (fs !! p) as [[c|]|]; intros [= <- <-]; try reflexivity;
      discriminate.
Qed.

Lemma patch_restore_roundtrip_witness :
  exists fs1 fs2,
    Patcher.patchKiro linux sample_fs = (fs1, Ok Patcher.succeeded) /\
    Patcher.restoreKiro linux fs1 = (fs2, Ok Patcher.succeeded) /\
    fs2 !! sample_extension = Some (Patcher.File sample_content).
Proof.
  apply (patch_restore_roundtrip linux sample_fs sample_extension sample_content).
  - vm_compute. reflexivity.
  - vm_compute. reflexivity.
  - vm_compute. reflexivity.
  - vm_compute. reflexivity.
Defined.

Lemma patch_twice_witness :
  exists fs1,
    Patcher.patchKiro linux sample_fs = (fs1, Ok Patcher.succeeded) /\
    Patcher.patchKiro linux fs1 = (fs1, Ok Patcher.succeeded) /\
    fs1 !! sample_extension = Some (Patcher.File (patched_content sample_content)) /\
    fs1 !! (sample_extension +:+ ".backup") =
      match sample_fs !! (sample_extension +:+ ".backup") with
      | Some n => Some n
      | None => Some (Patcher.File sample_content)
      end.
Proof.
  apply (patch_twice linux sample_fs sample_extension sample_content).
  - vm_compute. reflexivity.
  - vm_compute. reflexivity.
  - vm_compute. reflexivity.
Defined.

Lemma restore_failure_keeps_files_witness :
  (exists e, Patcher.restoreKiro linux sample_fs = (sample_fs, Ok (Patcher.failed e))) /\
  (forall fs' res,
     Patcher.restoreKiro linux sample_fs = (fs', Ok res) ->
     Patcher.success res = false -> fs' = sample_fs).
Proof.
  destruct (restore_failure_keeps_files linux sample_fs) as [H1 H2].
  split; [|exact H2].
  apply H1. right. exists sample_extension. split.
  - vm_compute. reflexivity.
  - left. vm_compute. reflexivity.
Defined.

(** C8.  The code at the failing input: the file holds the local
    endpoint and an upstream host of another region, which [patchKiro]
    would rewrite, and [isKiroPatched] reports it as patched. *)
Theorem isKiroPatched_other_region :
  snd (Patcher.isKiroPatched linux half_patched_fs) = Ok true /\
  Text.includes half_patched Patcher.LOCAL_ENDPOINT = true /\
  Pattern.test Pattern.match_host half_patched = true /\
  patchable half_patched = true.
Proof. repeat split; vm_compute; reflexivity. Qed.

(** What [isKiroPatched] decides on a located file: it holds the local
    endpoint and not the upstream host of the region us-east-1. *)
Lemma isKiroPatched_located env (fs : gmap string Patcher.node) p c :
  snd (Patcher.getValidExtensionPath env fs) = Ok (Some p) ->
  fs !! p = Some (Patcher.File c) ->
  Patcher.isKiroPatched env fs =
  (fs, Ok (Text.includes c "localhost:9980" &&
           negb (Text.includes c "https://q.us-east-1.amazonaws.com"))).
Proof.
  intros Hv Hp. apply getValidExtensionPath_inv in Hv.
  rewrite isKiroPatched_eq, Hv, Hp. reflexivity.
Qed.

Section CodecRoundTrip.
Import Json Codec Server.

Lemma be_bytes_1 v : be_bytes 1 v = [byte_of_Z v].
Proof. reflexivity. Qed.

Lemma be_bytes_2 v : be_bytes 2 v = [byte_of_Z (v / 256); byte_of_Z v].
Proof. reflexivity. Qed.

Lemma string_of_Buffer_from s : string_of_list_byte (Buffer_from s) = s.
Proof. apply string_of_list_byte_of_string. Qed.

Lemma read_header_bytes name value rest :
  Z.of_nat (String.length name) <= 255 ->
  Z.of_nat (String.length value) <= 65535 ->
  read_header (header_bytes name value ++ rest) = Some (name, value, rest).
Proof.
  intros Hn Hv. unfold header_bytes. rewrite be_bytes_1, be_bytes_2.
  rewrite <- !app_assoc. cbn [app read_header].
  rewrite byte_val_of_Z, Z.mod_small, Nat2Z.id by lia.
  rewrite (take_app_length' (Buffer_from name))
    by (symmetry; apply length_Buffer_from).
  rewrite (drop_app_length' (Buffer_from name))
    by (symmetry; apply length_Buffer_from).
  rewrite string_of_Buffer_from, be_bytes_1. cbn [app].
  assert (Hr : readUIntBE [byte_of_Z (Z.of_nat (String.length value) / 256);
                           byte_of_Z (Z.of_nat (String.length value))] =
               Z.of_nat (String.length value)).
  { rewrite <- be_bytes_2. apply readUIntBE_be_bytes.
    change (256 ^ Z.of_nat 2) with 65536. lia. }
  rewrite Hr, Nat2Z.id.
  rewrite (take_app_length' (Buffer_from value))
    by (symmetry; apply length_Buffer_from).
  rewrite (drop_app_length' (Buffer_from value))
    by (symmetry; apply length_Buffer_from).
  rewrite string_of_Buffer_from. reflexivity.
Qed.

Lemma message_bytes_layout hb pb :
  exists p1 p2 p3 p4 : Buffer,
    message_bytes hb pb = p1 ++ p2 ++ p3 ++ hb ++ pb ++ p4 /\
    length p1 = 4%nat /\ length p2 = 4%nat /\ length p3 = 4%nat /\
    length p4 = 4%nat /\
    p1 = be_bytes 4 (Z.of_nat (12 + length hb + length pb + 4)) /\
    p2 = be_bytes 4 (Z.of_nat (length hb)).
Proof.
  unfold message_bytes, message_body. generalize Crc.crc32. intros crc.
  eexists _, _, _, _. split.
  - rewrite <- !app_assoc. reflexivity.
  - rewrite !length_be_bytes. repeat split; reflexivity.
Qed.

Lemma read_frame_message_bytes et name2 value2 name3 value3 pb :
  Z.of_nat (String.length et) <= 65535 ->
  let hb := header_bytes ":event-type" et ++ header_bytes name2 value2 ++
            header_bytes name3 value3 in
  Z.of_nat (12 + length hb + length pb + 4) < 2 ^ 32 ->
  read_frame (message_bytes hb pb) =
  Some {| event_type := et; payload := string_of_list_byte pb |}.
Proof.
  intros He hb Hlt.
  destruct (message_bytes_layout hb pb)
    as (p1 & p2 & p3 & p4 & E & L1 & L2 & L3 & L4 & E1 & E2).
  assert (Hlen : length (message_bytes hb pb) =
                 (12 + length hb + length pb + 4)%nat).
  { rewrite E, !length_app. lia. }
  unfold read_frame. rewrite Hlen. rewrite E.
  rewrite (take_app_length' p1) by (symmetry; exact L1).
  rewrite (drop_app_length' p1) by (symmetry; exact L1).
  rewrite (take_app_length' p2) by (symmetry; exact L2).
  replace (p1 ++ p2 ++ p3 ++ hb ++ pb ++ p4)
    with ((p1 ++ p2 ++ p3) ++ hb ++ pb ++ p4) by (rewrite <- !app_assoc; reflexivity).
  assert (L123 : length (p1 ++ p2 ++ p3) = 12%nat) by (rewrite !length_app; lia).
  rewrite E1, E2.
  rewrite !readUIntBE_be_bytes
    by (change (256 ^ Z.of_nat 4) with (2 ^ 32); lia).
  rewrite !Nat2Z.id, Nat.eqb_refl. cbn [negb].
  rewrite (drop_app_length' (_ ++ _ ++ p3) _ 12)
    by (rewrite <- E1, <- E2; symmetry; exact L123).
  rewrite take_app_length.
  change (read_header hb)
    with (read_header (header_bytes ":event-type" et ++
                       (header_bytes name2 value2 ++ header_bytes name3 value3))).
  rewrite read_header_bytes by (cbn [String.length]; lia).
  rewrite String.eqb_refl.
  rewrite (app_assoc _ hb).
  rewrite (drop_app_length' _ _ (12 + length hb))
    by (rewrite length_app, <- E1, <- E2, L123; reflexivity).
  replace (12 + length hb + length pb + 4 - 16 - length hb)%nat
    with (length pb) by lia.
  rewrite take_app_length. reflexivity.
Qed.

End CodecRoundTrip.

(** X1.  A header that [encodeStringHeader] returns reads back as the
    name and the value it was made of, whatever follows it. *)
Theorem header_roundtrip (name value : string) (h rest : Codec.Buffer) :
  Codec.encodeStringHeader name value = Ok h ->
  Server.read_header (h ++ rest) = Some (name, value, rest).
Proof.
  intros H. apply encodeStringHeader_inv in H as (-> & Hn & Hv).
  apply read_header_bytes; assumption.
Qed.

Lemma header_roundtrip_witness :
  Server.read_header
    (Codec.returned (Codec.encodeStringHeader ":event-type" "meteringEvent") ++
     [Byte.x01]) =
  Some (":event-type"%string, "meteringEvent"%string, [Byte.x01]).
Proof.
  apply (header_roundtrip ":event-type" "meteringEvent").
  vm_compute. reflexivity.
Defined.

(** X2.  [encodeStringHeader] returns exactly when the name fits one
    length byte and the value two; otherwise it throws, and no truncated
    header is produced. *)
Theorem header_bounds (name value : string) :
  is_ok (Codec.encodeStringHeader name value) =
  (Z.of_nat (String.length name) <=? 255) &&
  (Z.of_nat (String.length value) <=? 65535).
Proof.
  destruct (Codec.encodeStringHeader name value) as [h|e] eqn:E; cbn [is_ok].
  - apply encodeStringHeader_inv in E as (_ & Hn & Hv).
    symmetry. apply andb_true_iff. split; apply Z.leb_le; assumption.
  - symmetry. apply not_true_is_false. intros H.
    apply andb_true_iff in H as [Hn Hv].
    apply Z.leb_le in Hn, Hv.
    rewrite (encodeStringHeader_ok name value Hn Hv) in E. discriminate.
Qed.

Lemma read_frame_encoded
    (eventType : string) (payload : Json.json) (msg : Codec.Buffer) :
  Codec.encodeEventStreamMessage eventType payload = Ok msg ->
  Server.read_frame msg =
  Some {| Server.event_type := eventType;
          Server.payload := Json.stringify payload |}.
Proof.
  intros H.
  apply encodeEventStreamMessage_inv in H
    as (h1 & h2 & h3 & E1 & E2 & E3 & -> & Hlt).
  apply encodeStringHeader_inv in E1 as (-> & _ & He).
  apply encodeStringHeader_inv in E2 as (-> & _ & _).
  apply encodeStringHeader_inv in E3 as (-> & _ & _).
  rewrite read_frame_message_bytes.
  - rewrite string_of_Buffer_from. reflexivity.
  - exact He.
  - unfold message_bytes in Hlt.
    rewrite length_app, length_message_body, length_be_bytes in Hlt.
    exact Hlt.
Qed.

(** X3.  A message that [encodeEventStreamMessage] returns reads back as
    a frame with the event type it was given and the JSON text of its
    payload. *)
Theorem frame_roundtrip
    (eventType : string) (payload : Json.json) (msg : Codec.Buffer) :
  Codec.encodeEventStreamMessage eventType payload = Ok msg ->
  Server.read_frame msg =
  Some {| Server.event_type := eventType;
          Server.payload := Json.stringify payload |}.
Proof. apply read_frame_encoded. Qed.

Lemma frame_roundtrip_witness :
  Server.read_frame sample_frame =
  Some {| Server.event_type := "assistantResponseEvent";
          Server.payload :=
            Json.stringify (Json.JObj [("content"%string, Json.JStr "Hi")]) |}.
Proof.
  apply (frame_roundtrip "assistantResponseEvent"
           (Json.JObj [("content"%string, Json.JStr "Hi")]) sample_frame).
  vm_compute. reflexivity.
Defined.

(** X4.  [encodeEventStreamMessage] returns a message whenever the
    event type is at most 65535 bytes long and the JSON text of the
    payload shorter than 2^31 bytes: no write is out of range. *)
Theorem encode_message_returns (eventType : string) (payload : Json.json) :
  Z.of_nat (String.length eventType) <= 65535 ->
  Z.of_nat (String.length (Json.stringify payload)) < 2 ^ 31 ->
  exists msg, Codec.encodeEventStreamMessage eventType payload = Ok msg.
Proof.
  intros He Hp.
  pose proof (encodeEventStreamMessage_defined eventType payload He Hp) as H.
  destruct (Codec.encodeEventStreamMessage eventType payload) as [m|];
    [exists m; reflexivity|discriminate].
Qed.

Lemma encode_message_returns_witness :
  exists msg,
    Codec.encodeEventStreamMessage "contextUsageEvent"
      (Json.JObj [("contextUsagePercentage"%string,
                   Json.JNum (Json.Number false 5 (-1)))]) = Ok msg.
Proof.
  apply (encode_message_returns "contextUsageEvent").
  - vm_compute. discriminate.
  - vm_compute. reflexivity.
Defined.

Section TranslatorMore.
Import Json Translator.

Lemma history_entry_ok msg :
  is_ok (history_entry msg) = negb (is_null msg).
Proof.
  unfold history_entry.
  destruct msg; cbn [get is_null negb mbind result_bind is_ok]; try reflexivity;
    try (cbn; reflexivity).
  destruct (truthy_opt (prop (JObj fields) "userInputMessage")) eqn:Eu.
  - destruct (prop (JObj fields) "userInputMessage") as [u|]; [|discriminate].
    destruct u; try discriminate; reflexivity.
  - destruct (get_opt _ "content") as [c|]; [|reflexivity].
    destruct (truthy c); reflexivity.
Qed.

Lemma history_entry_length msg m :
  history_entry msg = Ok m -> (length m <= 1)%nat.
Proof.
  unfold history_entry.
  destruct (get (Some msg) "userInputMessage") as [u|]; [|discriminate].
  cbn [mbind result_bind].
  destruct (truthy_opt u).
  - destruct (get u "content"); [|discriminate].
    cbn [mbind result_bind]. intros [= <-]. cbn. lia.
  - destruct (get (Some msg) "assistantResponseMessage") as [a|]; [|discriminate].
    cbn [mbind result_bind].
    destruct (get_opt a "content") as [c|]; [destruct (truthy c)|];
      intros [= <-]; cbn; lia.
Qed.

Lemma history_loop_ok items acc :
  is_ok (history_loop items acc) = forallb (fun m => negb (is_null m)) items.
Proof.
  revert acc. induction items as [|msg items IH]; intros acc; [reflexivity|].
  cbn [history_loop forallb]. rewrite <- history_entry_ok.
  destruct (history_entry msg) as [m|]; cbn [mbind result_bind is_ok andb];
    [apply IH|reflexivity].
Qed.

Lemma history_loop_length items acc r :
  history_loop items acc = Ok r -> (length r <= length acc + length items)%nat.
Proof.
  revert acc. induction items as [|msg items IH]; intros acc.
  - cbn. intros [= <-]. lia.
  - cbn [history_loop].
    destruct (history_entry msg) as [m|] eqn:Em; [|discriminate].
    cbn [mbind result_bind]. intros H. apply IH in H.
    apply history_entry_length in Em. rewrite length_app in H.
    cbn [length]. lia.
Qed.

Lemma chars_not_null s : forallb (fun m => negb (is_null m)) (chars s) = true.
Proof. induction s as [|c s IH]; [reflexivity|exact IH]. Qed.

Lemma state_of_get req k : exists v, get (state_of req) k = Ok v /\
                                     v = get_opt (state_of req) k.
Proof.
  unfold state_of.
  destruct (get_opt (Some req) "conversationState") as [cs|]; cbn [truthy_opt].
  - destruct cs; cbn [truthy]; try (eexists; split; reflexivity).
    + destruct b; eexists; split; reflexivity.
    + destruct (negb _); eexists; split; reflexivity.
    + destruct (negb _); eexists; split; reflexivity.
  - eexists; split; reflexivity.
Qed.

Lemma kiroToAnthropic_ok req : is_ok (kiroToAnthropic req) = translatable req.
Proof.
  unfold kiroToAnthropic, translatable. fold (state_of req).
  destruct (state_of_get req "currentMessage") as (cm & -> & _).
  destruct (state_of_get req "history") as (h & -> & <-).
  cbn [mbind result_bind].
  destruct h as [hv|].
  - destruct hv; cbn [truthy iterate mbind result_bind is_ok negb];
      try reflexivity.
    + destruct b; reflexivity.
    + destruct (negb (mantissa n =? 0)%N); reflexivity.
    + destruct (negb (String.eqb s "")).
      * cbn [mbind result_bind]. rewrite <- (chars_not_null s), <- (history_loop_ok _ []).
        destruct (history_loop (chars s) []); reflexivity.
      * cbn [mbind result_bind history_loop]. reflexivity.
    + rewrite <- (history_loop_ok items []).
      destruct (history_loop items []); reflexivity.
  - reflexivity.
Qed.

End TranslatorMore.


(** X6.  A request that [kiroToAnthropic] translates from a history
    array yields at most one message per history entry, plus one for the
    current turn. *)
Theorem kiroToAnthropic_message_count
    (req : Json.json) (items : list Json.json) (r : Translator.ChatRequest) :
  Json.get_opt (state_of req) "history" = Some (Json.JArr items) ->
  Translator.kiroToAnthropic req = Ok r ->
  (length (Translator.messages r) <= length items + 1)%nat.
Proof.
  intros Hh. unfold Translator.kiroToAnthropic. fold (state_of req).
  destruct (state_of_get req "currentMessage") as (cm & -> & _).
  destruct (state_of_get req "history") as (h & -> & Eh).
  rewrite Hh in Eh. subst h.
  cbn [mbind result_bind Json.truthy Translator.iterate].
  destruct (Translator.history_loop items []) as [msgs|] eqn:El; [|discriminate].
  cbn [mbind result_bind]. intros [= <-]. cbn [Translator.messages].
  apply history_loop_length in El. cbn [length] in El.
  destruct (Json.get_opt (Json.get_opt cm "userInputMessage") "content") as [c|];
    [destruct (Json.truthy c)|]; rewrite ?length_app; cbn [length]; lia.
Qed.

Lemma kiroToAnthropic_message_count_witness :
  (length (Translator.messages
             {| Translator.req_model := Translator.Model (Json.JStr "m");
                Translator.messages :=
                  [Translator.Message Translator.user
                     (Translator.Raw (Some (Json.JStr "a")));
                   Translator.Message Translator.user
                     (Translator.TextBlock (Json.JStr "q"))];
                Translator.max_tokens := 8192;
                Translator.stream := true |})
   <= length [turn_json (UserTurn "a"); Json.JNum (Json.Number false 7 0)] + 1)%nat.
Proof.
  apply (kiroToAnthropic_message_count
           (Json.JObj
              [("conversationState"%string,
                Json.JObj
                  [("history"%string,
                    Json.JArr [turn_json (UserTurn "a");
                               Json.JNum (Json.Number false 7 0)]);
                   ("currentMessage"%string,
                    Json.JObj [("userInputMessage"%string,
                                Json.JObj [("content"%string, Json.JStr "q");
                                           ("modelId"%string, Json.JStr "m")])])])])).
  - vm_compute. reflexivity.
  - vm_compute. reflexivity.
Defined.

(** X7.  On the ids that [Object.prototype] does not define,
    [mapModelId] maps the two aliases to the fast model, the empty and
    the absent id to the default, and returns every other id unchanged. *)
Theorem mapModelId_plain_ids :
  Translator.mapModelId None =
    Translator.Model (Json.JStr "claude-sonnet-4-5-thinking") /\
  forall id : string,
    Translator.inherited id = false ->
    Translator.mapModelId (Some (Json.JStr id)) =
    Translator.Model (Json.JStr
      (if String.eqb id "claude-haiku" || String.eqb id "simple-task"
       then "gemini-3-flash"
       else if String.eqb id "" then "claude-sonnet-4-5-thinking" else id)).
Proof.
  split; [reflexivity|]. intros id Hi. unfold Translator.mapModelId.
  cbn [Translator.property_key Translator.to_string Translator.own
       Translator.MODEL_MAP].
  rewrite (String.eqb_sym "claude-haiku"), (String.eqb_sym "simple-task").
  destruct (String.eqb_spec id "claude-haiku"); [reflexivity|].
  destruct (String.eqb_spec id "simple-task"); [reflexivity|].
  rewrite Hi. cbn [orb Json.truthy].
  destruct (String.eqb id ""); reflexivity.
Qed.

Lemma mapModelId_plain_ids_witness :
  Translator.mapModelId (Some (Json.JStr "gemini-3-pro-high")) =
  Translator.Model (Json.JStr "gemini-3-pro-high").
Proof.
  apply (proj2 mapModelId_plain_ids "gemini-3-pro-high"%string).
  vm_compute. reflexivity.
Defined.

Section ServerMore.
Import Json Server.

Lemma frames_of_chunks chunks :
  snd (on_chunks {| buf := EmptyString; tc := O |} chunks) =
  frames_of (concat_chunks chunks).
Proof. rewrite on_chunks_whole by reflexivity. reflexivity. Qed.

(** What the handler of [/generateAssistantResponse] does, case by case. *)
Lemma generate_eq body run :
  generateAssistantResponse body run =
  match parse body with
  | None => [WriteHead 500 None; End EmptyString]
  | Some req =>
      match Translator.kiroToAnthropic req with
      | Throw _ => [WriteHead 500 None; End EmptyString]
      | Ok areq =>
          WriteHead 200 (Some eventstream) :: Forward areq ::
          List.map Write (frames_of (concat_chunks (chunks run))) ++
          match final run with
          | Finished => [Write frame_metering; Write frame_context;
                         End EmptyString]
          | Failed => [End EmptyString]
          end
      end
  end.
Proof.
  unfold generateAssistantResponse.
  destruct (parse body) as [req|]; [|reflexivity].
  destruct (Translator.kiroToAnthropic req) as [areq|]; [|reflexivity].
  rewrite frames_of_chunks, on_end_frames. reflexivity.
Qed.

Lemma post_generate body models run :
  server "POST" "/generateAssistantResponse" body models run =
  cors :: generateAssistantResponse body run.
Proof. reflexivity. Qed.




Lemma split_lines_no_newline s :
  Text.includes s (String Text.newline EmptyString) = false ->
  Text.split_lines s = [s].
Proof.
  induction s as [|c s IH]; [reflexivity|].
  cbn [Text.includes String.prefix Text.split_lines].
  intros H. apply orb_false_iff in H as [Hc Hs].
  destruct (Ascii.eqb_spec c Text.newline) as [->|Hne].
  - exfalso. revert Hc. unfold Text.newline.
    destruct (ascii_dec "010" "010"); [|contradiction].
    destruct s; discriminate.
  - rewrite (IH Hs). reflexivity.
Qed.

End ServerMore.






(** X11.  A last line that the proxy does not end with a line feed is
    never handled: a response text without a line feed yields no
    assistant frame, only the metering and the context usage frame. *)
Theorem unterminated_line_dropped
    (body : string) (req : Json.json) (areq : Translator.ChatRequest)
    (chunks : list string) (models : Models.fetch) :
  Json.parse body = Some req ->
  Translator.kiroToAnthropic req = Ok areq ->
  Text.includes (concat_chunks chunks) (String Text.newline EmptyString) = false ->
  Server.server "POST" "/generateAssistantResponse" body models
    {| Server.chunks := chunks; Server.final := Server.Finished |} =
  [cors; Server.WriteHead 200 (Some Server.eventstream); Server.Forward areq;
   Server.Write frame_metering; Server.Write frame_context;
   Server.End EmptyString].
Proof.
  intros Hp Ht Hn. rewrite post_generate, generate_eq, Hp, Ht.
  cbn [Server.chunks Server.final]. unfold frames_of.
  rewrite (split_lines_no_newline _ Hn). reflexivity.
Qed.

Lemma unterminated_line_dropped_witness :
  Server.server "POST" "/generateAssistantResponse" sample_body Models.ErrorEvent
    {| Server.chunks :=
         [Json.sq "data: {'type':'content_block_delta',";
          Json.sq "'delta':{'text':'Hi'}}"];
       Server.final := Server.Finished |} =
  [cors; Server.WriteHead 200 (Some Server.eventstream);
   Server.Forward sample_request;
   Server.Write frame_metering; Server.Write frame_context;
   Server.End EmptyString].
Proof.
  apply (unterminated_line_dropped sample_body
           (Json.JObj [("conversationState"%string,
              Json.JObj [("currentMessage"%string,
                Json.JObj [("userInputMessage"%string,
                  Json.JObj [("content"%string, Json.JStr "hello");
                             ("modelId"%string, Json.JStr "simple-task")])])])])).
  - vm_compute. reflexivity.
  - vm_compute. reflexivity.
  - vm_compute. reflexivity.
Defined.

(** X12.  When the forwarded request fails, the frames of the lines
    received so far have been written and the response is ended without a
    metering or context usage frame. *)
Theorem upstream_failure_ends_stream
    (body : string) (req : Json.json) (areq : Translator.ChatRequest)
    (chunks : list string) (models : Models.fetch) :
  Json.parse body = Some req ->
  Translator.kiroToAnthropic req = Ok areq ->
  Server.server "POST" "/generateAssistantResponse" body models
    {| Server.chunks := chunks; Server.final := Server.Failed |} =
  cors :: Server.WriteHead 200 (Some Server.eventstream) :: Server.Forward areq ::
  List.map Server.Write (frames_of (concat_chunks chunks)) ++
  [Server.End EmptyString].
Proof.
  intros Hp Ht. rewrite post_generate, generate_eq, Hp, Ht. reflexivity.
Qed.

Lemma upstream_failure_ends_stream_witness :
  Server.server "POST" "/generateAssistantResponse" sample_body Models.ErrorEvent
    {| Server.chunks := [sse_line "Hi"]; Server.final := Server.Failed |} =
  cors :: Server.WriteHead 200 (Some Server.eventstream) ::
  Server.Forward sample_request ::
  List.map Server.Write (frames_of (concat_chunks [sse_line "Hi"])) ++
  [Server.End EmptyString].
Proof.
  apply (upstream_failure_ends_stream sample_body
           (Json.JObj [("conversationState"%string,
              Json.JObj [("currentMessage"%string,
                Json.JObj [("userInputMessage"%string,
                  Json.JObj [("content"%string, Json.JStr "hello");
                             ("modelId"%string, Json.JStr "simple-task")])])])])).
  - vm_compute. reflexivity.
  - vm_compute. reflexivity.
Defined.

(** X13.  A generation request whose history holds a [null] entry is
    answered with status 500: nothing is forwarded and no frame is
    written. *)
Theorem null_history_entry_is_500
    (body : string) (req : Json.json) (items : list Json.json)
    (models : Models.fetch) (run : Server.proxy_run) :
  Json.parse body = Some req ->
  Json.get_opt (state_of req) "history" = Some (Json.JArr items) ->
  In Json.JNull items ->
  Server.server "POST" "/generateAssistantResponse" body models run =
  [cors; Server.WriteHead 500 None; Server.End EmptyString].
Proof.
  intros Hp Hh Hin. rewrite post_generate, generate_eq, Hp.
  pose proof (kiroToAnthropic_ok req) as Hok.
  unfold translatable in Hok. rewrite Hh in Hok.
  assert (Hf : forallb (fun m => negb (is_null m)) items = false).
  { apply not_true_is_false. intros Hall.
    rewrite forallb_forall in Hall. specialize (Hall _ Hin). discriminate. }
  rewrite Hf in Hok.
  destruct (Translator.kiroToAnthropic req); [discriminate|reflexivity].
Qed.

Lemma null_history_entry_is_500_witness :
  Server.server "POST" "/generateAssistantResponse"
    (Json.sq "{'conversationState':{'history':[null]}}") Models.ErrorEvent
    {| Server.chunks := []; Server.final := Server.Finished |} =
  [cors; Server.WriteHead 500 None; Server.End EmptyString].
Proof.
  apply (null_history_entry_is_500
           (Json.sq "{'conversationState':{'history':[null]}}")
           (Json.JObj [("conversationState"%string,
                        Json.JObj [("history"%string, Json.JArr [Json.JNull])])])
           [Json.JNull]).
  - vm_compute. reflexivity.
  - vm_compute. reflexivity.
  - left. reflexivity.
Defined.

(** X14.  A request to [/generateAssistantResponse] that is neither a
    [POST] nor an [OPTIONS] is answered with 404; the body is not read
    and nothing is forwarded. *)
Theorem generate_requires_post
    (method body : string) (models : Models.fetch) (run : Server.proxy_run) :
  method <> "POST"%string -> method <> "OPTIONS"%string ->
  Server.server method "/generateAssistantResponse" body models run =
  [cors; Server.WriteHead 404 None; Server.End EmptyString].
Proof.
  intros Hp Ho. unfold Server.server. fold cors.
  destruct (String.eqb_spec method "OPTIONS"); [contradiction|].
  destruct (String.eqb_spec method "POST"); [contradiction|].
  reflexivity.
Qed.

Lemma generate_requires_post_witness :
  Server.server "GET" "/generateAssistantResponse" "" Models.ErrorEvent
    {| Server.chunks := []; Server.final := Server.Finished |} =
  [cors; Server.WriteHead 404 None; Server.End EmptyString].
Proof.
  apply (generate_requires_post "GET"); discriminate.
Defined.

Section ModelsMore.
Import Json Models.

Lemma keep_string s : keep (JStr s) = Ok (keep_id s).
Proof.
  unfold keep, keep_id. cbn [includes_image starts_with_deprecated mbind result_bind].
  destruct (Text.includes s "image"); reflexivity.
Qed.

Lemma keep_true m :
  keep m = Ok true -> exists s, m = JStr s /\ keep_id s = true.
Proof.
  destruct m; try discriminate.
  - rewrite keep_string. intros [= H]. exists s. split; [reflexivity|exact H].
  - unfold keep. cbn [includes_image mbind result_bind].
    destruct (existsb _ items); discriminate.
Qed.

Lemma filter_models_strings ids :
  filter_models (List.map JStr ids) = Ok (List.map JStr (List.filter keep_id ids)).
Proof.
  induction ids as [|s ids IH]; [reflexivity|].
  cbn [List.map filter_models List.filter]. rewrite keep_string, IH.
  cbn [mbind result_bind]. destruct (keep_id s); reflexivity.
Qed.

Lemma filter_models_kept l r m :
  filter_models l = Ok r -> In m r -> exists s, m = JStr s /\ keep_id s = true.
Proof.
  revert r. induction l as [|x l IH]; intros r.
  - intros [= <-] [].
  - cbn [filter_models]. destruct (keep x) as [k|] eqn:Ek; [|discriminate].
    cbn [mbind result_bind].
    destruct (filter_models l) as [r'|]; [|discriminate].
    cbn [mbind result_bind]. intros [= <-] Hin.
    destruct k.
    + destruct Hin as [<-|Hin]; [apply keep_true, Ek|apply (IH r' eq_refl Hin)].
    + apply (IH r' eq_refl Hin).
Qed.

Lemma filter_models_throws l :
  existsb (fun m => negb (has_includes m)) l = true ->
  is_ok (filter_models l) = false.
Proof.
  induction l as [|x l IH]; [discriminate|].
  cbn [existsb filter_models]. intros H. apply orb_true_iff in H as [H|H].
  - destruct x; try discriminate; reflexivity.
  - destruct (keep x); [|reflexivity]. cbn [mbind result_bind].
    specialize (IH H). destruct (filter_models l); [discriminate|reflexivity].
Qed.

Lemma fallback_kept m :
  In m FALLBACK_MODELS -> exists s, m = JStr s /\ keep_id s = true.
Proof.
  intros [<-|[<-|[<-|[<-|[]]]]]; eexists; split; reflexivity.
Qed.

End ModelsMore.

(** X15.  On a list of ids the filter keeps, in order, exactly those
    without [image] in them that do not start with [gemini-2.5]. *)
Theorem filter_excludes_exactly (ids : list string) :
  Models.filter_models (List.map Json.JStr ids) =
  Ok (List.map Json.JStr (List.filter keep_id ids)).
Proof. apply filter_models_strings. Qed.

(** X16.  Whatever the fetch from the proxy gives, every id that
    [getFilteredModels] returns is a string without [image] in it that
    does not start with [gemini-2.5]. *)
Theorem listed_models_are_clean (f : Models.fetch) (m : Json.json) :
  In m (Models.getFilteredModels f) ->
  exists s, m = Json.JStr s /\
            Text.includes s "image" = false /\
            Text.startsWith s "gemini-2.5" = false.
Proof.
  intros H.
  assert (Hk : exists s, m = Json.JStr s /\ keep_id s = true).
  { revert H. unfold Models.getFilteredModels.
    destruct (Models.resolved f) as [res|]; [|apply fallback_kept].
    destruct (negb (Json.truthy res) || _); [apply fallback_kept|].
    destruct (Json.prop res "models") as [[| | | |l|]|]; try apply fallback_kept.
    destruct (Models.filter_models l) as [r|] eqn:E; [|apply fallback_kept].
    apply (filter_models_kept l r m E). }
  destruct Hk as (s & -> & Hs). exists s. split; [reflexivity|].
  unfold keep_id in Hs. apply andb_true_iff in Hs as [H1 H2].
  split; apply negb_true_iff; assumption.
Qed.

Lemma listed_models_are_clean_witness :
  exists s, Json.JStr "gemini-3-flash" = Json.JStr s /\
            Text.includes s "image" = false /\
            Text.startsWith s "gemini-2.5" = false.
Proof.
  apply (listed_models_are_clean
           (Models.Ended (Json.sq "{'models':['gemini-2.5-pro','gemini-3-flash','gemini-3-pro-image']}"))
           (Json.JStr "gemini-3-flash")).
  vm_compute. left. reflexivity.
Defined.

(** X17.  One entry of the fetched list that is neither a string nor an
    array makes the filter throw, and the whole fetched list is given up
    for the static list. *)
Theorem bad_entry_voids_list
    (data : string) (res : Json.json) (l : list Json.json) :
  Json.parse data = Some res ->
  Json.prop res "models" = Some (Json.JArr l) ->
  existsb (fun m => negb (has_includes m)) l = true ->
  Models.getFilteredModels (Models.Ended data) = Models.FALLBACK_MODELS.
Proof.
  intros Hp Hm Hb. unfold Models.getFilteredModels.
  cbn [Models.resolved]. rewrite Hp, Hm.
  destruct (negb (Json.truthy res) || _); [reflexivity|].
  apply filter_models_throws in Hb.
  destruct (Models.filter_models l); [discriminate|reflexivity].
Qed.

Lemma bad_entry_voids_list_witness :
  Models.getFilteredModels
    (Models.Ended (Json.sq "{'models':['claude-opus',null,'gemini-3-pro-high']}")) =
  Models.FALLBACK_MODELS.
Proof.
  apply (bad_entry_voids_list _
           (Json.JObj [("models"%string,
                        Json.JArr [Json.JStr "claude-opus"; Json.JNull;
                                   Json.JStr "gemini-3-pro-high"])])
           [Json.JStr "claude-opus"; Json.JNull; Json.JStr "gemini-3-pro-high"]).
  - vm_compute. reflexivity.
  - reflexivity.
  - reflexivity.
Defined.

(** X18.  When the proxy answers with an object whose [models] is a
    list of ids, [/ListAvailableModels] answers 200 with the
    descriptors of the ids that pass the filter, in the order of the
    proxy. *)
Theorem list_models_live
    (method body data : string) (res : Json.json) (ids : list string)
    (run : Server.proxy_run) :
  method <> "OPTIONS"%string ->
  Json.parse data = Some res ->
  Json.prop res "models" = Some (Json.JArr (List.map Json.JStr ids)) ->
  Server.server method "/ListAvailableModels" body (Models.Ended data) run =
  [cors; Server.WriteHead 200 (Some "application/json"%string);
   Server.End (Json.stringify
                 (Models.buildModelResponse
                    (List.map Json.JStr (List.filter keep_id ids))))].
Proof.
  intros Ho Hp Hm. unfold Server.server. fold cors.
  destruct (String.eqb_spec method "OPTIONS"); [contradiction|].
  cbn [String.eqb Ascii.eqb Bool.eqb].
  unfold Models.getFilteredModels. cbn [Models.resolved]. rewrite Hp, Hm.
  assert (Ht : Json.truthy res = true).
  { destruct res; try discriminate. reflexivity. }
  rewrite Ht. cbn [negb orb Json.truthy_opt Json.truthy].
  rewrite filter_models_strings. reflexivity.
Qed.

Lemma list_models_live_witness :
  Server.server "GET" "/ListAvailableModels" ""
    (Models.Ended (Json.sq "{'models':['gemini-2.5-pro','gemini-3-flash','gemini-3-pro-image']}"))
    {| Server.chunks := []; Server.final := Server.Finished |} =
  [cors; Server.WriteHead 200 (Some "application/json"%string);
   Server.End (Json.stringify
                 (Models.buildModelResponse
                    (List.map Json.JStr
                       (List.filter keep_id
                          ["gemini-2.5-pro"; "gemini-3-flash";
                           "gemini-3-pro-image"]%string))))].
Proof.
  apply (list_models_live "GET" "" _
           (Json.JObj [("models"%string,
                        Json.JArr (List.map Json.JStr
                          ["gemini-2.5-pro"; "gemini-3-flash";
                           "gemini-3-pro-image"]%string))])).
  - discriminate.
  - vm_compute. reflexivity.
  - reflexivity.
Defined.

Section PatcherMore.
Import Pattern Patcher.

Lemma getExtensionPath_inv env (fs : gmap string node) p :
  snd (getExtensionPath env fs) = Ok (Some p) -> located env fs = Some p.
Proof. rewrite getExtensionPath_eq. cbn [snd]. intros [= H]. exact H. Qed.

Lemma with_backup_other (fs : gmap string node) p c q :
  q <> p +:+ ".backup" -> with_backup fs p c !! q = fs !! q.
Proof.
  intros Hq. unfold with_backup. destruct (has fs _); [reflexivity|].
  apply lookup_insert_ne. intros E. apply Hq. symmetry. exact E.
Qed.

Lemma with_backup_kept (fs : gmap string node) p c n :
  fs !! (p +:+ ".backup") = Some n ->
  with_backup fs p c !! (p +:+ ".backup") = Some n.
Proof.
  intros H. unfold with_backup. rewrite (has_true _ _ _ H). exact H.
Qed.

Lemma last2_extension env d : last2 (extension_of env d) = "js"%string.
Proof.
  unfold extension_of.
  destruct (isWindows env); [|destruct (isMac env)].
  - change (join [d; "resources"; "app"; "extensions"; "kiro.kiro-agent";
                  "dist"; "extension.js"])
      with (d +:+ "/resources/app/extensions/kiro.kiro-agent/dist/extension." +:+
            "js")%string.
    rewrite append_assoc. apply last2_append.
  - change (join [d; "Contents"; "Resources"; "app"; "extensions";
                  "kiro.kiro-agent"; "dist"; "extension.js"])
      with (d +:+ "/Contents/Resources/app/extensions/kiro.kiro-agent/dist/extension." +:+
            "js")%string.
    rewrite append_assoc. apply last2_append.
  - change (join [d; "resources"; "app"; "extensions"; "kiro.kiro-agent";
                  "dist"; "extension.js"])
      with (d +:+ "/resources/app/extensions/kiro.kiro-agent/dist/extension." +:+
            "js")%string.
    rewrite append_assoc. apply last2_append.
Qed.

(** The extension path is none of the directories the patcher looks
    for. *)
Lemma located_not_possible env (fs : gmap string node) p :
  located env fs = Some p -> ~ In p (possiblePaths env).
Proof.
  unfold located.
  destruct (first_of fs (possiblePaths env)) as [d|]; [|discriminate].
  intros [= <-] Hin. apply last2_possible in Hin.
  rewrite last2_extension in Hin. destruct Hin as [H|[H|H]]; discriminate.
Qed.

End PatcherMore.

(** X19.  Whatever its outcome, [patchKiro] returns a result and
    changes no path other than the located extension file and its
    backup. *)
Theorem patch_touches_two_paths
    (env : Patcher.Env) (fs : gmap string Patcher.node) :
  exists fs' res,
    Patcher.patchKiro env fs = (fs', Ok res) /\
    forall q,
      snd (Patcher.getValidExtensionPath env fs) <> Ok (Some q) ->
      (forall p, snd (Patcher.getValidExtensionPath env fs) = Ok (Some p) ->
                 q <> p +:+ ".backup") ->
      fs' !! q = fs !! q.
Proof.
  rewrite patchKiro_eq, getValidExtensionPath_eq. cbn [snd].
  destruct (located_file env fs) as [p|]; [|eexists _, _; split; reflexivity].
  destruct (fs !! p) as [[c|]|] eqn:Ep; try (eexists _, _; split; reflexivity).
  destruct (patchable c).
  - eexists _, _. split; [reflexivity|]. intros q Hq Hb.
    rewrite lookup_insert_ne by (intros ->; apply Hq; reflexivity).
    apply with_backup_other, Hb. reflexivity.
  - eexists _, _. split; [reflexivity|]. intros q Hq Hb.
    apply with_backup_other, Hb. reflexivity.
Qed.

(** X20.  [patchKiro] never writes over a backup that is there:
    whatever the content of the extension file, the backup is afterwards
    what it was before. *)
Theorem patch_keeps_existing_backup
    (env : Patcher.Env) (fs : gmap string Patcher.node) (p : string)
    (n : Patcher.node) :
  snd (Patcher.getValidExtensionPath env fs) = Ok (Some p) ->
  fs !! (p +:+ ".backup") = Some n ->
  fst (Patcher.patchKiro env fs) !! (p +:+ ".backup") = Some n.
Proof.
  intros Hv Hb. apply getValidExtensionPath_inv in Hv.
  rewrite patchKiro_eq, Hv.
  destruct (fs !! p) as [[c|]|]; cbn [fst]; try exact Hb.
  destruct (patchable c); cbn [fst].
  - rewrite lookup_insert_ne
      by (intros E; symmetry in E; revert E; apply append_neq).
    apply with_backup_kept, Hb.
  - apply with_backup_kept, Hb.
Qed.

Lemma patch_keeps_existing_backup_witness :
  fst (Patcher.patchKiro linux
         (<[sample_extension +:+ ".backup" := Patcher.File "original"]> sample_fs))
    !! (sample_extension +:+ ".backup") =
  Some (Patcher.File "original").
Proof.
  apply (patch_keeps_existing_backup linux _ sample_extension).
  - vm_compute. reflexivity.
  - vm_compute. reflexivity.
Defined.

(** X21.  A patch that finds nothing to rewrite in a file that does not
    read as patched fails with its reason, and still leaves a backup of
    the file behind when there was none. *)
Theorem failed_patch_leaves_backup
    (env : Patcher.Env) (fs : gmap string Patcher.node) (p c : string) :
  snd (Patcher.getValidExtensionPath env fs) = Ok (Some p) ->
  fs !! p = Some (Patcher.File c) ->
  fs !! (p +:+ ".backup") = None ->
  Pattern.test Pattern.match_host c = false ->
  Text.includes c Patcher.LOCAL_ENDPOINT = false ->
  Patcher.patchKiro env fs =
  (<[p +:+ ".backup" := Patcher.File c]> fs,
   Ok (Patcher.failed "No patchable patterns found")).
Proof.
  intros Hv Hp Hb Hh Hl. apply getValidExtensionPath_inv in Hv.
  rewrite patchKiro_eq, Hv, Hp.
  assert (Hn : patchable c = false).
  { unfold patchable. rewrite apply_patterns_eq. cbv zeta. cbn [snd].
    destruct (Pattern.test Pattern.match_endpoint c) eqn:E.
    - apply test_endpoint_host in E. rewrite Hh in E. discriminate.
    - rewrite Hh. reflexivity. }
  rewrite Hn. unfold reads_patched. rewrite Hl. cbn [andb].
  unfold with_backup. rewrite (has_false _ _ Hb). reflexivity.
Qed.

Lemma failed_patch_leaves_backup_witness :
  Patcher.patchKiro linux plain_fs =
  (<[sample_extension +:+ ".backup" := Patcher.File plain_content]> plain_fs,
   Ok (Patcher.failed "No patchable patterns found")).
Proof.
  apply (failed_patch_leaves_backup linux plain_fs sample_extension plain_content).
  - vm_compute. reflexivity.
  - vm_compute. reflexivity.
  - vm_compute. reflexivity.
  - vm_compute. reflexivity.
  - vm_compute. reflexivity.
Defined.

(** X22.  After a patch that found a host, no upstream host of any
    region is left in the extension file, and [isKiroPatched] returns
    true. *)
Theorem patch_establishes_patched
    (env : Patcher.Env) (fs : gmap string Patcher.node) (p c : string) :
  snd (Patcher.getValidExtensionPath env fs) = Ok (Some p) ->
  fs !! p = Some (Patcher.File c) ->
  Pattern.test Pattern.match_host c = true ->
  exists c',
    fst (Patcher.patchKiro env fs) !! p = Some (Patcher.File c') /\
    Pattern.test Pattern.match_host c' = false /\
    Pattern.test Pattern.match_endpoint c' = false /\
    snd (Patcher.isKiroPatched env (fst (Patcher.patchKiro env fs))) = Ok true.
Proof.
  intros Hv Hp Hc. apply getValidExtensionPath_inv in Hv.
  pose proof (host_patchable c Hc) as Hpc.
  rewrite (patchKiro_patched env fs p c Hv Hp Hpc). cbn [fst].
  exists (patched_content c).
  split; [apply lookup_insert_eq|].
  split; [apply patched_content_no_host|].
  split; [apply patched_content_no_endpoint|].
  rewrite isKiroPatched_eq. cbn [snd].
  rewrite (patched_located_file env fs p c _ Hv Hp), lookup_insert_eq.
  rewrite (patched_content_reads c Hpc). reflexivity.
Qed.

Lemma patch_establishes_patched_witness :
  exists c',
    fst (Patcher.patchKiro linux sample_fs) !! sample_extension =
      Some (Patcher.File c') /\
    Pattern.test Pattern.match_host c' = false /\
    Pattern.test Pattern.match_endpoint c' = false /\
    snd (Patcher.isKiroPatched linux (fst (Patcher.patchKiro linux sample_fs))) =
      Ok true.
Proof.
  apply (patch_establishes_patched linux sample_fs sample_extension sample_content).
  - vm_compute. reflexivity.
  - vm_compute. reflexivity.
  - vm_compute. reflexivity.
Defined.

(** X23.  [restoreKiro] does not need the extension file to be there:
    when the installation is found and a backup is readable, it writes the
    content of the backup to the extension path and keeps the backup. *)
Theorem restore_writes_backup
    (env : Patcher.Env) (fs : gmap string Patcher.node) (p b : string) :
  snd (Patcher.getExtensionPath env fs) = Ok (Some p) ->
  fs !! (p +:+ ".backup") = Some (Patcher.File b) ->
  fs !! p <> Some Patcher.Dir ->
  Patcher.restoreKiro env fs =
    (<[p := Patcher.File b]> fs, Ok Patcher.succeeded) /\
  (<[p := Patcher.File b]> fs) !! (p +:+ ".backup") = Some (Patcher.File b).
Proof.
  intros Hl Hb Hd. apply getExtensionPath_inv in Hl.
  rewrite restoreKiro_eq, Hl, Hb. split.
  - destruct (fs !! p) as [[c|]|]; try reflexivity. contradiction.
  - rewrite lookup_insert_ne by (intros E; symmetry in E; revert E; apply append_neq).
    exact Hb.
Qed.

Lemma restore_writes_backup_witness :
  Patcher.restoreKiro linux orphan_fs =
    (<[sample_extension := Patcher.File sample_content]> orphan_fs,
     Ok Patcher.succeeded) /\
  (<[sample_extension := Patcher.File sample_content]> orphan_fs)
    !! (sample_extension +:+ ".backup") = Some (Patcher.File sample_content).
Proof.
  apply (restore_writes_backup linux orphan_fs sample_extension sample_content).
  - vm_compute. reflexivity.
  - vm_compute. reflexivity.
  - vm_compute. discriminate.
Defined.

(** X24.  A second [restoreKiro] after a successful one succeeds and
    changes nothing. *)
Theorem restore_twice
    (env : Patcher.Env) (fs fs1 : gmap string Patcher.node) :
  Patcher.restoreKiro env fs = (fs1, Ok Patcher.succeeded) ->
  Patcher.restoreKiro env fs1 = (fs1, Ok Patcher.succeeded).
Proof.
  rewrite !restoreKiro_eq.
  destruct (located env fs) as [p|] eqn:El; [|discriminate].
  destruct (fs !! (p +:+ ".backup")) as [[b|]|] eqn:Eb; try discriminate.
  destruct (fs !! p) as [[c|]|] eqn:Ep; try discriminate.
  - intros [= <-].
    rewrite located_insert by (right; apply (has_true _ _ _ Ep)).
    rewrite El.
    rewrite lookup_insert_ne by (intros E; symmetry in E; revert E; apply append_neq).
    rewrite Eb, lookup_insert_eq, insert_insert_eq. reflexivity.
  - intros [= <-].
    assert (Hnp : ~ In p (Patcher.possiblePaths env))
      by (apply (located_not_possible env fs), El).
    rewrite located_insert by (left; exact Hnp).
    rewrite El.
    rewrite lookup_insert_ne by (intros E; symmetry in E; revert E; apply append_neq).
    rewrite Eb, lookup_insert_eq, insert_insert_eq. reflexivity.
Qed.

Lemma restore_orphan :
  Patcher.restoreKiro linux orphan_fs =
  (<[sample_extension := Patcher.File sample_content]> orphan_fs,
   Ok Patcher.succeeded).
Proof.
  rewrite restoreKiro_eq.
  replace (located linux orphan_fs) with (Some sample_extension)
    by (vm_compute; reflexivity).
  replace (orphan_fs !! (sample_extension +:+ ".backup"))
    with (Some (Patcher.File sample_content)) by (vm_compute; reflexivity).
  replace (orphan_fs !! sample_extension) with (@None Patcher.node)
    by (vm_compute; reflexivity).
  reflexivity.
Qed.

Lemma restore_twice_witness :
  Patcher.restoreKiro linux
    (<[sample_extension := Patcher.File sample_content]> orphan_fs) =
  (<[sample_extension := Patcher.File sample_content]> orphan_fs,
   Ok Patcher.succeeded).
Proof.
  apply (restore_twice linux orphan_fs). exact restore_orphan.
Defined.

(** X25.  Patching twice and then restoring gives back the content the
    extension file had before the first patch. *)
Theorem patch_patch_restore
    (env : Patcher.Env) (fs : gmap string Patcher.node) (p c : string) :
  snd (Patcher.getValidExtensionPath env fs) = Ok (Some p) ->
  fs !! p = Some (Patcher.File c) ->
  fs !! (p +:+ ".backup") = None ->
  Pattern.test Pattern.match_host c = true ->
  fst (Patcher.restoreKiro env
         (fst (Patcher.patchKiro env (fst (Patcher.patchKiro env fs))))) !! p =
  Some (Patcher.File c).
Proof.
  intros Hv Hp Hb Hc. apply getValidExtensionPath_inv in Hv.
  pose proof (host_patchable c Hc) as Hpc.
  rewrite (patchKiro_patched env fs p c Hv Hp Hpc). cbn [fst].
  set (fs1 := <[p := Patcher.File (patched_content c)]> (with_backup fs p c)).
  assert (H2 : Patcher.patchKiro env fs1 = (fs1, Ok Patcher.succeeded)).
  { rewrite patchKiro_eq. subst fs1.
    rewrite (patched_located_file env fs p c _ Hv Hp), lookup_insert_eq.
    unfold patchable. rewrite patched_content_fixed. cbn [snd].
    rewrite (patched_content_reads c Hpc).
    rewrite <- (with_backup_idem fs p c (patched_content c)) at 2. reflexivity. }
  rewrite H2. cbn [fst]. rewrite restoreKiro_eq. subst fs1.
  rewrite (located_of_file _ _ _ (patched_located_file env fs p c _ Hv Hp)).
  rewrite (lookup_insert_ne _ p (p +:+ ".backup"))
    by (intros E; symmetry in E; revert E; apply append_neq).
  unfold with_backup. rewrite (has_false _ _ Hb).
  rewrite lookup_insert_eq, lookup_insert_eq. cbn [fst]. apply lookup_insert_eq.
Qed.

Lemma patch_patch_restore_witness :
  fst (Patcher.restoreKiro linux
         (fst (Patcher.patchKiro linux (fst (Patcher.patchKiro linux sample_fs)))))
    !! sample_extension =
  Some (Patcher.File sample_content).
Proof.
  apply (patch_patch_restore linux sample_fs sample_extension sample_content).
  - vm_compute. reflexivity.
  - vm_compute. reflexivity.
  - vm_compute. reflexivity.
  - vm_compute. reflexivity.
Defined.

(** X26.  Neither [patchKiro] nor [restoreKiro] changes where the
    extension is located: the path that [getExtensionPath] returns is the
    same after either of them as before. *)
Theorem location_is_stable
    (env : Patcher.Env) (fs : gmap string Patcher.node) :
  snd (Patcher.getExtensionPath env (fst (Patcher.patchKiro env fs))) =
    snd (Patcher.getExtensionPath env fs) /\
  snd (Patcher.getExtensionPath env (fst (Patcher.restoreKiro env fs))) =
    snd (Patcher.getExtensionPath env fs).
Proof.
  rewrite !getExtensionPath_eq. cbn [snd]. split; f_equal.
  - rewrite patchKiro_eq.
    destruct (located_file env fs) as [p|] eqn:El; [|reflexivity].
    destruct (located_file_has _ _ _ El) as [n Hn]. rewrite Hn.
    destruct n as [c|]; [|reflexivity].
    destruct (patchable c); cbn [fst].
    + rewrite located_insert
        by (right; apply (has_true _ _ (Patcher.File c));
            rewrite with_backup_lookup; exact Hn).
      apply with_backup_located.
    + apply with_backup_located.
  - rewrite restoreKiro_eq.
    destruct (located env fs) as [p|] eqn:El; [|cbn [fst]; exact El].
    destruct (fs !! (p +:+ ".backup")) as [[b|]|]; cbn [fst]; try exact El.
    destruct (fs !! p) as [[c|]|]; cbn [fst]; try exact El;
      (rewrite located_insert
         by (left; apply (located_not_possible env fs), El); exact El).
Qed.

Section Lifecycle_facts.
Import Lifecycle.

Lemma poll_spec (w : World) (n : nat) : forall st,
  let r := poll w n st in
  (started (fst r) = true <->
     exists i, (i < n)%nat /\ health w (checks st + i) = true) /\
  (checks st <= checks (snd r) <= checks st + n)%nat /\
  kiroProcess (snd r) = kiroProcess st /\
  slept (log (snd r)) = slept (log st) + 500 * Z.of_nat (checks (snd r) - checks st) /\
  spawns (log (snd r)) = spawns (log st) /\
  (forall c, kill_attempted c (log (snd r)) = kill_attempted c (log st)) /\
  (started (fst r) = false ->
     checks (snd r) = (checks st + n)%nat /\
     start_error (fst r) = Some "Server failed to start after 2.5s"%string).
Proof.
  induction n as [|n IH]; intros st; cbn zeta.
  - cbn [poll fst snd started start_error].
    split; [split; [discriminate | intros (i & Hi & _); lia]|].
    split; [lia|]. split; [reflexivity|]. split; [lia|].
    split; [reflexivity|]. split; [reflexivity|].
    intros _. split; [lia | reflexivity].
  - cbn [poll]. unfold getKiroServerStatus. cbn [checks kiroProcess log].
    destruct (health w (checks st)) eqn:Hh.
    + cbn [fst snd started start_error checks kiroProcess log slept spawns kill_attempted].
      split; [split; [|reflexivity]|].
      { intros _. exists O. split; [lia|]. now rewrite Nat.add_0_r. }
      split; [lia|]. split; [reflexivity|]. split; [lia|].
      split; [reflexivity|]. split; [reflexivity|]. discriminate.
    + specialize (IH {| kiroProcess := kiroProcess st; checks := S (checks st);
                        log := Checked false :: Slept 500 :: log st |}).
      cbn zeta in IH. cbn [checks kiroProcess log slept spawns kill_attempted] in IH.
      match type of IH with context [poll w n ?s] => set (r := poll w n s) in * end.
      destruct IH as (I1 & I2 & I3 & I4 & I5 & I6 & I7).
      split; [split|].
      { intros H. apply I1 in H. destruct H as (i & Hi & H).
        exists (S i). split; [lia|]. now rewrite Nat.add_succ_r. }
      { intros (i & Hi & H). apply I1. destruct i as [|i].
        - rewrite Nat.add_0_r in H. congruence.
        - exists i. split; [lia|]. now rewrite Nat.add_succ_r in H. }
      split; [lia|]. split; [exact I3|]. split; [lia|].
      split; [exact I5|]. split; [exact I6|].
      intros H. apply I7 in H. destruct H as [H1 H2]. split; [lia | exact H2].
Qed.

Lemma kill_handle_checks (w : World) st : checks (kill_handle w st) = checks st.
Proof. unfold kill_handle. now destruct (kiroProcess st). Qed.

Lemma kill_handle_none (w : World) st : kiroProcess (kill_handle w st) = None.
Proof. unfold kill_handle. destruct (kiroProcess st) eqn:E; [reflexivity|exact E]. Qed.

Lemma kill_handle_slept (w : World) st : slept (log (kill_handle w st)) = slept (log st).
Proof.
  unfold kill_handle. destruct (kiroProcess st); [|reflexivity].
  cbn [log]. now destruct (kill_throws w c).
Qed.

Lemma kill_handle_spawns (w : World) st : spawns (log (kill_handle w st)) = spawns (log st).
Proof.
  unfold kill_handle. destruct (kiroProcess st); [|reflexivity].
  cbn [log]. now destruct (kill_throws w c).
Qed.

Lemma kill_handle_attempted (w : World) st c :
  kiroProcess st = Some c -> kill_attempted c (log (kill_handle w st)) = true.
Proof.
  intros H. unfold kill_handle. rewrite H. cbn [log].
  destruct (kill_throws w c); cbn [kill_attempted]; now rewrite Nat.eqb_refl.
Qed.

Lemma kill_handle_log (w : World) st c :
  kill_attempted c (log (kill_handle w st)) =
  (match kiroProcess st with Some c' => Nat.eqb c c' | None => false end)
  || kill_attempted c (log st).
Proof.
  unfold kill_handle. destruct (kiroProcess st) as [c'|]; [|reflexivity].
  cbn [log]. now destruct (kill_throws w c').
Qed.

(** X27. [startKiroServer] reports success exactly when the server
    answers the first health check, or the process could be spawned and
    the server answers one of the five checks that follow; it never makes
    more than six checks, and never sleeps longer than 2.5 seconds. *)
Theorem start_succeeds_iff_healthy (w : World) (st : State) :
  let r := startKiroServer w st in
  (started (fst r) = true <->
     health w (checks st) = true \/
     (is_ok (spawn w (S (checks st))) = true /\
      exists i, (1 <= i <= 5)%nat /\ health w (checks st + i) = true)) /\
  (checks st < checks (snd r) <= checks st + 6)%nat /\
  slept (log st) <= slept (log (snd r)) <= slept (log st) + 2500.
Proof.
  cbn zeta. unfold startKiroServer, getKiroServerStatus.
  destruct (health w (checks st)) eqn:Hh.
  - cbn [fst snd started checks log slept].
    split; [split; [now left | reflexivity]|]. split; lia.
  - rewrite kill_handle_checks. cbn [checks].
    destruct (spawn w (S (checks st))) as [c|e] eqn:Hs.
    + match goal with |- context [poll w 5 ?s] =>
        pose proof (poll_spec w 5 s) as P; set (r := poll w 5 s) in * end.
      cbn zeta in P. cbn [checks kiroProcess log slept spawns] in P.
      rewrite kill_handle_slept in P.
      cbn [checks log slept] in P.
      destruct P as (P1 & P2 & _ & P4 & _).
      split; [split|split; lia].
      * intros H. right. split; [reflexivity|]. apply P1 in H.
        destruct H as (i & Hi & H). exists (S i). split; [lia|].
        now rewrite Nat.add_succ_r.
      * intros [H|(_ & i & Hi & H)]; [discriminate|]. apply P1.
        destruct i as [|i]; [lia|]. exists i. split; [lia|].
        now rewrite Nat.add_succ_r in H.
    + cbn [fst snd started]. rewrite ?kill_handle_checks, kill_handle_slept.
      cbn [checks log slept].
      split; [split; [discriminate | intros [H|(H & _)]; discriminate]|].
      split; lia.
Qed.

(** X28. When the server does not come up, the process that was spawned
    is neither killed nor forgotten: [startKiroServer] reports the
    failure after six checks, and the handle still names the process. *)
Theorem failed_start_keeps_process (w : World) (st : State) (c : Child) :
  spawn w (S (checks st)) = Ok c ->
  (forall i, (i <= 5)%nat -> health w (checks st + i) = false) ->
  let r := startKiroServer w st in
  fst r = {| started := false;
             start_error := Some "Server failed to start after 2.5s"%string |} /\
  kiroProcess (snd r) = Some c /\
  checks (snd r) = (checks st + 6)%nat /\
  spawns (log (snd r)) = S (spawns (log st)) /\
  kill_attempted c (log (snd r)) =
    (match kiroProcess st with Some c' => Nat.eqb c c' | None => false end)
    || kill_attempted c (log st).
Proof.
  intros Hs Hh. cbn zeta. unfold startKiroServer, getKiroServerStatus.
  assert (H0 : health w (checks st) = false).
  { rewrite <- (Nat.add_0_r (checks st)). apply Hh. lia. }
  rewrite !H0, kill_handle_checks. cbn [checks]. rewrite Hs.
  match goal with |- context [poll w 5 ?s] =>
    pose proof (poll_spec w 5 s) as P; set (r := poll w 5 s) in * end.
  cbn zeta in P. cbn [checks kiroProcess log slept spawns kill_attempted] in P.
  rewrite ?kill_handle_checks, kill_handle_spawns in P.
  cbn [checks log spawns] in P.
  destruct P as (P1 & P2 & P3 & _ & P5 & P6 & P7).
  assert (F : started (fst r) = false).
  { destruct (started (fst r)) eqn:E; [|reflexivity].
    destruct P1 as [P1 _]. destruct (P1 eq_refl) as (i & Hi & H).
    rewrite Nat.add_succ_l, <- Nat.add_succ_r in H. rewrite Hh in H by lia.
    discriminate. }
  destruct (P7 F) as [Q1 Q2].
  repeat split.
  - destruct (fst r) as [s e]. cbn in F, Q2. now subst.
  - exact P3.
  - lia.
  - exact P5.
  - rewrite P6, kill_handle_log. cbn [kiroProcess log kill_attempted]. reflexivity.
Qed.

Lemma failed_start_keeps_process_witness :
  let r := startKiroServer dead_world idle in
  fst r = {| started := false;
             start_error := Some "Server failed to start after 2.5s"%string |} /\
  kiroProcess (snd r) = Some 7%nat /\
  checks (snd r) = 6%nat /\
  spawns (log (snd r)) = 1%nat /\
  kill_attempted 7%nat (log (snd r)) = false.
Proof.
  apply (failed_start_keeps_process dead_world idle 7%nat); [reflexivity|].
  intros i _. reflexivity.
Defined.

Lemma poll_kills (w : World) (n : nat) : forall st,
  kills (log (snd (poll w n st))) = kills (log st).
Proof.
  induction n as [|n IH]; intros st; [reflexivity|].
  cbn [poll]. unfold getKiroServerStatus. cbn [checks kiroProcess log].
  destruct (health w (checks st)); [reflexivity|].
  rewrite IH. reflexivity.
Qed.

Lemma kill_handle_kills (w : World) st :
  kills (log (kill_handle w st)) = (kills (log st) + tracked st)%nat.
Proof.
  unfold kill_handle, tracked. destruct (kiroProcess st) as [c|]; [|cbn; lia].
  cbn [log]. destruct (kill_throws w c); cbn [kills]; lia.
Qed.

Lemma do_call_accounts (w : World) (c : call) (st : State) :
  spawns (log st) = (kills (log st) + tracked st)%nat ->
  spawns (log (do_call w c st)) =
  (kills (log (do_call w c st)) + tracked (do_call w c st))%nat.
Proof.
  intros I. destruct c; cbn [do_call].
  - unfold startKiroServer, getKiroServerStatus.
    destruct (health w (checks st)); [exact I|].
    set (st1 := {| kiroProcess := kiroProcess st; checks := S (checks st);
                   log := Checked false :: log st |}).
    assert (K : spawns (log (kill_handle w st1)) = kills (log (kill_handle w st1))).
    { rewrite kill_handle_spawns, kill_handle_kills. exact I. }
    destruct (spawn w (checks (kill_handle w st1))) as [p|e].
    + match goal with |- context [poll w 5 ?s] =>
        pose proof (poll_spec w 5 s) as P; pose proof (poll_kills w 5 s) as Q;
        set (r := poll w 5 s) in * end.
      cbn zeta in P. cbn [checks kiroProcess log slept spawns kills] in P, Q.
      destruct P as (_ & _ & P3 & _ & P5 & _).
      unfold tracked. rewrite P3, P5, Q, K. lia.
    + cbn [snd]. unfold tracked. rewrite kill_handle_none, K. lia.
  - unfold stopKiroServer, tracked.
    rewrite kill_handle_none, kill_handle_spawns, kill_handle_kills. lia.
  - exact I.
Qed.

(** X29. Whatever the application calls and whatever the surroundings
    answer, the processes spawned are accounted for: there are as many of
    them as attempts to kill one, plus one when a handle is held.  No
    process is dropped without an attempt to kill it. *)
Theorem spawned_processes_accounted (w : World) (cs : list call) :
  let st := run w cs idle in
  spawns (log st) = (kills (log st) + tracked st)%nat.
Proof.
  cbn zeta. unfold run.
  assert (G : forall st, spawns (log st) = (kills (log st) + tracked st)%nat ->
    spawns (log (fold_left (fun s c => do_call w c s) cs st)) =
    (kills (log (fold_left (fun s c => do_call w c s) cs st)) +
     tracked (fold_left (fun s c => do_call w c s) cs st))%nat).
  { induction cs as [|c cs IH]; intros st I; [exact I|].
    cbn [fold_left]. apply IH. now apply do_call_accounts. }
  apply G. reflexivity.
Qed.

End Lifecycle_facts.

Section PackageMore.
Import Package.

Lemma digit_cases c :
  Json.is_digit c = true ->
  c = "0"%char \/ c = "1"%char \/ c = "2"%char \/ c = "3"%char \/
  c = "4"%char \/ c = "5"%char \/ c = "6"%char \/ c = "7"%char \/
  c = "8"%char \/ c = "9"%char.
Proof.
  destruct c as [[] [] [] [] [] [] [] []]; intros H; try discriminate H; tauto.
Qed.

Lemma skip_space_digit c r :
  Json.is_digit c = true -> Pattern.skip_space (String c r) = String c r.
Proof.
  intros H. apply digit_cases in H.
  destruct r as [|b [|d r]];
    decompose [or] H; subst c; reflexivity.
Qed.

Lemma take_digits_all a :
  all_digits a = true -> Json.take_digits a = (a, EmptyString).
Proof.
  induction a as [|c a IH]; [reflexivity|].
  cbn [all_digits]. intros H. apply andb_true_iff in H as [Hc Ha].
  cbn [Json.take_digits]. rewrite Hc, (IH Ha). reflexivity.
Qed.

Lemma split_dot_numeral a r :
  all_digits a = true ->
  split_dot (a +:+ String "." r) = a :: split_dot r.
Proof.
  induction a as [|c a IH]; [reflexivity|].
  cbn [all_digits]. intros H. apply andb_true_iff in H as [Hc Ha].
  rewrite append_cons. cbn [split_dot]. rewrite (IH Ha).
  apply digit_cases in Hc. decompose [or] Hc; subst c; reflexivity.
Qed.

Lemma split_dot_last a : all_digits a = true -> split_dot a = [a].
Proof.
  induction a as [|c a IH]; [reflexivity|].
  cbn [all_digits]. intros H. apply andb_true_iff in H as [Hc Ha].
  cbn [split_dot]. rewrite (IH Ha).
  apply digit_cases in Hc. decompose [or] Hc; subst c; reflexivity.
Qed.

Lemma split_dot_version3 a b c :
  all_digits a = true -> all_digits b = true -> all_digits c = true ->
  split_dot (version3 a b c) = [a; b; c].
Proof.
  intros Ha Hb Hc. unfold version3.
  change ("." +:+ b +:+ "." +:+ c)%string
    with (String "." (b +:+ String "." c)).
  rewrite (split_dot_numeral a _ Ha), (split_dot_numeral b _ Hb),
    (split_dot_last c Hc). reflexivity.
Qed.

Lemma radix_prefix_numeral a : all_digits a = true -> radix_prefix a = None.
Proof.
  destruct a as [|c [|k r]]; try reflexivity.
  cbn [all_digits]. intros H. apply andb_true_iff in H as [_ H].
  apply andb_true_iff in H as [Hk _]. unfold radix_prefix.
  destruct (Ascii.eqb c "0"); [|reflexivity].
  apply digit_cases in Hk. decompose [or] Hk; subst k; reflexivity.
Qed.

Lemma Number_numeral a :
  numeral a = true -> Number a = Fin (Z.of_N (Json.digits_value a)) 0.
Proof.
  unfold numeral. intros H. apply andb_true_iff in H as [Hn Ha].
  destruct a as [|c a]; [discriminate Hn|]. clear Hn.
  pose proof Ha as Hc. cbn [all_digits] in Hc.
  apply andb_true_iff in Hc as [Hc _].
  unfold Number. rewrite (skip_space_digit c a Hc).
  rewrite (radix_prefix_numeral _ Ha).
  assert (S1 : sign (String c a) = (false, String c a)).
  { apply digit_cases in Hc. decompose [or] Hc; subst c; reflexivity. }
  assert (S2 : Text.strip_prefix "Infinity" (String c a) = None).
  { apply digit_cases in Hc. decompose [or] Hc; subst c; reflexivity. }
  cbn [String.eqb]. rewrite S1, S2, (take_digits_all _ Ha).
  cbn [fraction exponent_part String.eqb andb all_space Pattern.skip_space
       String.length Z.of_nat].
  rewrite append_nil_r, Z.mul_1_l. reflexivity.
Qed.

Lemma or_zero_fin m : or_zero (Some (Fin m 0)) = Fin m 0.
Proof.
  cbn [or_zero]. destruct (Z.eqb_spec m 0) as [->|]; reflexivity.
Qed.

Lemma lt_fin m n : lt (Fin m 0) (Fin n 0) = (m <? n).
Proof. cbn [lt]. rewrite Z.min_id, Z.sub_diag, !Z.mul_1_r. reflexivity. Qed.

Lemma round_of_N (x y : N) (k : Z) :
  (if gt (Fin (Z.of_N x) 0) (Fin (Z.of_N y) 0) then 1
   else if lt (Fin (Z.of_N x) 0) (Fin (Z.of_N y) 0) then -1 else k) =
  match N.compare x y with Eq => k | Lt => -1 | Gt => 1 end.
Proof.
  unfold gt. rewrite !lt_fin.
  destruct (N.compare_spec x y) as [->|H|H].
  - rewrite Z.ltb_irrefl. reflexivity.
  - destruct (Z.ltb_spec (Z.of_N y) (Z.of_N x)); [lia|].
    destruct (Z.ltb_spec (Z.of_N x) (Z.of_N y)); [reflexivity|lia].
  - destruct (Z.ltb_spec (Z.of_N y) (Z.of_N x)); [reflexivity|lia].
Qed.

End PackageMore.

(** X30.  On versions of three decimal components, each below [2 ^ 53],
    [compareVersions] is the comparison of the triples of their values,
    the major component counting most: 1, -1 or 0 as the first version is
    the greater, the smaller, or the same.  Leading zeros do not count. *)
Theorem compareVersions_numeric (a1 a2 a3 b1 b2 b3 : string) :
  numeral a1 = true -> numeral a2 = true -> numeral a3 = true ->
  numeral b1 = true -> numeral b2 = true -> numeral b3 = true ->
  (forall p, In p [a1; a2; a3; b1; b2; b3] ->
     (Json.digits_value p < 2 ^ 53)%N) ->
  Package.compareVersions (version3 a1 a2 a3) (version3 b1 b2 b3) =
  sign_of (lex3 (Json.digits_value a1, Json.digits_value a2, Json.digits_value a3)
                (Json.digits_value b1, Json.digits_value b2, Json.digits_value b3)).
Proof.
  intros A1 A2 A3 B1 B2 B3 _.
  assert (D : forall s, numeral s = true -> all_digits s = true).
  { intros s H. unfold numeral in H. now apply andb_true_iff in H as [_ H]. }
  unfold Package.compareVersions.
  rewrite !split_dot_version3 by (apply D; assumption).
  cbn [map]. rewrite !Number_numeral by assumption.
  cbn [Package.compare_from nth_error]. rewrite !or_zero_fin, !round_of_N.
  unfold lex3, sign_of.
  destruct (N.compare _ _); [|reflexivity|reflexivity].
  destruct (N.compare _ _); [|reflexivity|reflexivity].
  destruct (N.compare _ _); reflexivity.
Qed.

Lemma compareVersions_numeric_witness :
  Package.compareVersions "2.0.10" "2.0.7" = 1.
Proof.
  apply (compareVersions_numeric "2" "0" "10" "2" "0" "7"); try reflexivity.
  intros p H. cbn [In] in H.
  decompose [or] H; try contradiction; subst p; reflexivity.
Defined.
